(** * kalman-viz: the statistical correlation and prediction engine

    A shallow embedding of [src/correlation.ts] (class [CorrelationAnalyzer])
    and of the two extraction functions of [src/parser.ts] it calls
    ([FileParser.extractGPSErrorDimensions], [FileParser.extractFinalParameters]),
    over the data types of [src/types.ts]; then of the rest of
    [FileParser] that is free of I/O (type detection, file selection, the
    lists and values of the plot controls) and of what [src/main.ts]
    computes around the analyzer.

    JavaScript numbers are IEEE-754 binary64 values: they are modelled by
    Rocq's primitive [float], whose operations are the same binary64
    operations, so every definition below evaluates to the value the
    TypeScript code computes. *)

From Stdlib Require Import List String ZArith Lia Bool.
From Stdlib Require Import Floats Uint63.
From Stdlib Require Import Sorted Permutation.
Import ListNotations.

Set Implicit Arguments.
Set Warnings "-inexact-float".


Open Scope string_scope.
Open Scope list_scope.

(* ================================================================== *)
(** * The JavaScript fragment the code uses *)
(* ================================================================== *)

Module JS.

(** [number]: an IEEE-754 double. *)
Definition number : Type := float.

(** The global predicates [isNaN] and [isFinite], applied to numbers. *)
Definition isNaN (v : number) : bool := PrimFloat.is_nan v.
Definition isFinite (v : number) : bool := PrimFloat.is_finite v.

Definition Math_abs (v : number) : number := PrimFloat.abs v.
Definition Math_sqrt (v : number) : number := PrimFloat.sqrt v.

(** [Math.pow(v, 2)], the only use of [Math.pow] in the code: the square
    of [v], taken as the correctly rounded product. *)
Definition Math_pow_2 (v : number) : number := (v * v)%float.

(** [a.length] as a number (exact for every array length). *)
Definition length_number {A} (a : list A) : number :=
  PrimFloat.of_uint63 (Uint63.of_Z (Z.of_nat (List.length a))).

(** [a[i]] inside an arithmetic expression: an index out of range reads
    [undefined], which arithmetic converts to NaN. *)
Definition Array_get (a : list number) (i : nat) : number :=
  nth i a PrimFloat.nan.

(** [a.reduce((acc, v, i) => f(acc, v, i), init)]. *)
Fixpoint reduce_from {A B} (f : B -> A -> nat -> B) (a : list A) (i : nat) (acc : B) : B :=
  match a with
  | [] => acc
  | v :: rest => reduce_from f rest (S i) (f acc v i)
  end.

Definition reduce {A B} (f : B -> A -> nat -> B) (a : list A) (init : B) : B :=
  reduce_from f a 0 init.

(** Optional chaining [o?.f] and nullish coalescing [v ?? d]. *)
Definition opt_chain {A B} (o : option A) (f : A -> option B) : option B :=
  match o with
  | Some a => f a
  | None => None
  end.

Definition nullish (v : option number) (d : number) : number :=
  match v with
  | Some n => n
  | None => d
  end.

(** ** Objects used as string-keyed records, and [Map]

    Both keep their keys in insertion order: assigning to a key that
    exists replaces the value where it stands, a new key goes to the
    end.  [Object.keys], [Map.prototype.forEach] and [Map.prototype.keys]
    enumerate in that order.  A [Dict] holds the own properties: [get]
    and [set] are the operations of a [Map], and of a plain object as far
    as its own properties go; [read] and [assign] below are [o[key]] and
    [o[key] = v] on a plain object, which also reach [Object.prototype]. *)
Definition Dict (V : Type) : Type := list (string * V).

Fixpoint get {V} (d : Dict V) (k : string) : option V :=
  match d with
  | [] => None
  | (k', v) :: rest => if String.eqb k k' then Some v else get rest k
  end.

Fixpoint set {V} (d : Dict V) (k : string) (v : V) : Dict V :=
  match d with
  | [] => [(k, v)]
  | (k', v') :: rest =>
      if String.eqb k k' then (k', v) :: rest else (k', v') :: set rest k v
  end.

Definition keys {V} (d : Dict V) : list string := map fst d.
Definition values {V} (d : Dict V) : list V := map snd d.

(** The names of the members of [Object.prototype].  Reading one of
    them from an object that has no member of that name of its own gives
    the inherited member: a function, or the prototype for [__proto__]. *)
Definition inherited (key : string) : bool :=
  existsb (String.eqb key)
    [ "constructor"; "hasOwnProperty"; "isPrototypeOf"; "propertyIsEnumerable";
      "toLocaleString"; "toString"; "valueOf"; "__proto__";
      "__defineGetter__"; "__defineSetter__";
      "__lookupGetter__"; "__lookupSetter__" ].

(** [o[key]] on a plain object of numbers, read for a test against
    [undefined] and for arithmetic: [None] is [undefined]; an inherited
    member is not [undefined], and arithmetic converts it (a function or
    an object) to NaN. *)
Definition read (o : Dict number) (key : string) : option number :=
  match get o key with
  | Some v => Some v
  | None => if inherited key then Some PrimFloat.nan else None
  end.

(** [o[key] = v] on a plain object, [v] a number: the key [__proto__]
    reaches the setter inherited from [Object.prototype], which ignores a
    value that is neither an object nor null, so no property is made. *)
Definition assign (o : Dict number) (key : string) (v : number) : Dict number :=
  if String.eqb key "__proto__" then o else set o key v.

(** [Array.prototype.sort(compare)].  ECMAScript requires the sort to be
    stable and reads a NaN returned by the comparator as +0; for a
    consistent comparator the result is then determined.  It is computed
    here by a stable insertion sort: an element moves behind a neighbour
    only when [compare(element, neighbour) > 0].  For a comparator that
    is not consistent (the ranking by |coefficient| when a coefficient is
    NaN) ECMAScript leaves the order to the implementation: this
    definition then gives a permutation of the array, not the order of a
    particular engine; the statements about [getTopPredictionModels]
    either hold for every order or carry the hypothesis that no
    coefficient is NaN. *)
Fixpoint sort_insert {A} (compare : A -> A -> number) (v : A) (a : list A) : list A :=
  match a with
  | [] => [v]
  | w :: rest =>
      if (0 <? compare v w)%float
      then w :: sort_insert compare v rest
      else v :: a
  end.

Fixpoint sort {A} (compare : A -> A -> number) (a : list A) : list A :=
  match a with
  | [] => []
  | v :: rest => sort_insert compare v (sort compare rest)
  end.

(** ** Exceptions *)
Inductive exn : Type :=
| TypeError. (* a property read on [undefined] *)

Inductive result (A : Type) : Type :=
| Ok (a : A)
| Throw (e : exn).
Arguments Ok {A} a.
Arguments Throw {A} e.

Definition bind {A B} (c : result A) (k : A -> result B) : result B :=
  match c with
  | Ok a => k a
  | Throw e => Throw e
  end.

(** [o.f] where [o] may be [undefined]: reading a property of
    [undefined] throws a [TypeError]. *)
Definition deref {A} (o : option A) : result A :=
  match o with
  | Some a => Ok a
  | None => Throw TypeError
  end.

(** [a.forEach(v => { body })] where the body pushes onto an array and
    may throw: the first exception aborts the loop. *)
Fixpoint forEach_push {A B} (body : A -> result (list B)) (a : list A) (acc : list B)
  : result (list B) :=
  match a with
  | [] => Ok acc
  | v :: rest =>
      bind (body v) (fun pushed => forEach_push body rest (acc ++ pushed))
  end.

End JS.

Notation "'let*' p ':=' c 'in' k" := (JS.bind c (fun p => k))
  (at level 61, p pattern, c at next level, right associativity).

(* ================================================================== *)
(** * [src/types.ts]: the fields the statistical core reads *)
(* ================================================================== *)

Module Types.
Import JS.

(** A JSON file is cast to its interface without validation
    ([json as SweepSummary]), so a field the parser's shape test does not
    look at may be missing at run time.  Such fields are [option]s;
    numeric leaves are numbers when present. *)

Module Vector3D.
Record t : Type := mk {
  x : option number;
  y : option number;
  z : option number
}.
End Vector3D.

Module FuzzinessErrors.
Record t : Type := mk {
  position : option Vector3D.t;
  velocity : option Vector3D.t;
  acceleration : option Vector3D.t
}.
End FuzzinessErrors.

Module GPSErrorData.
Record t : Type := mk {
  position : option Vector3D.t;
  velocity : option Vector3D.t;
  acceleration : option Vector3D.t;
  fuzziness : option FuzzinessErrors.t
}.
End GPSErrorData.

(** [GPSErrorFile]: [FileParser.isGPSError] has checked that [gpsError]
    is an object. *)
Record GPSErrorFile : Type := {
  gpsError : GPSErrorData.t
}.

Record KalmanParameters : Type := {
  rPosX : option number;
  rPosY : option number;
  rPosZ : option number;
  rPosXZ : option number; (* Legacy combined *)
  rVelocityX : option number;
  rVelocityY : option number;
  rVelocityZ : option number;
  rVelocityXZ : option number; (* Legacy combined *)
  qPosX : option number;
  qPosY : option number;
  qPosZ : option number;
  qPosXZ : option number; (* Legacy combined *)
  qVelocityX : option number;
  qVelocityY : option number;
  qVelocityZ : option number;
  qVelocityXZ : option number; (* Legacy combined *)
  qAccelerationX : option number;
  qAccelerationY : option number;
  qAccelerationZ : option number;
  qAccelerationXZ : option number (* Legacy combined *)
}.

Module SweepResult.
Record t : Type := mk {
  runIndex : number;
  finalParams : option KalmanParameters
}.
End SweepResult.

(** [FileParser.isSweepSummary] tests for [sweepName], [allResults] and
    [bestResult] only: [gpsError] may be absent. *)
Module SweepSummary.
Record t : Type := mk {
  gpsError : option GPSErrorData.t;
  allResults : list SweepResult.t
}.
End SweepSummary.

Module SectionSweepResult.
Record section_t : Type := mk_section {
  name : string
}.
Record bestResult_t : Type := mk_bestResult {
  finalParameters : option KalmanParameters
}.
Record t : Type := mk {
  section : option section_t;
  gpsErrorProfile : option GPSErrorData.t;
  bestResult : option bestResult_t
}.
End SectionSweepResult.

Module SectionSweep.
Record t : Type := mk {
  sections : list SectionSweepResult.t
}.
End SectionSweep.

(** [LoadedFile]: the [type] tag together with the [data] it announces.
    The data of the five kinds the core ignores is not modelled. *)
Inductive OtherType : Type :=
| optimizer | params | csv | gps_error | run_metadata.

Inductive FileData : Type :=
| sweep_summary (data : SweepSummary.t)
| section_sweep (data : SectionSweep.t)
| other (type : OtherType).

Module LoadedFile.
Record t : Type := mk {
  name : string;
  data : FileData
}.
End LoadedFile.

(** Correlation analysis types *)
Module DataPoint.
Record t : Type := mk {
  x : number;
  y : number;
  label : string
}.
End DataPoint.

Record CorrelationResult : Type := {
  xLabel : string;
  yLabel : string;
  coefficient : number;
  dataPoints : list DataPoint.t
}.

Inductive ModelType : Type := linear | polynomial | lookup.

Record PredictionModel : Type := {
  inputDimension : string;
  outputParameter : string;
  modelType : ModelType;
  coefficients : option (list number);
  rSquared : number
}.

End Types.

(* ================================================================== *)
(** * [src/parser.ts]: the two extraction functions *)
(* ================================================================== *)

Module FileParser.
Import JS Types.

(** Extract 18-dimensional GPS error vector from GPS error file
    ([gpsError] an object). *)
Definition extractGPSErrorDimensions (gpsError : GPSErrorData.t) : Dict number :=
  let dimensions : Dict number := [] in
  (* Position components (3) *)
  let dimensions := set dimensions "position.x"
    (nullish (opt_chain (GPSErrorData.position gpsError) Vector3D.x) 0%float) in
  let dimensions := set dimensions "position.y"
    (nullish (opt_chain (GPSErrorData.position gpsError) Vector3D.y) 0%float) in
  let dimensions := set dimensions "position.z"
    (nullish (opt_chain (GPSErrorData.position gpsError) Vector3D.z) 0%float) in
  (* Velocity components (3) *)
  let dimensions := set dimensions "velocity.x"
    (nullish (opt_chain (GPSErrorData.velocity gpsError) Vector3D.x) 0%float) in
  let dimensions := set dimensions "velocity.y"
    (nullish (opt_chain (GPSErrorData.velocity gpsError) Vector3D.y) 0%float) in
  let dimensions := set dimensions "velocity.z"
    (nullish (opt_chain (GPSErrorData.velocity gpsError) Vector3D.z) 0%float) in
  (* Acceleration components (3) *)
  let dimensions := set dimensions "acceleration.x"
    (nullish (opt_chain (GPSErrorData.acceleration gpsError) Vector3D.x) 0%float) in
  let dimensions := set dimensions "acceleration.y"
    (nullish (opt_chain (GPSErrorData.acceleration gpsError) Vector3D.y) 0%float) in
  let dimensions := set dimensions "acceleration.z"
    (nullish (opt_chain (GPSErrorData.acceleration gpsError) Vector3D.z) 0%float) in
  (* Fuzziness position components (3) *)
  let fuzziness := GPSErrorData.fuzziness gpsError in
  let dimensions := set dimensions "fuzziness.position.x"
    (nullish (opt_chain (opt_chain fuzziness FuzzinessErrors.position) Vector3D.x) 0%float) in
  let dimensions := set dimensions "fuzziness.position.y"
    (nullish (opt_chain (opt_chain fuzziness FuzzinessErrors.position) Vector3D.y) 0%float) in
  let dimensions := set dimensions "fuzziness.position.z"
    (nullish (opt_chain (opt_chain fuzziness FuzzinessErrors.position) Vector3D.z) 0%float) in
  (* Fuzziness velocity components (3) *)
  let dimensions := set dimensions "fuzziness.velocity.x"
    (nullish (opt_chain (opt_chain fuzziness FuzzinessErrors.velocity) Vector3D.x) 0%float) in
  let dimensions := set dimensions "fuzziness.velocity.y"
    (nullish (opt_chain (opt_chain fuzziness FuzzinessErrors.velocity) Vector3D.y) 0%float) in
  let dimensions := set dimensions "fuzziness.velocity.z"
    (nullish (opt_chain (opt_chain fuzziness FuzzinessErrors.velocity) Vector3D.z) 0%float) in
  (* Fuzziness acceleration components (3) *)
  let dimensions := set dimensions "fuzziness.acceleration.x"
    (nullish (opt_chain (opt_chain fuzziness FuzzinessErrors.acceleration) Vector3D.x) 0%float) in
  let dimensions := set dimensions "fuzziness.acceleration.y"
    (nullish (opt_chain (opt_chain fuzziness FuzzinessErrors.acceleration) Vector3D.y) 0%float) in
  let dimensions := set dimensions "fuzziness.acceleration.z"
    (nullish (opt_chain (opt_chain fuzziness FuzzinessErrors.acceleration) Vector3D.z) 0%float) in
  dimensions.

(** The call [extractGPSErrorDimensions(g)] where [g] may be
    [undefined]: the first statement reads [g.position] and throws. *)
Definition extractGPSErrorDimensions_any (gpsError : option GPSErrorData.t)
  : result (Dict number) :=
  let* g := deref gpsError in Ok (extractGPSErrorDimensions g).

(** [if (params.k !== undefined) extracted['k'] = params.k;] *)
Definition copy_if_defined (extracted : Dict number) (k : string) (v : option number)
  : Dict number :=
  match v with
  | Some n => set extracted k n
  | None => extracted
  end.

(** [if (params.kXZ !== undefined) { extracted['kX'] = params.kXZ;
    extracted['kZ'] = params.kXZ; }] *)
Definition split_if_defined (extracted : Dict number) (kX kZ : string) (v : option number)
  : Dict number :=
  match v with
  | Some n => set (set extracted kX n) kZ n
  | None => extracted
  end.

(** Extract final parameters, handling both legacy XZ format and
    separate X/Z ([params] an object). *)
Definition extractFinalParameters (params : KalmanParameters) : Dict number :=
  let extracted : Dict number := [] in
  (* R parameters *)
  let extracted := copy_if_defined extracted "rPosX" (rPosX params) in
  let extracted := copy_if_defined extracted "rPosY" (rPosY params) in
  let extracted := copy_if_defined extracted "rPosZ" (rPosZ params) in
  (* Legacy: split XZ into X and Z *)
  let extracted := split_if_defined extracted "rPosX" "rPosZ" (rPosXZ params) in
  let extracted := copy_if_defined extracted "rVelocityX" (rVelocityX params) in
  let extracted := copy_if_defined extracted "rVelocityY" (rVelocityY params) in
  let extracted := copy_if_defined extracted "rVelocityZ" (rVelocityZ params) in
  let extracted := split_if_defined extracted "rVelocityX" "rVelocityZ" (rVelocityXZ params) in
  (* Q parameters *)
  let extracted := copy_if_defined extracted "qPosX" (qPosX params) in
  let extracted := copy_if_defined extracted "qPosY" (qPosY params) in
  let extracted := copy_if_defined extracted "qPosZ" (qPosZ params) in
  let extracted := split_if_defined extracted "qPosX" "qPosZ" (qPosXZ params) in
  let extracted := copy_if_defined extracted "qVelocityX" (qVelocityX params) in
  let extracted := copy_if_defined extracted "qVelocityY" (qVelocityY params) in
  let extracted := copy_if_defined extracted "qVelocityZ" (qVelocityZ params) in
  let extracted := split_if_defined extracted "qVelocityX" "qVelocityZ" (qVelocityXZ params) in
  let extracted := copy_if_defined extracted "qAccelerationX" (qAccelerationX params) in
  let extracted := copy_if_defined extracted "qAccelerationY" (qAccelerationY params) in
  let extracted := copy_if_defined extracted "qAccelerationZ" (qAccelerationZ params) in
  let extracted := split_if_defined extracted "qAccelerationX" "qAccelerationZ"
                     (qAccelerationXZ params) in
  extracted.

(** The call [extractFinalParameters(p)] where [p] may be [undefined]. *)
Definition extractFinalParameters_any (params : option KalmanParameters)
  : result (Dict number) :=
  let* p := deref params in Ok (extractFinalParameters p).

(** The five parameter families of [KalmanParameters] and their fields
    and keys (there is no [rAcceleration] family). *)
Inductive family : Type := rPos | rVelocity | qPos | qVelocity | qAcceleration.

Definition family_name (f : family) : string :=
  match f with
  | rPos => "rPos" | rVelocity => "rVelocity"
  | qPos => "qPos" | qVelocity => "qVelocity" | qAcceleration => "qAcceleration"
  end.

Definition keyX (f : family) : string := family_name f ++ "X".
Definition keyY (f : family) : string := family_name f ++ "Y".
Definition keyZ (f : family) : string := family_name f ++ "Z".

Definition fieldX (f : family) : KalmanParameters -> option number :=
  match f with
  | rPos => rPosX | rVelocity => rVelocityX
  | qPos => qPosX | qVelocity => qVelocityX | qAcceleration => qAccelerationX
  end.
Definition fieldY (f : family) : KalmanParameters -> option number :=
  match f with
  | rPos => rPosY | rVelocity => rVelocityY
  | qPos => qPosY | qVelocity => qVelocityY | qAcceleration => qAccelerationY
  end.
Definition fieldZ (f : family) : KalmanParameters -> option number :=
  match f with
  | rPos => rPosZ | rVelocity => rVelocityZ
  | qPos => qPosZ | qVelocity => qVelocityZ | qAcceleration => qAccelerationZ
  end.
Definition fieldXZ (f : family) : KalmanParameters -> option number :=
  match f with
  | rPos => rPosXZ | rVelocity => rVelocityXZ
  | qPos => qPosXZ | qVelocity => qVelocityXZ | qAcceleration => qAccelerationXZ
  end.

End FileParser.

(* ================================================================== *)
(** * [src/correlation.ts]: class [CorrelationAnalyzer] *)
(* ================================================================== *)

Module CorrelationAnalyzer.
Import JS Types.

(** Calculate Pearson correlation coefficient *)
Definition calculateCorrelation (xValues yValues : list number) : number :=
  if negb (List.length xValues =? List.length yValues)%nat
     || (List.length xValues =? 0)%nat
  then 0%float
  else
    let n := length_number xValues in
    let sumX := reduce (fun a b _ => a + b)%float xValues 0%float in
    let sumY := reduce (fun a b _ => a + b)%float yValues 0%float in
    let sumXY := reduce (fun sum x i => sum + x * Array_get yValues i)%float xValues 0%float in
    let sumX2 := reduce (fun sum x _ => sum + x * x)%float xValues 0%float in
    let sumY2 := reduce (fun sum y _ => sum + y * y)%float yValues 0%float in
    let numerator := (n * sumXY - sumX * sumY)%float in
    let denominator :=
      Math_sqrt ((n * sumX2 - sumX * sumX) * (n * sumY2 - sumY * sumY))%float in
    if (denominator =? 0)%float then 0%float
    else (numerator / denominator)%float.

(** One aggregated run: an element of [allRuns]. *)
Module Run.
Record t : Type := mk {
  gpsErrors : Dict number;
  finalParams : Dict number;
  label : string
}.
End Run.

Definition Matrix : Type := Dict (Dict CorrelationResult).

Section Aggregation.
(** The conversion of a number to text inside a template literal. *)
Variable Number_toString : number -> string.

(** Aggregate all runs from all sweeps: the first [forEach] of
    [buildCorrelationMatrix]. *)
Definition collectRuns (sweepFiles : list LoadedFile.t) : result (list Run.t) :=
  forEach_push (fun file =>
    match LoadedFile.data file with
    | sweep_summary sweep =>
        (* Extract GPS errors from sweep *)
        let* gpsErrors :=
          FileParser.extractGPSErrorDimensions_any (SweepSummary.gpsError sweep) in
        (* Each run in the sweep *)
        forEach_push (fun result =>
          let* finalParams :=
            FileParser.extractFinalParameters_any (SweepResult.finalParams result) in
          Ok [Run.mk gpsErrors finalParams
                (LoadedFile.name file ++ " - Run "
                   ++ Number_toString (SweepResult.runIndex result))])
          (SweepSummary.allResults sweep) []
    | section_sweep sectionSweep =>
        (* Each section has its own GPS error profile and best result *)
        forEach_push (fun section =>
          let* gpsErrors :=
            FileParser.extractGPSErrorDimensions_any
              (SectionSweepResult.gpsErrorProfile section) in
          let* bestResult := deref (SectionSweepResult.bestResult section) in
          let* finalParams :=
            FileParser.extractFinalParameters_any
              (SectionSweepResult.finalParameters bestResult) in
          let* info := deref (SectionSweepResult.section section) in
          Ok [Run.mk gpsErrors finalParams
                (LoadedFile.name file ++ " - " ++ SectionSweepResult.name info)])
          (SectionSweep.sections sectionSweep) []
    | other _ => Ok []
    end) sweepFiles [].
End Aggregation.

(** The test guarding the three [push]es. *)
Definition validPair (xVal yVal : option number) : option (number * number) :=
  match xVal, yVal with
  | Some xv, Some yv =>
      if negb (isNaN xv) && negb (isNaN yv) && isFinite xv && isFinite yv
      then Some (xv, yv)
      else None
  | _, _ => None
  end.

(** The loop [allRuns.forEach(run => ...)] filling [xValues], [yValues]
    and [dataPoints] for one (dimension, parameter) pair. *)
Definition pairValues (allRuns : list Run.t) (errorDim param : string)
  : list number * list number * list DataPoint.t :=
  fold_left (fun '(xValues, yValues, dataPoints) run =>
    let xVal := get (Run.gpsErrors run) errorDim in
    let yVal := get (Run.finalParams run) param in
    match validPair xVal yVal with
    | Some (xv, yv) =>
        (xValues ++ [xv], yValues ++ [yv],
         dataPoints ++ [DataPoint.mk xv yv (Run.label run)])
    | None => (xValues, yValues, dataPoints)
    end) allRuns ([], [], []).

Definition correlationResult (allRuns : list Run.t) (errorDim param : string)
  : CorrelationResult :=
  let '(xValues, yValues, dataPoints) := pairValues allRuns errorDim param in
  let coefficient := calculateCorrelation xValues yValues in
  {| xLabel := errorDim;
     yLabel := param;
     coefficient := coefficient;
     dataPoints := dataPoints |}.

(** The rest of [buildCorrelationMatrix], from the test
    [allRuns.length === 0] on. *)
Definition correlateRuns (allRuns : list Run.t) : Matrix :=
  let matrix : Matrix := [] in
  match allRuns with
  | [] => matrix
  | first :: _ =>
      (* Get all GPS error dimension names *)
      let gpsErrorDimensions := keys (Run.gpsErrors first) in
      (* Get all parameter names *)
      let parameterNames := keys (Run.finalParams first) in
      (* Calculate correlations between each GPS error dimension and each parameter *)
      fold_left (fun matrix errorDim =>
        let errorMap :=
          fold_left (fun errorMap param =>
            set errorMap param (correlationResult allRuns errorDim param))
            parameterNames [] in
        set matrix errorDim errorMap) gpsErrorDimensions matrix
  end.

(** Build correlation matrix for all sweep results *)
Definition buildCorrelationMatrix (Number_toString : number -> string)
    (sweepFiles : list LoadedFile.t) : result Matrix :=
  let* allRuns := collectRuns Number_toString sweepFiles in
  Ok (correlateRuns allRuns).

(** The results of a matrix in the order the nested [forEach] meets them. *)
Definition storedResults (matrix : Matrix) : list CorrelationResult :=
  flat_map (fun entry => values (snd entry)) matrix.

Definition strongEnough (threshold : number) (result : CorrelationResult) : bool :=
  (threshold <=? Math_abs (coefficient result))%float.

Definition byStrength (a b : CorrelationResult) : number :=
  (Math_abs (coefficient b) - Math_abs (coefficient a))%float.

(** Find strongest correlations ([threshold] omitted: [None]) *)
Definition findStrongestCorrelations (matrix : Matrix) (threshold : option number)
  : list CorrelationResult :=
  let threshold := nullish threshold 0.5%float in
  let strong :=
    fold_left (fun strong entry =>
      fold_left (fun strong inner =>
        let result := snd inner in
        if strongEnough threshold result then strong ++ [result] else strong)
        (snd entry) strong) matrix [] in
  (* Sort by absolute correlation strength *)
  sort byStrength strong.

Record Regression : Type := {
  slope : number;
  intercept : number;
  regression_rSquared : number
}.

(** Perform linear regression *)
Definition linearRegression (xValues yValues : list number) : Regression :=
  if negb (List.length xValues =? List.length yValues)%nat
     || (List.length xValues <? 2)%nat
  then {| slope := 0%float; intercept := 0%float; regression_rSquared := 0%float |}
  else
    let n := length_number xValues in
    let sumX := reduce (fun a b _ => a + b)%float xValues 0%float in
    let sumY := reduce (fun a b _ => a + b)%float yValues 0%float in
    let sumXY := reduce (fun sum x i => sum + x * Array_get yValues i)%float xValues 0%float in
    let sumX2 := reduce (fun sum x _ => sum + x * x)%float xValues 0%float in
    let slope := ((n * sumXY - sumX * sumY) / (n * sumX2 - sumX * sumX))%float in
    let intercept := ((sumY - slope * sumX) / n)%float in
    (* Calculate R^2 *)
    let yMean := (sumY / n)%float in
    let ssTotal := reduce (fun sum y _ => sum + Math_pow_2 (y - yMean))%float yValues 0%float in
    let ssResidual :=
      reduce (fun sum y i =>
                let predicted := (slope * Array_get xValues i + intercept)%float in
                sum + Math_pow_2 (y - predicted))%float yValues 0%float in
    let rSquared := (1 - ssResidual / ssTotal)%float in
    {| slope := slope; intercept := intercept; regression_rSquared := rSquared |}.

(** Build prediction model for a correlation *)
Definition buildPredictionModel (correlation : CorrelationResult) : PredictionModel :=
  let xValues := map DataPoint.x (dataPoints correlation) in
  let yValues := map DataPoint.y (dataPoints correlation) in
  let regression := linearRegression xValues yValues in
  {| inputDimension := xLabel correlation;
     outputParameter := yLabel correlation;
     modelType := linear;
     coefficients := Some [intercept regression; slope regression];
     rSquared := regression_rSquared regression |}.

(** The body of [models.forEach(model => ...)] in [predictParameters]. *)
Definition predictStep (gpsErrorDims : Dict number) (predictions : Dict number)
    (model : PredictionModel) : Dict number :=
  match read gpsErrorDims (inputDimension model), coefficients model with
  | Some inputValue, Some cs =>
      if (2 <=? List.length cs)%nat then
        (* Linear model: y = a + bx *)
        let predicted := (Array_get cs 0 + Array_get cs 1 * inputValue)%float in
        (* Only use predictions from strong models *)
        if (0.3 <? rSquared model)%float
        then assign predictions (outputParameter model) predicted
        else predictions
      else predictions
  | _, _ => predictions
  end.

(** Predict parameters from GPS error *)
Definition predictParameters (gpsError : GPSErrorFile) (models : list PredictionModel)
  : Dict number :=
  let predictions : Dict number := [] in
  let gpsErrorDims := FileParser.extractGPSErrorDimensions (Types.gpsError gpsError) in
  fold_left (predictStep gpsErrorDims) models predictions.

End CorrelationAnalyzer.

(* ================================================================== *)
(** * Vocabulary of the statements *)
(* ================================================================== *)

Module Spec.
Import JS Types CorrelationAnalyzer.

(** [input dims d v]: the input vector [dims] has the value [v] for the
    dimension [d], or [d] is no dimension of it but the name of a member
    of [Object.prototype], which is no number: then [v] is NaN. *)
Definition input (dims : Dict number) (d : string) (v : number) : Prop :=
  get dims d = Some v
  \/ (get dims d = None /\ inherited d = true /\ v = PrimFloat.nan).

(** [usable dims m w]: model [m] passes the three tests of
    [predictParameters] against the extracted input vector [dims], and
    [w] is the value it predicts. *)
Definition usable (dims : Dict number) (m : PredictionModel) (w : number) : Prop :=
  exists inputValue cs,
    input dims (inputDimension m) inputValue /\
    coefficients m = Some cs /\
    2 <= List.length cs /\
    (0.3 <? rSquared m)%float = true /\
    w = (Array_get cs 0 + Array_get cs 1 * inputValue)%float.

(** The magnitude by which correlations are ranked. *)
Definition strength (r : CorrelationResult) : number := Math_abs (coefficient r).

(** [a] stands before [b] in a descending ranking. *)
Definition descending (a b : CorrelationResult) : Prop :=
  (strength b <=? strength a)%float = true.

(** A result whose magnitude is a number (not NaN). *)
Definition ranked (r : CorrelationResult) : Prop :=
  PrimFloat.is_nan (strength r) = false.

(** The results of magnitude [s]. *)
Definition ofStrength (s : number) (r : CorrelationResult) : bool :=
  (strength r =? s)%float.

(** The absolute coefficient of [r] is at least the threshold, 0.5 when
    the threshold is omitted. *)
Definition selected (threshold : option number) (r : CorrelationResult) : bool :=
  match threshold with
  | Some t => (t <=? strength r)%float
  | None => (0.5 <=? strength r)%float
  end.

(** The data point a run contributes to the pair (dimension, parameter),
    if both of its values exist and are finite. *)
Definition pointOf (errorDim param : string) (run : Run.t) : option DataPoint.t :=
  match get (Run.gpsErrors run) errorDim, get (Run.finalParams run) param with
  | Some xv, Some yv =>
      if isFinite xv && isFinite yv
      then Some (DataPoint.mk xv yv (Run.label run))
      else None
  | _, _ => None
  end.

Fixpoint filter_map {A B} (f : A -> option B) (l : list A) : list B :=
  match l with
  | [] => []
  | a :: rest =>
      match f a with
      | Some b => b :: filter_map f rest
      | None => filter_map f rest
      end
  end.

(** ** The formulas of the statistics primitives

    Sums run from left to right, starting from 0, and every operation is
    the binary64 one. *)
Fixpoint sum_from (acc : number) (l : list number) : number :=
  match l with
  | [] => acc
  | v :: rest => sum_from (acc + v)%float rest
  end.

Definition sumOf (l : list number) : number := sum_from 0%float l.

(** The products x_i * y_i and the squares x_i * x_i. *)
Definition products (xs ys : list number) : list number :=
  map (fun '(x, y) => (x * y)%float) (combine xs ys).

Definition squares (xs : list number) : list number :=
  map (fun x => (x * x)%float) xs.

(** [n * sum x^2 - (sum x)^2], for [n] points. *)
Definition varianceTerm (n : number) (xs : list number) : number :=
  (n * sumOf (squares xs) - sumOf xs * sumOf xs)%float.

(** Pearson's r by the sum-of-products formula:
    [(n sum xy - sum x sum y) / sqrt ((n sum x^2 - (sum x)^2) (n sum y^2 - (sum y)^2))]. *)
Definition pearsonNumerator (xs ys : list number) : number :=
  let n := length_number xs in
  (n * sumOf (products xs ys) - sumOf xs * sumOf ys)%float.

Definition pearsonDenominator (xs ys : list number) : number :=
  let n := length_number xs in
  Math_sqrt (varianceTerm n xs * varianceTerm n ys)%float.

(** A number that is a zero, of either sign. *)
Definition isZero (v : number) : Prop := (v =? 0)%float = true.

(** Ordinary least squares:
    [slope = (n sum xy - sum x sum y) / (n sum x^2 - (sum x)^2)],
    [intercept = (sum y - slope sum x) / n],
    [rSquared = 1 - SSresidual / SStotal], where SStotal is taken around
    the mean of y and SSresidual around the fitted line. *)
Definition slopeDivisor (xs : list number) : number :=
  varianceTerm (length_number xs) xs.

Definition leastSquaresSlope (xs ys : list number) : number :=
  (pearsonNumerator xs ys / slopeDivisor xs)%float.

Definition leastSquaresIntercept (xs ys : list number) : number :=
  ((sumOf ys - leastSquaresSlope xs ys * sumOf xs) / length_number xs)%float.

Definition totalSumOfSquares (ys : list number) : number :=
  let mean := (sumOf ys / length_number ys)%float in
  sumOf (map (fun y => ((y - mean) * (y - mean))%float) ys).

Definition residualSumOfSquares (xs ys : list number) (b a : number) : number :=
  sumOf (map (fun '(x, y) => ((y - (b * x + a)) * (y - (b * x + a)))%float)
           (combine xs ys)).

Definition leastSquares (xs ys : list number) : Regression :=
  {| slope := leastSquaresSlope xs ys;
     intercept := leastSquaresIntercept xs ys;
     regression_rSquared :=
       (1 - residualSumOfSquares xs ys (leastSquaresSlope xs ys)
                                       (leastSquaresIntercept xs ys)
            / totalSumOfSquares ys)%float |}.

(** [matrix.get(errorDim)?.get(param)], as the callers read a matrix. *)
Definition matrix_get (matrix : Matrix) (errorDim param : string) : option CorrelationResult :=
  opt_chain (get matrix errorDim) (fun errorMap => get errorMap param).


(** A file that contributes no run: any file the aggregation ignores, a
    sweep summary without results, a section sweep without sections. *)
Definition file_without_runs (f : LoadedFile.t) : Prop :=
  match LoadedFile.data f with
  | sweep_summary sweep =>
      SweepSummary.gpsError sweep <> None /\ SweepSummary.allResults sweep = []
  | section_sweep sectionSweep => SectionSweep.sections sectionSweep = []
  | other _ => True
  end.

(** A file whose fields are all present, as its interface declares. *)
Definition sweepResult_typed (r : SweepResult.t) : Prop :=
  SweepResult.finalParams r <> None.

Definition section_typed (s : SectionSweepResult.t) : Prop :=
  SectionSweepResult.section s <> None /\
  SectionSweepResult.gpsErrorProfile s <> None /\
  exists b, SectionSweepResult.bestResult s = Some b /\
            SectionSweepResult.finalParameters b <> None.

Definition file_typed (f : LoadedFile.t) : Prop :=
  match LoadedFile.data f with
  | sweep_summary sweep =>
      SweepSummary.gpsError sweep <> None /\
      Forall sweepResult_typed (SweepSummary.allResults sweep)
  | section_sweep sectionSweep =>
      Forall section_typed (SectionSweep.sections sectionSweep)
  | other _ => True
  end.

End Spec.

(* ================================================================== *)
(** * Concrete inputs *)
(* ================================================================== *)

Module Examples.
Import JS Types CorrelationAnalyzer.

(** A source with both [rPosX: 0.1] and the legacy [rPosXZ: 0.05]. *)
Definition both_rPos : KalmanParameters :=
  {| rPosX := Some 0.1%float; rPosY := None; rPosZ := None;
     rPosXZ := Some 0.05%float;
     rVelocityX := None; rVelocityY := None; rVelocityZ := None; rVelocityXZ := None;
     qPosX := None; qPosY := None; qPosZ := None; qPosXZ := None;
     qVelocityX := None; qVelocityY := None; qVelocityZ := None; qVelocityXZ := None;
     qAccelerationX := None; qAccelerationY := None; qAccelerationZ := None;
     qAccelerationXZ := None |}.

(** A GPS error file without any value: every dimension defaults to 0. *)
Definition blank_gpsError : GPSErrorFile :=
  {| Types.gpsError := GPSErrorData.mk None None None None |}.

Definition gpsError_x3 : GPSErrorFile :=
  {| Types.gpsError :=
       GPSErrorData.mk (Some (Vector3D.mk (Some 3%float) None None)) None None None |}.

Definition model_2x : PredictionModel :=
  {| inputDimension := "position.x"; outputParameter := "rPosX";
     modelType := linear; coefficients := Some [0%float; 2%float];
     rSquared := 1%float |}.

(** A strong linear model whose input dimension is no dimension of the
    input vector but the name of a member of [Object.prototype]. *)
Definition model_constructor : PredictionModel :=
  {| inputDimension := "constructor"; outputParameter := "rPosX";
     modelType := linear; coefficients := Some [0%float; 2%float];
     rSquared := 0.9%float |}.

(** A strong linear model on a dimension of the input vector whose output
    parameter is named [__proto__]. *)
Definition model_proto : PredictionModel :=
  {| inputDimension := "position.x"; outputParameter := "__proto__";
     modelType := linear; coefficients := Some [0%float; 2%float];
     rSquared := 0.9%float |}.

Definition model_one_coefficient : PredictionModel :=
  {| inputDimension := "position.x"; outputParameter := "rPosX";
     modelType := linear; coefficients := Some [1%float];
     rSquared := 0.9%float |}.

(** The parameters of a best result: only [rPosX]. *)
Definition only_rPosX (v : number) : KalmanParameters :=
  {| rPosX := Some v; rPosY := None; rPosZ := None; rPosXZ := None;
     rVelocityX := None; rVelocityY := None; rVelocityZ := None; rVelocityXZ := None;
     qPosX := None; qPosY := None; qPosZ := None; qPosXZ := None;
     qVelocityX := None; qVelocityY := None; qVelocityZ := None; qVelocityXZ := None;
     qAccelerationX := None; qAccelerationY := None; qAccelerationZ := None;
     qAccelerationXZ := None |}.

Definition section_of (name : string) (positionX rPosX : number) : SectionSweepResult.t :=
  SectionSweepResult.mk
    (Some (SectionSweepResult.mk_section name))
    (Some (GPSErrorData.mk (Some (Vector3D.mk (Some positionX) None None)) None None None))
    (Some (SectionSweepResult.mk_bestResult (Some (only_rPosX rPosX)))).

(** A section sweep of two sections: position.x 0.1 and 0.3, with best
    rPosX 1.1 and 1.3. *)
Definition two_sections : LoadedFile.t :=
  LoadedFile.mk "sections.json"
    (section_sweep (SectionSweep.mk
       [section_of "a" 0.1%float 1.1%float; section_of "b" 0.3%float 1.3%float])).

Definition two_runs : list Run.t :=
  [ Run.mk (FileParser.extractGPSErrorDimensions
              (GPSErrorData.mk (Some (Vector3D.mk (Some 0.1%float) None None)) None None None))
           (FileParser.extractFinalParameters (only_rPosX 1.1%float))
           "sections.json - a";
    Run.mk (FileParser.extractGPSErrorDimensions
              (GPSErrorData.mk (Some (Vector3D.mk (Some 0.3%float) None None)) None None None))
           (FileParser.extractFinalParameters (only_rPosX 1.3%float))
           "sections.json - b" ].

(** A sweep summary that passes [FileParser.isSweepSummary] ([sweepName],
    [allResults], [bestResult]) but has no [gpsError]. *)
Definition summary_without_gpsError : LoadedFile.t :=
  LoadedFile.mk "sweep.json" (sweep_summary (SweepSummary.mk None [])).

Definition csv_file : LoadedFile.t := LoadedFile.mk "track.csv" (other csv).

Definition no_text (v : number) : string := "".

Definition result_of (xLabel yLabel : string) (c : number) : CorrelationResult :=
  {| xLabel := xLabel; yLabel := yLabel; coefficient := c; dataPoints := [] |}.

(** A matrix with two results of magnitude 0.9, one of 0.5 and one of 0.2. *)
Definition small_matrix : Matrix :=
  [ ("position.x", [ ("rPosX", result_of "position.x" "rPosX" 0.5%float);
                     ("rPosY", result_of "position.x" "rPosY" (-0.9)%float) ]);
    ("position.y", [ ("rPosX", result_of "position.y" "rPosX" 0.9%float);
                     ("rPosY", result_of "position.y" "rPosY" 0.2%float) ]) ].

(** Two sections on the line rPosX = 2 * position.x. *)
Definition doubling_sections : LoadedFile.t :=
  LoadedFile.mk "line.json"
    (section_sweep (SectionSweep.mk
       [section_of "a" 1%float 2%float; section_of "b" 2%float 4%float])).

End Examples.

(* ================================================================== *)
(** * [src/correlation.ts]: the remaining methods of [CorrelationAnalyzer] *)
(* ================================================================== *)

Module Analyzer.
Import JS Types CorrelationAnalyzer.

(** ECMAScript's [ToIntegerOrInfinity], applied to a number: NaN and the
    zeros give 0, the infinities themselves, any other number is
    truncated towards zero. *)
Inductive IntegerOrInfinity : Type :=
| NegInfinity
| Integer (z : Z)
| PosInfinity.

Definition ToIntegerOrInfinity (v : number) : IntegerOrInfinity :=
  match Prim2SF v with
  | S754_nan => Integer 0
  | S754_zero _ => Integer 0
  | S754_infinity false => PosInfinity
  | S754_infinity true => NegInfinity
  | S754_finite s m e =>
      let magnitude :=
        if (0 <=? e)%Z then (Zpos m * 2 ^ e)%Z else (Zpos m / 2 ^ (- e))%Z in
      Integer (if s then (- magnitude)%Z else magnitude)
  end.

(** [a.slice(0, end)]: a negative [end] counts from the end of the array,
    and the result stops at the end of the array. *)
Definition slice_0 {A} (a : list A) (final : number) : list A :=
  let len := Z.of_nat (List.length a) in
  let final :=
    match ToIntegerOrInfinity final with
    | NegInfinity => 0%Z
    | Integer z => if (z <? 0)%Z then Z.max (len + z) 0 else Z.min z len
    | PosInfinity => len
    end in
  firstn (Z.to_nat final) a.

(** Get top N prediction models ([topN] omitted: [None]) *)
Definition getTopPredictionModels (matrix : Matrix) (topN : option number)
  : list PredictionModel :=
  let topN := nullish topN 10%float in
  let allCorrelations :=
    fold_left (fun allCorrelations entry =>
      fold_left (fun allCorrelations inner => allCorrelations ++ [snd inner])
        (snd entry) allCorrelations) matrix [] in
  (* Sort by absolute correlation and take top N *)
  let topCorrelations := slice_0 (sort byStrength allCorrelations) topN in
  (* Build models for top correlations *)
  map buildPredictionModel topCorrelations.

Section Summary.
(** [Number.prototype.toFixed]. *)
Variable Number_toFixed : number -> nat -> string.

(** The array [lines] of [exportCorrelationSummary] before it is joined. *)
Definition exportLines (matrix : Matrix) : list string :=
  let lines := ["GPS Error Dimension,Parameter,Correlation Coefficient"] in
  fold_left (fun lines (entry : string * Dict CorrelationResult) =>
    let errorDim := fst entry in
    fold_left (fun lines (inner : string * CorrelationResult) =>
      let param := fst inner in
      let result := snd inner in
      lines ++ [(errorDim ++ "," ++ param ++ ","
                   ++ Number_toFixed (coefficient result) 4)%string])
      (snd entry) lines) matrix lines.

(** Export correlation summary as text *)
Definition exportCorrelationSummary (matrix : Matrix) : string :=
  String.concat (String (Ascii.ascii_of_nat 10) "") (exportLines matrix).
End Summary.

End Analyzer.

(* ================================================================== *)
(** * [src/parser.ts]: selecting files by type *)
(* ================================================================== *)

Module Selectors.
Import JS Types.

(** [file.type], the tag of a loaded file. *)
Definition type_of (file : LoadedFile.t) : string :=
  match LoadedFile.data file with
  | sweep_summary _ => "sweep-summary"
  | section_sweep _ => "section-sweep"
  | other optimizer => "optimizer"
  | other params => "params"
  | other csv => "csv"
  | other gps_error => "gps-error"
  | other run_metadata => "run-metadata"
  end.

(** Get all GPS error files *)
Definition getGPSErrorFiles (files : list LoadedFile.t) : list LoadedFile.t :=
  filter (fun f => String.eqb (type_of f) "gps-error") files.

(** Get all sweep summary files (including section-sweep) *)
Definition getSweepSummaries (files : list LoadedFile.t) : list LoadedFile.t :=
  filter (fun f => String.eqb (type_of f) "sweep-summary"
                   || String.eqb (type_of f) "section-sweep") files.

(** Get all run metadata files *)
Definition getRunMetadata (files : list LoadedFile.t) : list LoadedFile.t :=
  filter (fun f => String.eqb (type_of f) "run-metadata") files.

End Selectors.

(* ================================================================== *)
(** * [src/parser.ts]: detecting the type of a JSON file *)
(* ================================================================== *)

From Stdlib Require OrderedTypeEx.

Set Warnings "-register-all".

Module Detect.
Import JS.

(** A value as [JSON.parse] returns it.  The members of an object are its
    own properties. *)
Inductive json : Type :=
| JNull
| JBool (b : bool)
| JNumber (n : number)
| JString (s : string)
| JArray (items : list json)
| JObject (members : Dict json).

(** The decimal digits of an array index: no sign, no leading zero. *)
Fixpoint digits_value (s : string) (acc : nat) : option nat :=
  match s with
  | EmptyString => Some acc
  | String c rest =>
      let n := Ascii.nat_of_ascii c in
      if (48 <=? n)%nat && (n <=? 57)%nat
      then digits_value rest (10 * acc + (n - 48))
      else None
  end.

Definition index_below (key : string) (len : nat) : bool :=
  match key with
  | EmptyString => false
  | String c rest =>
      if (Ascii.nat_of_ascii c =? 48)%nat && negb (String.eqb rest "")
      then false
      else match digits_value key 0 with
           | Some i => (i <? len)%nat
           | None => false
           end
  end.

(** The call [v.hasOwnProperty(key)].  It throws on [null]; on an object
    that has a member named [hasOwnProperty] the call reaches that member,
    which is no function, and throws as well.  Arrays and strings own their
    indices and [length]; numbers and booleans own nothing. *)
Definition hasOwnProperty (v : json) (key : string) : result bool :=
  match v with
  | JNull => Throw TypeError
  | JObject members =>
      match get members "hasOwnProperty" with
      | Some _ => Throw TypeError
      | None => Ok (existsb (String.eqb key) (keys members))
      end
  | JArray items => Ok (String.eqb key "length" || index_below key (List.length items))
  | JString s => Ok (String.eqb key "length" || index_below key (String.length s))
  | JNumber _ | JBool _ => Ok false
  end.

(** The read [v.name] of a member the parser has just found with
    [hasOwnProperty] ([sections], [gpsError], [finalParams], [params]). *)
Definition member (v : json) (name : string) : option json :=
  match v with
  | JObject members => get members name
  | _ => None
  end.

(** [a && b] where both sides may throw: [b] is evaluated only when [a] is
    true. *)
Definition and_then (a : result bool) (b : result bool) : result bool :=
  match a with
  | Ok true => b
  | Ok false => Ok false
  | Throw e => Throw e
  end.

Definition not_ (a : result bool) : result bool :=
  let* b := a in Ok (negb b).

(** [typeof v === 'object'] for a member that may be absent. *)
Definition typeof_object (v : option json) : bool :=
  match v with
  | Some JNull | Some (JArray _) | Some (JObject _) => true
  | _ => false
  end.

Definition isSectionSweep (json : json) : result bool :=
  and_then (hasOwnProperty json "summary")
  (and_then (hasOwnProperty json "sections")
  (match member json "sections" with
   | Some (JArray sections) =>          (* Array.isArray(json.sections) *)
       match sections with
       | first :: _ =>                  (* json.sections.length > 0 *)
           and_then (hasOwnProperty first "gpsErrorProfile")
                    (hasOwnProperty first "bestResult")
       | [] => Ok false
       end
   | _ => Ok false
   end)).

Definition isGPSError (json : json) : result bool :=
  and_then (hasOwnProperty json "gpsError")
  (match member json "gpsError" with
   | Some gpsError =>
       and_then (hasOwnProperty gpsError "position")
       (and_then (hasOwnProperty gpsError "velocity")
       (and_then (hasOwnProperty gpsError "acceleration")
       (* Distinguish from sweep summary *)
       (not_ (hasOwnProperty json "allResults"))))
   | None => Ok false
   end).

Definition isSweepSummary (json : json) : result bool :=
  and_then (hasOwnProperty json "sweepName")
  (and_then (hasOwnProperty json "allResults")
            (hasOwnProperty json "bestResult")).

Definition isRunMetadata (json : json) : result bool :=
  and_then (hasOwnProperty json "scoreBreakdown")
  (and_then (hasOwnProperty json "stageCount")
            (hasOwnProperty json "finalParams")).

Definition isOptimizerMetadata (json : json) : result bool :=
  and_then (hasOwnProperty json "finalParams")
  (and_then (Ok (typeof_object (member json "finalParams")))
            (not_ (hasOwnProperty json "scoreBreakdown"))).

Definition isParameterExport (json : json) : result bool :=
  and_then (hasOwnProperty json "params")
           (Ok (typeof_object (member json "params"))).

(** What [parseJSON] does with the parsed value: the [type] it gives the
    loaded file, or the exception it throws. *)
Inductive failure : Type :=
| type_error       (* a [TypeError] out of one of the tests *)
| unknown_format.  (* [new Error(`Unknown JSON format in ${fileName}`)] *)

Inductive detection : Type :=
| Type_ (type : string)
| Raises (e : failure).

(** [if (test) { return type } else rest] *)
Definition if_detected (test : result bool) (type : string) (rest : detection)
  : detection :=
  match test with
  | Ok true => Type_ type
  | Ok false => rest
  | Throw _ => Raises type_error
  end.

(** Auto-detect JSON type *)
Definition detectType (json : json) : detection :=
  if_detected (isSectionSweep json) "section-sweep"
  (if_detected (isGPSError json) "gps-error"
  (if_detected (isSweepSummary json) "sweep-summary"
  (if_detected (isRunMetadata json) "run-metadata"
  (if_detected (isOptimizerMetadata json) "optimizer"
  (if_detected (isParameterExport json) "params"
  (Raises unknown_format)))))).

(** [fileName.split('.').pop()]: the text after the last dot, the whole
    name when it has none. *)
Fixpoint last_segment (fileName : string) (segment : string) : string :=
  match fileName with
  | EmptyString => segment
  | String c rest =>
      if (Ascii.nat_of_ascii c =? 46)%nat   (* the dot *)
      then last_segment rest ""
      else last_segment rest (segment ++ String c "")
  end.

(** [toLowerCase] on the letters A-Z; other characters are kept (none of
    them becomes a letter of "json" or "csv"). *)
Definition lower (c : Ascii.ascii) : Ascii.ascii :=
  let n := Ascii.nat_of_ascii c in
  if (65 <=? n)%nat && (n <=? 90)%nat then Ascii.ascii_of_nat (n + 32) else c.

Fixpoint toLowerCase (s : string) : string :=
  match s with
  | EmptyString => EmptyString
  | String c rest => String (lower c) (toLowerCase rest)
  end.

(** The branch [parseFile] takes. *)
Inductive route : Type :=
| to_parseJSON
| to_parseCSV
| unsupported (fileExt : string).  (* [new Error(`Unsupported file type: ...`)] *)

Definition parseFile_route (fileName : string) : route :=
  let fileExt := toLowerCase (last_segment fileName "") in
  if String.eqb fileExt "json" then to_parseJSON
  else if String.eqb fileExt "csv" then to_parseCSV
  else unsupported fileExt.

End Detect.

(* ================================================================== *)
(** * [src/parser.ts]: what the plot controls read from the files *)
(* ================================================================== *)

Module Plot.
Import JS.

(** The data of the three kinds of file these functions read. *)
Module OptimizerMetadata.
Record t : Type := mk {
  timestamp : option string;
  finalParams : Dict number;
  bestScore : option number;
  iteration : option number
}.
End OptimizerMetadata.

Module ParameterExport.
Record t : Type := mk {
  params : Dict number;
  timestamp : option string
}.
End ParameterExport.

Inductive cell : Type :=
| CNumber (n : number)
| CString (s : string).

Module CSVData.
Record t : Type := mk {
  headers : list string;
  rows : list (Dict cell)
}.
End CSVData.

(** A loaded file as these functions see it: its [type] with the [data]
    of that type; the data of the other kinds is not read. *)
Inductive FileData : Type :=
| optimizer (data : OptimizerMetadata.t)
| params (data : ParameterExport.t)
| csv (data : CSVData.t)
| other_type.

Module File.
Record t : Type := mk {
  name : string;
  data : FileData
}.
End File.

(** [Set<string>]: [add] keeps the first insertion; [Array.from] lists
    the members in insertion order. *)
Definition Set_add (set : list string) (value : string) : list string :=
  if existsb (String.eqb value) set then set else set ++ [value].

(** The truth value of an optional string: [undefined] and [''] are
    falsy. *)
Definition truthy (s : option string) : bool :=
  match s with
  | Some text => negb (String.eqb text "")
  | None => false
  end.

(** The comparison of [sort()] without comparator, on strings: by code
    units, here the characters of the string. *)
Definition defaultCompare (a b : string) : number :=
  match String.compare a b with
  | Lt => (-1)%float
  | Eq => 0%float
  | Gt => 1%float
  end.

Definition extractParameters (files : list File.t) : list string :=
  let paramSet :=
    fold_left (fun paramSet file =>
      match File.data file with
      | optimizer data =>
          let paramSet :=
            fold_left Set_add (keys (OptimizerMetadata.finalParams data)) paramSet in
          (* Also add metadata fields as possible axes *)
          let paramSet :=
            if truthy (OptimizerMetadata.timestamp data)
            then Set_add paramSet "timestamp" else paramSet in
          let paramSet :=
            match OptimizerMetadata.bestScore data with
            | Some _ => Set_add paramSet "bestScore"
            | None => paramSet
            end in
          match OptimizerMetadata.iteration data with
          | Some _ => Set_add paramSet "iteration"
          | None => paramSet
          end
      | params data =>
          let paramSet :=
            fold_left Set_add (keys (ParameterExport.params data)) paramSet in
          if truthy (ParameterExport.timestamp data)
          then Set_add paramSet "timestamp" else paramSet
      | _ => paramSet
      end) files [] in
  sort defaultCompare paramSet.

Definition extractCSVColumns (files : list File.t) : list string :=
  let columnSet :=
    fold_left (fun columnSet file =>
      match File.data file with
      | csv data => fold_left Set_add (CSVData.headers data) columnSet
      | _ => columnSet
      end) files [] in
  sort defaultCompare columnSet.

Definition extractDataTypes (files : list File.t) : list string :=
  let dataTypeSet :=
    fold_left (fun dataTypeSet file =>
      match File.data file with
      | csv data =>
          (* Check if data_type column exists *)
          if existsb (String.eqb "data_type") (CSVData.headers data)
          then
            fold_left (fun dataTypeSet row =>
              match get row "data_type" with
              | Some (CString dataType) =>
                  if negb (String.eqb dataType "")
                  then Set_add dataTypeSet dataType
                  else dataTypeSet
              | _ => dataTypeSet
              end) (CSVData.rows data) dataTypeSet
          else dataTypeSet
      | _ => dataTypeSet
      end) files [] in
  sort defaultCompare dataTypeSet.

(** What [getValue] returns: [number | string | null] by its type, and an
    inherited member when the key names one. *)
Inductive value : Type :=
| VNumber (n : number)
| VString (s : string)
| VNull
| VInherited (key : string).

(** [record[key] ?? null] *)
Definition or_null (record : Dict number) (key : string) : value :=
  match get record key with
  | Some n => VNumber n
  | None => if inherited key then VInherited key else VNull
  end.

(** [v ?? null] for an optional field *)
Definition field_or_null (v : option number) : value :=
  match v with
  | Some n => VNumber n
  | None => VNull
  end.

(** [s || ''] *)
Definition or_empty (s : option string) : value :=
  match s with
  | Some text => VString text
  | None => VString ""
  end.

Definition getValue (file : File.t) (key : string) : value :=
  match File.data file with
  | optimizer data =>
      if String.eqb key "timestamp" then or_empty (OptimizerMetadata.timestamp data)
      else if String.eqb key "bestScore"
      then field_or_null (OptimizerMetadata.bestScore data)
      else if String.eqb key "iteration"
      then field_or_null (OptimizerMetadata.iteration data)
      else or_null (OptimizerMetadata.finalParams data) key
  | params data =>
      if String.eqb key "timestamp" then or_empty (ParameterExport.timestamp data)
      else or_null (ParameterExport.params data) key
  | _ => VNull
  end.

End Plot.

(* ================================================================== *)
(** * [src/main.ts]: what the application computes around the core *)
(* ================================================================== *)

Module App.
Import JS Types CorrelationAnalyzer.

(** Count total runs/sections: the loop of [updateControls] that fills
    [runCount]. *)
Definition totalRuns (sweepFiles : list LoadedFile.t) : nat :=
  fold_left (fun totalRuns file =>
    match LoadedFile.data file with
    | sweep_summary sweep => totalRuns + List.length (SweepSummary.allResults sweep)
    | section_sweep sectionSweep =>
        totalRuns + List.length (SectionSweep.sections sectionSweep)
    | other _ => totalRuns
    end) sweepFiles 0.

(** [models.find(m => m.outputParameter === param)]: the model
    [displayPredictions] shows beside a predicted parameter. *)
Definition displayedModel (models : list PredictionModel) (param : string)
  : option PredictionModel :=
  find (fun m => String.eqb (outputParameter m) param) models.

End App.

(* ================================================================== *)
(** * Vocabulary of the further statements *)
(* ================================================================== *)

Module Spec2.
Import JS Types CorrelationAnalyzer Spec.

(** The 18 dimensions of the input vector, in the order they are set. *)
Definition dimensionNames : list string :=
  [ "position.x"; "position.y"; "position.z";
    "velocity.x"; "velocity.y"; "velocity.z";
    "acceleration.x"; "acceleration.y"; "acceleration.z";
    "fuzziness.position.x"; "fuzziness.position.y"; "fuzziness.position.z";
    "fuzziness.velocity.x"; "fuzziness.velocity.y"; "fuzziness.velocity.z";
    "fuzziness.acceleration.x"; "fuzziness.acceleration.y"; "fuzziness.acceleration.z" ].

(** The 15 per-axis parameter names. *)
Definition parameterNames : list string :=
  [ "rPosX"; "rPosY"; "rPosZ"; "rVelocityX"; "rVelocityY"; "rVelocityZ";
    "qPosX"; "qPosY"; "qPosZ"; "qVelocityX"; "qVelocityY"; "qVelocityZ";
    "qAccelerationX"; "qAccelerationY"; "qAccelerationZ" ].

(** A run as the aggregation builds it: both vectors come out of the two
    extraction functions. *)
Definition extracted_run (run : Run.t) : Prop :=
  exists gpsError params,
    Run.gpsErrors run = FileParser.extractGPSErrorDimensions gpsError /\
    Run.finalParams run = FileParser.extractFinalParameters params.

(** The number of runs or sections of one file. *)
Definition runsOf (file : LoadedFile.t) : nat :=
  match LoadedFile.data file with
  | sweep_summary sweep => List.length (SweepSummary.allResults sweep)
  | section_sweep sectionSweep => List.length (SectionSweep.sections sectionSweep)
  | other _ => 0
  end.

(** Strictly increasing in the order of [String.compare]. *)
Definition increasing (l : list string) : Prop :=
  StronglySorted (fun a b => String.compare a b = Lt) l.

(** A value to plot: a number or a non-empty string. *)
Definition plottable (v : Plot.value) : bool :=
  match v with
  | Plot.VNumber _ => true
  | Plot.VString s => negb (String.eqb s "")
  | Plot.VNull => false
  | Plot.VInherited _ => false
  end.

(** The keys one file offers as plot axes. *)
Definition offers (file : Plot.File.t) (k : string) : Prop :=
  match Plot.File.data file with
  | Plot.optimizer data =>
      In k (keys (Plot.OptimizerMetadata.finalParams data))
      \/ (k = "timestamp" /\ Plot.truthy (Plot.OptimizerMetadata.timestamp data) = true)
      \/ (k = "bestScore" /\ Plot.OptimizerMetadata.bestScore data <> None)
      \/ (k = "iteration" /\ Plot.OptimizerMetadata.iteration data <> None)
  | Plot.params data =>
      In k (keys (Plot.ParameterExport.params data))
      \/ (k = "timestamp" /\ Plot.truthy (Plot.ParameterExport.timestamp data) = true)
  | _ => False
  end.

(** A property name that is neither [length] nor an array index: the
    only own properties of arrays and strings are those. *)
Definition plain (key : string) : bool :=
  negb (String.eqb key "length")
  && match Detect.digits_value key 0 with
     | Some _ => false
     | None => true
     end.

(** No dot in a file extension. *)
Fixpoint dotless (s : string) : bool :=
  match s with
  | EmptyString => true
  | String c rest => negb (Ascii.nat_of_ascii c =? 46)%nat && dotless rest
  end.

(** The row of the export for one stored result. *)
Definition exportRow (Number_toFixed : number -> nat -> string) (r : CorrelationResult)
  : string :=
  (xLabel r ++ "," ++ yLabel r ++ "," ++ Number_toFixed (coefficient r) 4)%string.

End Spec2.

Module Examples2.
Import JS Types CorrelationAnalyzer Examples.

Definition fixed_text (v : number) (digits : nat) : string := "0.0000".

(** The members of a sweep summary file that has no [gpsError]. *)
Definition bare_summary : Dict Detect.json :=
  [ ("sweepName", Detect.JString "grid");
    ("allResults", Detect.JArray []);
    ("bestResult", Detect.JObject []) ].

Definition gps_error_json : Detect.json :=
  Detect.JObject
    [ ("gpsError",
       Detect.JObject [ ("position", Detect.JObject []);
                        ("velocity", Detect.JObject []);
                        ("acceleration", Detect.JObject []) ]) ].

(** A section sweep whose second section is [null]. *)
Definition section_sweep_json : Detect.json :=
  Detect.JObject
    [ ("summary", Detect.JObject []);
      ("sections",
       Detect.JArray
         [ Detect.JObject [ ("gpsErrorProfile", Detect.JObject []);
                            ("bestResult", Detect.JObject []) ];
           Detect.JNull ]) ].

(** An optimizer file whose [finalParams] has a key named [bestScore]. *)
Definition optimizer_file : Plot.File.t :=
  Plot.File.mk "run.json"
    (Plot.optimizer
       (Plot.OptimizerMetadata.mk (Some "2025-12-22")
          [("rPosY", 1%float); ("bestScore", 2%float)] None (Some 3%float))).

End Examples2.

(* ================================================================== *)
(** * IEEE-754 binary64 facts

    Derived from the specification of the primitive operations
    ([FloatAxioms]) over [spec_float]. *)
(* ================================================================== *)

Section FloatFacts.

(** Finite in the specification: neither NaN nor an infinity. *)
Definition SFfinite (x : spec_float) : bool :=
  match x with
  | S754_nan | S754_infinity _ => false
  | _ => true
  end.

Definition SFnan (x : spec_float) : bool :=
  match x with
  | S754_nan => true
  | _ => false
  end.

Lemma SFcompare_swap : forall x y,
  SFcompare y x = option_map CompOpp (SFcompare x y).
Proof.
  intros [sx|sx| |sx mx ex] [sy|sy| |sy my ey]; simpl; try reflexivity;
    try (destruct sx; reflexivity); try (destruct sy; reflexivity);
    try (destruct sx, sy; reflexivity).
  destruct sx, sy; simpl; try reflexivity;
    rewrite (Z.compare_antisym ey ex);
    destruct (ey ?= ex)%Z; simpl; try reflexivity;
    pose proof (Pos.compare_antisym mx my) as A; unfold Pos.compare in A;
    rewrite A; destruct (Pos.compare_cont Eq mx my); reflexivity.
Qed.

Lemma SFcompare_refl : forall x, SFnan x = false -> SFcompare x x = Some Eq.
Proof.
  intros [s|s| |s m e] H; simpl; try discriminate; try (destruct s; reflexivity).
  rewrite Z.compare_refl.
  change (Pos.compare_cont Eq m m) with (Pos.compare m m).
  rewrite Pos.compare_refl. destruct s; reflexivity.
Qed.

Lemma is_nan_spec : forall x, PrimFloat.is_nan x = SFnan (Prim2SF x).
Proof.
  intros x. unfold PrimFloat.is_nan. rewrite FloatAxioms.eqb_spec. unfold SFeqb.
  destruct (Prim2SF x) as [s|s| |s m e] eqn:E.
  - reflexivity.
  - destruct s; reflexivity.
  - reflexivity.
  - rewrite SFcompare_refl; reflexivity.
Qed.

Lemma is_finite_spec : forall x, PrimFloat.is_finite x = SFfinite (Prim2SF x).
Proof.
  intros x. unfold PrimFloat.is_finite, PrimFloat.is_infinity.
  rewrite is_nan_spec, FloatAxioms.eqb_spec, FloatAxioms.abs_spec.
  change (Prim2SF infinity) with (S754_infinity false).
  destruct (Prim2SF x) as [s|s| |s m e]; reflexivity.
Qed.

Lemma eqb_zero_spec : forall x,
  (x =? 0)%float = true -> exists s, Prim2SF x = S754_zero s.
Proof.
  intros x. rewrite FloatAxioms.eqb_spec.
  change (Prim2SF 0) with (S754_zero false). unfold SFeqb.
  destruct (Prim2SF x) as [s|s| |s m e]; simpl; try discriminate.
  - eauto.
  - destruct s; discriminate.
  - destruct s; discriminate.
Qed.

(** Division by a zero is never finite. *)
Lemma div_by_zero_not_finite : forall a b,
  (b =? 0)%float = true -> PrimFloat.is_finite (a / b) = false.
Proof.
  intros a b H. apply eqb_zero_spec in H. destruct H as [s H].
  rewrite is_finite_spec, FloatAxioms.div_spec, H.
  destruct (Prim2SF a); reflexivity.
Qed.

(** A non-finite operand makes these results non-finite. *)
Lemma mul_not_finite_l : forall a b,
  PrimFloat.is_finite a = false -> PrimFloat.is_finite (a * b) = false.
Proof.
  intros a b. rewrite !is_finite_spec, FloatAxioms.mul_spec.
  destruct (Prim2SF a), (Prim2SF b); simpl; congruence.
Qed.

Lemma sub_not_finite_r : forall a b,
  PrimFloat.is_finite b = false -> PrimFloat.is_finite (a - b) = false.
Proof.
  intros a b. rewrite !is_finite_spec, FloatAxioms.sub_spec.
  destruct (Prim2SF a) as [s|s| |s m e], (Prim2SF b) as [s'|s'| |s' m' e'];
    simpl; try congruence; destruct s, s'; simpl; congruence.
Qed.

Lemma div_not_finite_l : forall a b,
  PrimFloat.is_finite a = false -> PrimFloat.is_finite (a / b) = false.
Proof.
  intros a b. rewrite !is_finite_spec, FloatAxioms.div_spec.
  destruct (Prim2SF a), (Prim2SF b); simpl; congruence.
Qed.

Lemma is_finite_not_nan : forall x,
  PrimFloat.is_finite x = true -> PrimFloat.is_nan x = false.
Proof.
  intros x. unfold PrimFloat.is_finite.
  destruct (PrimFloat.is_nan x); [discriminate | reflexivity].
Qed.

(** [a <= b] excludes [b < a]. *)
Lemma leb_not_gtb : forall a b,
  (a <=? b)%float = true -> (b <? a)%float = false.
Proof.
  intros a b. rewrite FloatAxioms.leb_spec, FloatAxioms.ltb_spec. unfold SFleb, SFltb.
  rewrite (SFcompare_swap (Prim2SF a) (Prim2SF b)).
  destruct (SFcompare (Prim2SF a) (Prim2SF b)) as [[]|]; simpl; congruence.
Qed.

(** A zero of either sign, in the specification. *)
Definition SFzero (x : spec_float) : bool :=
  match x with
  | S754_zero _ => true
  | _ => false
  end.

Lemma eqb_zero_iff : forall x, (x =? 0)%float = SFzero (Prim2SF x).
Proof.
  intros x. rewrite FloatAxioms.eqb_spec.
  change (Prim2SF 0) with (S754_zero false). unfold SFeqb.
  destruct (Prim2SF x) as [s|s| |s m e]; simpl; try reflexivity;
    destruct s; reflexivity.
Qed.

Lemma add_zero : forall a b : float,
  (a =? 0)%float = true -> (b =? 0)%float = true -> (a + b =? 0)%float = true.
Proof.
  intros a b. rewrite !eqb_zero_iff, FloatAxioms.add_spec.
  destruct (Prim2SF a) as [s|s| |s m e], (Prim2SF b) as [s'|s'| |s' m' e'];
    try discriminate. destruct s, s'; reflexivity.
Qed.

Lemma sub_zero : forall a b : float,
  (a =? 0)%float = true -> (b =? 0)%float = true -> (a - b =? 0)%float = true.
Proof.
  intros a b. rewrite !eqb_zero_iff, FloatAxioms.sub_spec.
  destruct (Prim2SF a) as [s|s| |s m e], (Prim2SF b) as [s'|s'| |s' m' e'];
    try discriminate. destruct s, s'; reflexivity.
Qed.

Lemma mul_zero_l : forall a b : float,
  (a =? 0)%float = true -> PrimFloat.is_finite b = true -> (a * b =? 0)%float = true.
Proof.
  intros a b. rewrite !eqb_zero_iff, is_finite_spec, FloatAxioms.mul_spec.
  destruct (Prim2SF a) as [s|s| |s m e], (Prim2SF b) as [s'|s'| |s' m' e'];
    try discriminate; reflexivity.
Qed.

Lemma mul_zero_r : forall a b : float,
  PrimFloat.is_finite a = true -> (b =? 0)%float = true -> (a * b =? 0)%float = true.
Proof.
  intros a b. rewrite !eqb_zero_iff, is_finite_spec, FloatAxioms.mul_spec.
  destruct (Prim2SF a) as [s|s| |s m e], (Prim2SF b) as [s'|s'| |s' m' e'];
    try discriminate; reflexivity.
Qed.

Lemma sqrt_zero : forall a : float,
  (a =? 0)%float = true -> (PrimFloat.sqrt a =? 0)%float = true.
Proof.
  intros a. rewrite !eqb_zero_iff, FloatAxioms.sqrt_spec.
  destruct (Prim2SF a) as [s|s| |s m e]; try discriminate; reflexivity.
Qed.

Lemma zero_finite : forall a : float,
  (a =? 0)%float = true -> PrimFloat.is_finite a = true.
Proof.
  intros a. rewrite eqb_zero_iff, is_finite_spec.
  destruct (Prim2SF a); try discriminate; reflexivity.
Qed.

(** More operations that a non-finite operand makes non-finite. *)
Lemma add_not_finite_l : forall a b,
  PrimFloat.is_finite a = false -> PrimFloat.is_finite (a + b) = false.
Proof.
  intros a b. rewrite !is_finite_spec, FloatAxioms.add_spec.
  destruct (Prim2SF a) as [s|s| |s m e], (Prim2SF b) as [s'|s'| |s' m' e'];
    simpl; try congruence; destruct s, s'; simpl; congruence.
Qed.

Lemma add_not_finite_r : forall a b,
  PrimFloat.is_finite b = false -> PrimFloat.is_finite (a + b) = false.
Proof.
  intros a b. rewrite !is_finite_spec, FloatAxioms.add_spec.
  destruct (Prim2SF a) as [s|s| |s m e], (Prim2SF b) as [s'|s'| |s' m' e'];
    simpl; try congruence; destruct s, s'; simpl; congruence.
Qed.

End FloatFacts.

Section Order.

Ltac compare_cases :=
  repeat match goal with
  | H : context [Pos.compare_cont Eq ?a ?b] |- _ =>
      change (Pos.compare_cont Eq a b) with (Pos.compare a b) in H
  | |- context [Pos.compare_cont Eq ?a ?b] =>
      change (Pos.compare_cont Eq a b) with (Pos.compare a b)
  end;
  repeat match goal with
  | H : context [(?a ?= ?b)%Z] |- _ => destruct (Z.compare_spec a b)
  | |- context [(?a ?= ?b)%Z] => destruct (Z.compare_spec a b)
  | H : context [(?a ?= ?b)%positive] |- _ => destruct (Pos.compare_spec a b)
  | |- context [(?a ?= ?b)%positive] => destruct (Pos.compare_spec a b)
  end;
  cbn [CompOpp] in *; subst;
  try discriminate; try reflexivity; try lia.

Lemma SFleb_trans : forall x y z,
  SFleb x y = true -> SFleb y z = true -> SFleb x z = true.
Proof.
  unfold SFleb.
  intros [sx|sx| |sx mx ex] [sy|sy| |sy my ey] [sz|sz| |sz mz ez];
    cbn [SFcompare]; try discriminate; try reflexivity;
    try (destruct sx; try discriminate; try reflexivity);
    try (destruct sy; try discriminate; try reflexivity);
    try (destruct sz; try discriminate; try reflexivity);
    intros H1 H2; compare_cases.
Qed.

Lemma SFeqb_not_ltb : forall x y s,
  SFeqb x s = true -> SFeqb y s = true -> SFltb x y = false.
Proof.
  unfold SFeqb, SFltb.
  intros [sx|sx| |sx mx ex] [sy|sy| |sy my ey] [sz|sz| |sz mz ez];
    cbn [SFcompare]; try discriminate; try reflexivity;
    try (destruct sx; try discriminate; try reflexivity);
    try (destruct sy; try discriminate; try reflexivity);
    try (destruct sz; try discriminate; try reflexivity);
    intros H1 H2; compare_cases.
Qed.

(** Lifted to the primitive comparisons. *)
Lemma ltb_leb : forall a b : float,
  (a <? b)%float = true -> (a <=? b)%float = true.
Proof.
  intros a b. rewrite FloatAxioms.ltb_spec, FloatAxioms.leb_spec.
  unfold SFltb, SFleb.
  destruct (SFcompare (Prim2SF a) (Prim2SF b)) as [[]|]; congruence.
Qed.

Lemma leb_not_nan_r : forall a b : float,
  (a <=? b)%float = true -> PrimFloat.is_nan b = false.
Proof.
  intros a b. rewrite FloatAxioms.leb_spec, is_nan_spec. unfold SFleb.
  destruct (Prim2SF a) as [s|s| |s m e], (Prim2SF b) as [s'|s'| |s' m' e'];
    simpl; congruence.
Qed.

Lemma not_ltb_leb : forall a b : float,
  PrimFloat.is_nan a = false -> PrimFloat.is_nan b = false ->
  (a <? b)%float = false -> (b <=? a)%float = true.
Proof.
  intros a b. rewrite !is_nan_spec, FloatAxioms.ltb_spec, FloatAxioms.leb_spec.
  unfold SFltb, SFleb.
  rewrite (SFcompare_swap (Prim2SF a) (Prim2SF b)).
  destruct (Prim2SF a) as [s|s| |s m e], (Prim2SF b) as [s'|s'| |s' m' e'];
    try discriminate; intros _ _;
    match goal with
    | |- context [SFcompare ?u ?v] => destruct (SFcompare u v) as [[]|] eqn:C
    end; simpl; try congruence;
    try (destruct s; discriminate); try (destruct s'; discriminate);
    try (destruct s, s'; discriminate).
Qed.

Lemma leb_trans : forall a b c : float,
  (a <=? b)%float = true -> (b <=? c)%float = true -> (a <=? c)%float = true.
Proof.
  intros a b c. rewrite !FloatAxioms.leb_spec. apply SFleb_trans.
Qed.

Lemma eqb_not_ltb : forall a b s : float,
  (a =? s)%float = true -> (b =? s)%float = true -> (a <? b)%float = false.
Proof.
  intros a b s. rewrite !FloatAxioms.eqb_spec, FloatAxioms.ltb_spec.
  apply SFeqb_not_ltb.
Qed.

End Order.

Section Rounding.
Local Open Scope Z_scope.

Lemma digits2_pos_bounds : forall m,
  2 ^ (Zpos (digits2_pos m) - 1) <= Zpos m < 2 ^ Zpos (digits2_pos m).
Proof.
  induction m as [m IH|m IH|]; cbn [digits2_pos].
  - rewrite Pos2Z.inj_succ, Z.pow_succ_r by lia.
    replace (Z.succ (Zpos (digits2_pos m)) - 1) with (Z.succ (Zpos (digits2_pos m) - 1)) by lia.
    rewrite Z.pow_succ_r by lia. lia.
  - rewrite Pos2Z.inj_succ, Z.pow_succ_r by lia.
    replace (Z.succ (Zpos (digits2_pos m)) - 1) with (Z.succ (Zpos (digits2_pos m) - 1)) by lia.
    rewrite Z.pow_succ_r by lia. lia.
  - simpl. lia.
Qed.

Lemma iter_xO_value : forall d m, Zpos (Pos.iter xO m d) = Zpos m * 2 ^ Zpos d.
Proof.
  induction d as [|d IH] using Pos.peano_ind; intros m.
  - simpl. lia.
  - rewrite Pos.iter_succ, Pos2Z.inj_succ, Z.pow_succ_r by lia.
    rewrite Pos2Z.inj_xO, IH. lia.
Qed.

(** One right shift of a mantissa of at least two digits leaves a
    mantissa with one digit less. *)
Lemma shr_1_digits : forall mrs p,
  shr_m mrs = Zpos p -> 1 < Zpos (digits2_pos p) ->
  exists q, shr_m (shr_1 mrs) = Zpos q /\ Zpos (digits2_pos q) = Zpos (digits2_pos p) - 1.
Proof.
  intros [m r s] p H D. simpl in H. subst m.
  destruct p as [p|p|]; cbn [digits2_pos shr_1 shr_m] in *.
  - exists p. split; [reflexivity | rewrite Pos2Z.inj_succ; lia].
  - exists p. split; [reflexivity | rewrite Pos2Z.inj_succ; lia].
  - lia.
Qed.

Lemma iter_shr_1_digits : forall k mrs p,
  shr_m mrs = Zpos p -> Zpos k < Zpos (digits2_pos p) ->
  exists q, shr_m (iter_pos shr_1 k mrs) = Zpos q
            /\ Zpos (digits2_pos q) = Zpos (digits2_pos p) - Zpos k.
Proof.
  induction k as [k IH|k IH|]; intros mrs p H D; cbn [iter_pos].
  - destruct (@shr_1_digits mrs p H) as (q1 & H1 & D1); [lia|].
    destruct (IH _ _ H1) as (q2 & H2 & D2); [lia|].
    destruct (IH _ _ H2) as (q3 & H3 & D3); [lia|].
    exists q3. split; [exact H3 | lia].
  - destruct (IH _ _ H) as (q2 & H2 & D2); [lia|].
    destruct (IH _ _ H2) as (q3 & H3 & D3); [lia|].
    exists q3. split; [exact H3 | lia].
  - destruct (@shr_1_digits mrs p H) as (q1 & H1 & D1); [lia|].
    exists q1. split; [exact H1 | lia].
Qed.

Lemma fexp_ge_emin : forall e, (-1074) <= fexp prec emax e.
Proof. intros e. unfold fexp, emin, prec, emax. lia. Qed.

(** Shifting a positive mantissa to its canonical exponent keeps it
    positive, when the exponent is not below the least one. *)
Lemma shr_fexp_positive : forall p e l,
  (-1074) <= e ->
  exists q, shr_m (fst (shr_fexp prec emax (Zpos p) e l)) = Zpos q
            /\ (-1074) <= snd (shr_fexp prec emax (Zpos p) e l).
Proof.
  intros p e l E. unfold shr_fexp, shr.
  assert (M : shr_m (shr_record_of_loc (Zpos p) l) = Zpos p)
    by (destruct l as [|[]]; reflexivity).
  cbn [Zdigits2].
  destruct (fexp prec emax (Zpos (digits2_pos p) + e) - e) as [|k|k] eqn:N; cbn [fst snd].
  - eauto.
  - destruct (@iter_shr_1_digits k _ _ M) as (q & Hq & _).
    + revert N. unfold fexp, emin, prec, emax. lia.
    + exists q. split; [exact Hq|].
      pose proof (fexp_ge_emin (Zpos (digits2_pos p) + e)). lia.
  - eauto.
Qed.

Lemma round_nearest_even_positive : forall p l,
  exists q, round_nearest_even (Zpos p) l = Zpos q.
Proof.
  intros p [|[]]; simpl; eauto.
  destruct p; simpl; eauto.
Qed.

(** The sign a result carries, if it is a finite non-zero number or an
    infinity. *)
Definition SFsigned (s : bool) (x : spec_float) : Prop :=
  match x with
  | S754_finite s' _ _ | S754_infinity s' => s' = s
  | _ => False
  end.

Lemma binary_round_aux_signed : forall s p e l,
  (-1074) <= e -> SFsigned s (binary_round_aux prec emax s (Zpos p) e l).
Proof.
  intros s p e l E. unfold binary_round_aux.
  destruct (@shr_fexp_positive p e l E) as (q & Hq & E').
  destruct (shr_fexp prec emax (Zpos p) e l) as [mrs' e'].
  cbn [fst snd] in *. rewrite Hq.
  destruct (round_nearest_even_positive q (loc_of_shr_record mrs')) as (q' & ->).
  destruct (@shr_fexp_positive q' e' loc_Exact E') as (q'' & Hq'' & _).
  destruct (shr_fexp prec emax (Zpos q') e' loc_Exact) as [mrs'' e''].
  cbn [fst snd] in *. rewrite Hq''.
  destruct (e'' <=? emax - prec); reflexivity.
Qed.

Lemma binary_round_signed : forall s p e,
  (-1074) <= e -> SFsigned s (binary_round prec emax s p e).
Proof.
  intros s p e E. unfold binary_round, shl_align.
  destruct (fexp prec emax (Zpos (digits2_pos p) + e) - e) eqn:N.
  - apply binary_round_aux_signed; assumption.
  - apply binary_round_aux_signed; assumption.
  - apply binary_round_aux_signed. apply fexp_ge_emin.
Qed.

(** The result of rounding an integer mantissa compares with zero as the
    mantissa does. *)
Lemma binary_normalize_sign : forall m e,
  (-1074) <= e ->
  SFltb (S754_zero false) (binary_normalize prec emax m e false) = (0 <? m).
Proof.
  intros m e E. unfold binary_normalize. destruct m as [|p|p].
  - reflexivity.
  - pose proof (@binary_round_signed false p e E) as S.
    destruct (binary_round prec emax false p e); simpl in S; try contradiction;
      subst; reflexivity.
  - pose proof (@binary_round_signed true p e E) as S.
    destruct (binary_round prec emax true p e); simpl in S; try contradiction;
      subst; reflexivity.
Qed.


Lemma bounded_exponent : forall m e,
  bounded prec emax m e = true ->
  -1074 <= e /\ Zpos (digits2_pos m) <= 53 /\ (-1074 < e -> Zpos (digits2_pos m) = 53).
Proof.
  intros m e B. unfold bounded, canonical_mantissa in B.
  apply andb_true_iff in B. destruct B as [C _].
  apply Z.eqb_eq in C. revert C. unfold fexp, emin, prec, emax. lia.
Qed.

(** Two positive finite numbers compare as their mantissas do once
    aligned on the smaller exponent. *)
Lemma SFcompare_aligned : forall ma ea mb eb,
  bounded prec emax ma ea = true ->
  bounded prec emax mb eb = true ->
  SFcompare (S754_finite false ma ea) (S754_finite false mb eb) =
  Some (Zpos (fst (shl_align ma ea (Z.min ea eb)))
          ?= Zpos (fst (shl_align mb eb (Z.min ea eb)))).
Proof.
  intros ma ea mb eb Ba Bb.
  apply bounded_exponent in Ba, Bb.
  destruct Ba as (Ea & Da & Na), Bb as (Eb & Db & Nb).
  pose proof (digits2_pos_bounds ma) as [_ Ua].
  pose proof (digits2_pos_bounds mb) as [_ Ub].
  pose proof (digits2_pos_bounds ma) as [La _].
  pose proof (digits2_pos_bounds mb) as [Lb _].
  cbn [SFcompare]. f_equal. unfold shl_align.
  destruct (Z.compare_spec ea eb) as [E|L|G].
  - subst eb. rewrite Z.min_id, Z.sub_diag. reflexivity.
  - rewrite Z.min_l by lia. rewrite Z.sub_diag. cbn [fst].
    destruct (ea - eb) as [|d|d] eqn:N; try lia. cbn [fst].
    symmetry. apply Z.compare_lt_iff. rewrite iter_xO_value.
    rewrite Nb in Lb by lia.
    assert (2 ^ Zpos (digits2_pos ma) <= 2 ^ 53) by (apply Z.pow_le_mono_r; lia).
    assert (2 ^ 1 <= 2 ^ Zpos d) by (apply Z.pow_le_mono_r; lia).
    change (2 ^ (53 - 1)) with 4503599627370496 in Lb.
    change (2 ^ 53) with 9007199254740992 in *.
    change (2 ^ 1) with 2 in *. nia.
  - rewrite Z.min_r by lia. rewrite Z.sub_diag. cbn [fst].
    destruct (eb - ea) as [|d|d] eqn:N; try lia. cbn [fst].
    symmetry. apply Z.compare_gt_iff. rewrite iter_xO_value.
    rewrite Na in La by lia.
    assert (2 ^ Zpos (digits2_pos mb) <= 2 ^ 53) by (apply Z.pow_le_mono_r; lia).
    assert (2 ^ 1 <= 2 ^ Zpos d) by (apply Z.pow_le_mono_r; lia).
    change (2 ^ (53 - 1)) with 4503599627370496 in La.
    change (2 ^ 53) with 9007199254740992 in *.
    change (2 ^ 1) with 2 in *. nia.
Qed.

(** The difference of two magnitudes is positive exactly when the
    first exceeds the second. *)
Lemma SFsub_abs_positive : forall x y,
  valid_binary x = true -> valid_binary y = true ->
  SFltb (S754_zero false) (SF64sub (SFabs y) (SFabs x)) = SFltb (SFabs x) (SFabs y).
Proof.
  intros [sx|sx| |sx mx ex] [sy|sy| |sy my ey] Vx Vy; try reflexivity.
  cbn [valid_binary] in Vx, Vy.
  unfold SFltb at 2. cbn [SFabs]. rewrite (@SFcompare_aligned mx ex my ey Vx Vy).
  unfold SF64sub, SFsub. cbn [cond_Zopp].
  rewrite binary_normalize_sign.
  - rewrite (Z.min_comm ey ex).
    set (a := Zpos (fst (shl_align mx ex (Z.min ex ey)))).
    set (b := Zpos (fst (shl_align my ey (Z.min ex ey)))).
    destruct (Z.compare_spec a b); destruct (Z.ltb_spec 0 (b - a)); try reflexivity; lia.
  - apply bounded_exponent in Vx, Vy. lia.
Qed.

Lemma sub_abs_positive : forall x y : float,
  (0 <? abs y - abs x)%float = (abs x <? abs y)%float.
Proof.
  intros x y.
  rewrite !FloatAxioms.ltb_spec, FloatAxioms.sub_spec, !FloatAxioms.abs_spec.
  change (Prim2SF 0) with (S754_zero false).
  apply SFsub_abs_positive; apply Prim2SF_valid.
Qed.

(** ** The number of elements of an array is a finite number *)

Lemma digits2_pos_le : forall p q,
  Zpos p <= 2 ^ Zpos (digits2_pos q) ->
  Zpos (digits2_pos p) <= Zpos (digits2_pos q) + 1.
Proof.
  intros p q H.
  pose proof (digits2_pos_bounds p) as [L _].
  destruct (Z.le_gt_cases (Zpos (digits2_pos p)) (Zpos (digits2_pos q) + 1)) as [G|G];
    [exact G|].
  exfalso.
  assert (2 ^ (Zpos (digits2_pos q) + 1) <= 2 ^ (Zpos (digits2_pos p) - 1))
    by (apply Z.pow_le_mono_r; lia).
  rewrite Z.pow_add_r in H0 by lia. change (2 ^ 1) with 2 in H0.
  assert (0 < 2 ^ Zpos (digits2_pos q)) by (apply Z.pow_pos_nonneg; lia).
  lia.
Qed.

(** The canonical exponent of a shifted mantissa, and what is left of its
    digits. *)
Lemma shr_fexp_bound : forall p e l,
  (-1074) <= e ->
  exists q, shr_m (fst (shr_fexp prec emax (Zpos p) e l)) = Zpos q
            /\ (-1074) <= snd (shr_fexp prec emax (Zpos p) e l)
            /\ Zpos (digits2_pos q) + snd (shr_fexp prec emax (Zpos p) e l)
               = Zpos (digits2_pos p) + e
            /\ snd (shr_fexp prec emax (Zpos p) e l)
               <= Z.max e (Zpos (digits2_pos p) + e - 53).
Proof.
  intros p e l E. unfold shr_fexp, shr.
  assert (M : shr_m (shr_record_of_loc (Zpos p) l) = Zpos p)
    by (destruct l as [|[]]; reflexivity).
  cbn [Zdigits2].
  destruct (fexp prec emax (Zpos (digits2_pos p) + e) - e) as [|k|k] eqn:N; cbn [fst snd].
  - exists p. split; [exact M|]. lia.
  - destruct (@iter_shr_1_digits k _ _ M) as (q & Hq & Dq).
    + revert N. unfold fexp, emin, prec, emax. lia.
    + exists q. split; [exact Hq|].
      revert N. unfold fexp, emin, prec, emax. lia.
  - exists p. split; [exact M|]. lia.
Qed.

Lemma round_nearest_even_digits : forall p l,
  exists q, round_nearest_even (Zpos p) l = Zpos q
            /\ Zpos (digits2_pos q) <= Zpos (digits2_pos p) + 1.
Proof.
  intros p l.
  assert (S : Zpos (digits2_pos (p + 1)) <= Zpos (digits2_pos p) + 1).
  { apply digits2_pos_le. pose proof (digits2_pos_bounds p). lia. }
  destruct l as [|[]]; cbn [round_nearest_even].
  - exists p. split; [reflexivity | lia].
  - destruct (Z.even (Zpos p)).
    + exists p. split; [reflexivity | lia].
    + exists (p + 1)%positive. split; [reflexivity | exact S].
  - exists p. split; [reflexivity | lia].
  - exists (p + 1)%positive. split; [reflexivity | exact S].
Qed.

Lemma binary_round_aux_finite : forall s p e l,
  (-1074) <= e -> e <= 900 -> Zpos (digits2_pos p) + e <= 900 ->
  SFfinite (binary_round_aux prec emax s (Zpos p) e l) = true.
Proof.
  intros s p e l E U D. unfold binary_round_aux.
  destruct (@shr_fexp_bound p e l E) as (q & Hq & E' & D' & U').
  destruct (shr_fexp prec emax (Zpos p) e l) as [mrs' e'].
  cbn [fst snd] in *. rewrite Hq.
  destruct (round_nearest_even_digits q (loc_of_shr_record mrs')) as (q' & -> & Dq').
  destruct (@shr_fexp_bound q' e' loc_Exact E') as (q'' & Hq'' & _ & _ & U'').
  destruct (shr_fexp prec emax (Zpos q') e' loc_Exact) as [mrs'' e''].
  cbn [fst snd] in *. rewrite Hq''.
  destruct (Z.leb_spec e'' (emax - prec)) as [_|G]; [reflexivity|].
  exfalso. revert G. unfold emax, prec. lia.
Qed.

Lemma binary_normalize_finite : forall z,
  0 <= z < 2 ^ 63 -> SFfinite (binary_normalize prec emax z 0 false) = true.
Proof.
  intros [|p|p] B; try reflexivity; [|lia].
  cbn [binary_normalize]. unfold binary_round, shl_align.
  assert (Dp : Zpos (digits2_pos p) <= 63).
  { pose proof (digits2_pos_bounds p) as [L _].
    destruct (Z.le_gt_cases (Zpos (digits2_pos p)) 63) as [G|G]; [exact G|].
    exfalso. assert (2 ^ 63 <= 2 ^ (Zpos (digits2_pos p) - 1))
      by (apply Z.pow_le_mono_r; lia). lia. }
  destruct (fexp prec emax (Zpos (digits2_pos p) + 0) - 0) as [|k|k] eqn:N.
  - apply binary_round_aux_finite; lia.
  - apply binary_round_aux_finite; lia.
  - assert (F : fexp prec emax (Zpos (digits2_pos p) + 0) = Zpos (digits2_pos p) - 53)
      by (unfold fexp, emin, prec, emax; lia).
    rewrite F in *.
    apply binary_round_aux_finite; try lia.
    apply Z.le_trans with (Zpos (digits2_pos p) + Zpos k + (Zpos (digits2_pos p) - 53));
      [|lia].
    apply Z.add_le_mono_r.
    (* digits of the shifted mantissa *)
    pose proof (digits2_pos_bounds (Pos.iter xO p k)) as [L _].
    rewrite iter_xO_value in L.
    pose proof (digits2_pos_bounds p) as [_ Up].
    destruct (Z.le_gt_cases (Zpos (digits2_pos (Pos.iter xO p k)))
                (Zpos (digits2_pos p) + Zpos k)) as [G|G]; [exact G|].
    exfalso.
    assert (2 ^ (Zpos (digits2_pos p) + Zpos k)
            <= 2 ^ (Zpos (digits2_pos (Pos.iter xO p k)) - 1))
      by (apply Z.pow_le_mono_r; lia).
    rewrite Z.pow_add_r in H by lia.
    assert (0 < 2 ^ Zpos k) by (apply Z.pow_pos_nonneg; lia).
    nia.
Qed.

Lemma length_number_finite : forall (A : Type) (a : list A),
  PrimFloat.is_finite (JS.length_number a) = true.
Proof.
  intros A a. unfold JS.length_number.
  rewrite is_finite_spec, FloatAxioms.of_uint63_spec.
  apply binary_normalize_finite.
  pose proof (Uint63.to_Z_bounded (of_Z (Z.of_nat (List.length a)))) as B.
  unfold wB, size in B. exact B.
Qed.

End Rounding.

(* ================================================================== *)
(** * Insertion-ordered dictionaries *)
(* ================================================================== *)

Section DictFacts.
Import JS.
Variable V : Type.
Implicit Types (d : Dict V) (k : string) (v : V).

Lemma get_set : forall d k v k',
  get (set d k v) k' = if String.eqb k' k then Some v else get d k'.
Proof.
  induction d as [|[k0 v0] d IH]; intros k v k'; simpl.
  - reflexivity.
  - destruct (String.eqb k k0) eqn:E; simpl.
    + apply String.eqb_eq in E; subst k0.
      destruct (String.eqb k' k); reflexivity.
    + rewrite IH. destruct (String.eqb k' k0) eqn:E0; [|reflexivity].
      apply String.eqb_eq in E0; subst k0.
      rewrite String.eqb_sym, E. reflexivity.
Qed.

Lemma get_set_same : forall d k v, get (set d k v) k = Some v.
Proof. intros; rewrite get_set, String.eqb_refl; reflexivity. Qed.

Lemma get_set_other : forall d k v k', k' <> k -> get (set d k v) k' = get d k'.
Proof.
  intros d k v k' H; rewrite get_set.
  apply String.eqb_neq in H; rewrite H; reflexivity.
Qed.

Lemma keys_set : forall d k v k',
  In k' (keys (set d k v)) <-> k' = k \/ In k' (keys d).
Proof.
  unfold keys.
  induction d as [|[k0 v0] d IH]; intros k v k'; simpl.
  - intuition.
  - destruct (String.eqb k k0) eqn:E; simpl.
    + apply String.eqb_eq in E; subst k0. intuition.
    + rewrite IH. intuition.
Qed.

Lemma get_in_keys : forall d k, In k (keys d) <-> exists v, get d k = Some v.
Proof.
  unfold keys.
  induction d as [|[k0 v0] d IH]; intros k; simpl.
  - split; [tauto | intros [v H]; discriminate].
  - destruct (String.eqb k k0) eqn:E.
    + apply String.eqb_eq in E; subst k0. split; eauto.
    + apply String.eqb_neq in E. rewrite <- IH.
      split; [intros [H|H]; [congruence | exact H] | auto].
Qed.

End DictFacts.

(* ================================================================== *)
(** * Output-vector extraction *)
(* ================================================================== *)

Section Extraction.
Import JS Types FileParser Examples.

Lemma get_copy_if_defined : forall extracted k v k',
  get (copy_if_defined extracted k v) k' =
  if String.eqb k' k
  then match v with Some n => Some n | None => get extracted k' end
  else get extracted k'.
Proof.
  intros extracted k [n|] k'; simpl.
  - apply get_set.
  - destruct (String.eqb k' k); reflexivity.
Qed.

Lemma get_split_if_defined : forall extracted kX kZ v k',
  get (split_if_defined extracted kX kZ v) k' =
  if String.eqb k' kZ || String.eqb k' kX
  then match v with Some n => Some n | None => get extracted k' end
  else get extracted k'.
Proof.
  intros extracted kX kZ [n|] k'; simpl.
  - rewrite !get_set.
    destruct (String.eqb k' kZ), (String.eqb k' kX); reflexivity.
  - destruct (String.eqb k' kZ || String.eqb k' kX); reflexivity.
Qed.

Ltac read_step :=
  first [ rewrite get_copy_if_defined | rewrite get_split_if_defined ];
  match goal with
  | |- context [if ?b then _ else _] =>
      let b' := eval vm_compute in b in change b with b'
  end;
  cbv iota.

Ltac read_extracted :=
  cbv beta zeta delta [extractFinalParameters];
  repeat read_step;
  cbn [get].

(** C1 (as the code has it).  For each of the five parameter families of
    [KalmanParameters], the extracted X entry is the legacy combined XZ
    value when the source has one, and the per-axis X value otherwise;
    likewise for Z; the Y entry is the per-axis Y value.  So the legacy
    value, processed last, takes precedence over a per-axis value, and a
    source with only the legacy value yields both the X and the Z entry
    with that value. *)
Theorem extractFinalParameters_legacy_last :
  forall (params : KalmanParameters) (f : family),
    get (extractFinalParameters params) (keyX f) =
      match fieldXZ f params with
      | Some v => Some v
      | None => fieldX f params
      end
    /\ get (extractFinalParameters params) (keyZ f) =
      match fieldXZ f params with
      | Some v => Some v
      | None => fieldZ f params
      end
    /\ get (extractFinalParameters params) (keyY f) = fieldY f params.
Proof.
  intros params f.
  destruct f; cbn [keyX keyY keyZ family_name fieldX fieldY fieldZ fieldXZ append];
    (split; [|split]); read_extracted.
  all: repeat match goal with
              | |- context [match ?o with Some _ => _ | None => _ end] => destruct o
              end; reflexivity.
Qed.

(** C1 (as stated) fails: with both values present the extracted [rPosX]
    is the legacy value 0.05, not the per-axis value 0.1. *)
Lemma extractFinalParameters_per_axis_overwritten :
  rPosX both_rPos = Some 0.1%float
  /\ rPosXZ both_rPos = Some 0.05%float
  /\ get (extractFinalParameters both_rPos) "rPosX" = Some 0.05%float
  /\ (0.05 =? 0.1)%float = false.
Proof. repeat split. Qed.

End Extraction.

(* ================================================================== *)
(** * Statistics primitives: the sums *)
(* ================================================================== *)

Section Sums.
Import JS Types CorrelationAnalyzer Spec.

Lemma sum_from_zero : forall l acc,
  isZero acc -> Forall isZero l -> isZero (sum_from acc l).
Proof.
  induction l as [|v rest IH]; intros acc A F; [exact A|].
  cbn [sum_from]. apply IH.
  - apply add_zero; [exact A | exact (Forall_inv F)].
  - exact (Forall_inv_tail F).
Qed.

Lemma sum_zero : forall l, Forall isZero l -> isZero (sumOf l).
Proof. intros l F. apply sum_from_zero; [reflexivity | exact F]. Qed.

Lemma squares_zero : forall l, Forall isZero l -> Forall isZero (squares l).
Proof.
  intros l F. unfold squares. apply Forall_map.
  eapply Forall_impl; [|exact F]. intros v Z. cbv beta.
  apply mul_zero_l; [exact Z | apply zero_finite; exact Z].
Qed.

(** All zeros: the variance term is a zero, whatever the number of
    points. *)
Lemma varianceTerm_zero : forall (A : Type) (a : list A) l,
  Forall isZero l -> isZero (varianceTerm (length_number a) l).
Proof.
  intros A a l F. unfold varianceTerm. apply sub_zero.
  - apply mul_zero_r; [apply length_number_finite|].
    apply sum_zero, squares_zero, F.
  - apply mul_zero_l; [apply sum_zero, F|].
    apply zero_finite. apply sum_zero, F.
Qed.

Lemma sum_from_not_finite : forall l acc,
  PrimFloat.is_finite acc = false -> PrimFloat.is_finite (sum_from acc l) = false.
Proof.
  induction l as [|v rest IH]; intros acc A; [exact A|].
  cbn [sum_from]. apply IH. apply add_not_finite_l. exact A.
Qed.

(** A sum with a term that is not finite is not finite. *)
Lemma sum_not_finite : forall l,
  Exists (fun v => PrimFloat.is_finite v = false) l ->
  PrimFloat.is_finite (sumOf l) = false.
Proof.
  intros l. unfold sumOf. generalize 0%float.
  induction l as [|v rest IH]; intros acc E; [inversion E|].
  cbn [sum_from]. inversion E as [? ? H|? ? H]; subst.
  - apply sum_from_not_finite. apply add_not_finite_r. exact H.
  - apply IH. exact H.
Qed.

(** The loops of the code compute these sums. *)
Lemma reduce_from_sum : forall (g : number -> number) l i acc,
  reduce_from (fun sum v _ => sum + g v)%float l i acc = sum_from acc (map g l).
Proof.
  intros g. induction l as [|v rest IH]; intros i acc; [reflexivity|].
  cbn [reduce_from map sum_from]. apply IH.
Qed.

Lemma reduce_sum : forall l,
  reduce (fun a b _ => a + b)%float l 0%float = sumOf l.
Proof.
  intros l. unfold reduce, sumOf.
  rewrite (reduce_from_sum (fun v => v)). rewrite map_id. reflexivity.
Qed.

Lemma reduce_squares : forall l,
  reduce (fun sum x _ => sum + x * x)%float l 0%float = sumOf (squares l).
Proof. intros l. unfold reduce. apply (reduce_from_sum (fun x => x * x)%float). Qed.

(** A loop over one array that reads the other by the index. *)
Lemma reduce_from_indexed : forall (h : number -> number -> number) a b pre acc,
  List.length a = List.length b ->
  reduce_from (fun sum v i => sum + h v (Array_get (pre ++ b) i))%float a
    (List.length pre) acc
  = sum_from acc (map (fun '(v, w) => h v w) (combine a b)).
Proof.
  intros h. induction a as [|v a IH]; intros [|w b] pre acc L; try discriminate.
  - reflexivity.
  - cbn [reduce_from combine map sum_from].
    assert (G : Array_get (pre ++ w :: b) (List.length pre) = w)
      by (unfold Array_get; apply nth_middle).
    rewrite G.
    replace (pre ++ w :: b) with ((pre ++ [w]) ++ b) by (rewrite <- app_assoc; reflexivity).
    replace (S (List.length pre)) with (List.length (pre ++ [w]))
      by (rewrite length_app; simpl; lia).
    apply IH. simpl in L. lia.
Qed.

Lemma reduce_products : forall xs ys,
  List.length xs = List.length ys ->
  reduce (fun sum x i => sum + x * Array_get ys i)%float xs 0%float
  = sumOf (products xs ys).
Proof.
  intros xs ys L. unfold reduce, sumOf, products.
  exact (@reduce_from_indexed (fun x y => x * y)%float xs ys [] 0%float L).
Qed.

Lemma combine_swap_map : forall (f : number -> number -> number) a b,
  map (fun '(w, v) => f v w) (combine b a) = map (fun '(v, w) => f v w) (combine a b).
Proof.
  intros f. induction a as [|v a IH]; intros [|w b]; try reflexivity.
  cbn [combine map]. rewrite IH. reflexivity.
Qed.

Lemma reduce_residuals : forall xs ys b a,
  List.length xs = List.length ys ->
  reduce (fun sum y i =>
            let predicted := (b * Array_get xs i + a)%float in
            sum + Math_pow_2 (y - predicted))%float ys 0%float
  = residualSumOfSquares xs ys b a.
Proof.
  intros xs ys b a L. unfold reduce, residualSumOfSquares, sumOf. cbv zeta.
  unfold Math_pow_2.
  pose proof (@reduce_from_indexed
             (fun y x => (y - (b * x + a)) * (y - (b * x + a)))%float ys xs [] 0%float
             (eq_sym L)) as R.
  cbn [app List.length] in R. etransitivity; [exact R|]. f_equal.
  apply (combine_swap_map (fun x y => (y - (b * x + a)) * (y - (b * x + a)))%float).
Qed.

Lemma reduce_total : forall ys mean,
  reduce (fun sum y _ => sum + Math_pow_2 (y - mean))%float ys 0%float
  = sumOf (map (fun y => ((y - mean) * (y - mean))%float) ys).
Proof.
  intros ys mean. unfold reduce, Math_pow_2.
  apply (reduce_from_sum (fun y => (y - mean) * (y - mean))%float).
Qed.

End Sums.

(* ================================================================== *)
(** * Statistics primitives: the guards *)
(* ================================================================== *)

Section Guards.
Import JS Types CorrelationAnalyzer Spec.

(** C8.  On sequences of unequal lengths, or with fewer than 2 points,
    [linearRegression] returns the zero-struct. *)
Theorem linearRegression_too_short :
  forall xValues yValues : list number,
    List.length xValues <> List.length yValues \/ List.length xValues < 2 ->
    linearRegression xValues yValues =
      {| slope := 0%float; intercept := 0%float; regression_rSquared := 0%float |}.
Proof.
  intros xValues yValues H. unfold linearRegression.
  destruct (Nat.eqb_spec (List.length xValues) (List.length yValues)) as [E|E]; simpl.
  - destruct (Nat.ltb_spec (List.length xValues) 2) as [L|L]; [reflexivity|].
    destruct H as [H|H]; [contradiction | lia].
  - reflexivity.
Qed.

Lemma linearRegression_too_short_witness :
  linearRegression [1%float] [2%float] =
    {| slope := 0%float; intercept := 0%float; regression_rSquared := 0%float |}.
Proof.
  apply linearRegression_too_short. right. simpl. lia.
Defined.

(** The value computed is that of the sum-of-products formula. *)
Lemma calculateCorrelation_formula : forall xValues yValues : list number,
  List.length xValues = List.length yValues ->
  xValues <> [] ->
  calculateCorrelation xValues yValues =
    if (pearsonDenominator xValues yValues =? 0)%float then 0%float
    else (pearsonNumerator xValues yValues / pearsonDenominator xValues yValues)%float.
Proof.
  intros xValues yValues E N. unfold calculateCorrelation.
  assert (Z : (List.length xValues =? 0)%nat = false)
    by (destruct xValues; [contradiction | reflexivity]).
  rewrite Z. apply Nat.eqb_eq in E. rewrite E. cbn [negb orb]. cbv zeta.
  apply Nat.eqb_eq in E.
  rewrite !reduce_sum, !reduce_squares, (@reduce_products xValues yValues E).
  reflexivity.
Qed.

(** C4 (as the code has it).  [calculateCorrelation] returns 0 when the
    lengths differ and when both sequences are empty.  On sequences of one
    length, not empty, it returns 0 when the denominator of the
    sum-of-products formula, as computed, is exactly 0, and the quotient of
    the formula otherwise.  Zero variance gives 0 when one sequence holds
    only zeros and the variance term of the other is finite; it is no
    guarantee of a zero denominator otherwise.  The function is total, so
    no exception arises. *)
Theorem calculateCorrelation_zero :
  forall xValues yValues : list number,
    (List.length xValues <> List.length yValues
     \/ (xValues = [] /\ yValues = []) ->
     calculateCorrelation xValues yValues = 0%float)
    /\ (List.length xValues = List.length yValues -> xValues <> [] ->
        calculateCorrelation xValues yValues =
          if (pearsonDenominator xValues yValues =? 0)%float then 0%float
          else (pearsonNumerator xValues yValues
                / pearsonDenominator xValues yValues)%float)
    /\ (List.length xValues = List.length yValues -> xValues <> [] ->
        (Forall isZero xValues
         /\ isFinite (varianceTerm (length_number xValues) yValues) = true)
        \/ (Forall isZero yValues
            /\ isFinite (varianceTerm (length_number xValues) xValues) = true) ->
        calculateCorrelation xValues yValues = 0%float).
Proof.
  intros xValues yValues. split; [|split].
  - intros H. unfold calculateCorrelation.
    destruct (Nat.eqb_spec (List.length xValues) (List.length yValues)) as [E|E];
      [|reflexivity].
    destruct H as [H|[-> _]]; [contradiction | reflexivity].
  - apply calculateCorrelation_formula.
  - intros E N H. rewrite (@calculateCorrelation_formula xValues yValues E N).
    assert (D : (pearsonDenominator xValues yValues =? 0)%float = true).
    { unfold pearsonDenominator. cbv zeta. unfold Math_sqrt. apply sqrt_zero.
      destruct H as [[Z F]|[Z F]].
      - apply mul_zero_l; [|exact F]. apply varianceTerm_zero. exact Z.
      - apply mul_zero_r; [exact F|]. apply varianceTerm_zero. exact Z. }
    rewrite D. reflexivity.
Qed.

(** All x zero: the variance term of x is 0, and so is the result. *)
Lemma calculateCorrelation_zero_witness :
  calculateCorrelation [0; 0]%float [1; 2]%float = 0%float.
Proof.
  destruct (calculateCorrelation_zero [0; 0]%float [1; 2]%float) as (_ & _ & Z).
  apply Z.
  - reflexivity.
  - discriminate.
  - left. split.
    + repeat constructor.
    + vm_compute. reflexivity.
Defined.

(** C4 (as stated) fails: zero variance in x does not make the result 0.
    For x six times 0.3 the rounded sums do not cancel, the variance term
    of x is negative, the square root is NaN and so is the result; for x
    ten times 0.1 the variance term is positive and the result is a
    non-zero number. *)
Lemma calculateCorrelation_constant_x :
  isNaN (calculateCorrelation [0.3; 0.3; 0.3; 0.3; 0.3; 0.3] [0; 1; 2; 3; 4; 5])%float
  = true
  /\ (varianceTerm 6 [0.3; 0.3; 0.3; 0.3; 0.3; 0.3] <? 0)%float = true
  /\ (0 <? calculateCorrelation
             [0.1; 0.1; 0.1; 0.1; 0.1; 0.1; 0.1; 0.1; 0.1; 0.1]
             [0; 1; 2; 3; 4; 5; 6; 7; 8; 9])%float = true
  /\ (0 <? varianceTerm 10 [0.1; 0.1; 0.1; 0.1; 0.1; 0.1; 0.1; 0.1; 0.1; 0.1])%float
     = true.
Proof. repeat split. Qed.

End Guards.

(* ================================================================== *)
(** * Predictor *)
(* ================================================================== *)

Section Predictor.
Import JS Types CorrelationAnalyzer Spec.

Variable dims : Dict number.

(** What [o[key]] reads is the input of the statements. *)
Lemma read_input : forall d,
  match read dims d with
  | Some v => input dims d v
  | None => forall v, ~ input dims d v
  end.
Proof.
  intros d. unfold read, input.
  destruct (get dims d) as [v|] eqn:G.
  - left. reflexivity.
  - destruct (inherited d) eqn:I.
    + right. auto.
    + intros v [H|(_ & H & _)]; discriminate.
Qed.

Lemma input_functional : forall d v v',
  input dims d v -> input dims d v' -> v = v'.
Proof.
  intros d v v' [H|(H & _ & ->)] [H'|(H' & _ & ->)]; congruence.
Qed.

Lemma get_assign : forall (predictions : Dict number) k v k',
  get (assign predictions k v) k' =
  if String.eqb k "__proto__" then get predictions k'
  else if String.eqb k' k then Some v else get predictions k'.
Proof.
  intros predictions k v k'. unfold assign.
  destruct (String.eqb k "__proto__"); [reflexivity | apply get_set].
Qed.

Lemma usable_functional : forall m w w',
  usable dims m w -> usable dims m w' -> w = w'.
Proof.
  intros m w w' (v & cs & Hv & Hc & _ & _ & ->) (v' & cs' & Hv' & Hc' & _ & _ & ->).
  rewrite (input_functional Hv Hv'). congruence.
Qed.

(** What one iteration of the loop does. *)
Lemma predictStep_cases : forall predictions m,
  (exists w, usable dims m w /\
             predictStep dims predictions m = assign predictions (outputParameter m) w)
  \/ ((forall w, ~ usable dims m w) /\ predictStep dims predictions m = predictions).
Proof.
  intros predictions m. unfold predictStep.
  pose proof (read_input (inputDimension m)) as R.
  destruct (read dims (inputDimension m)) as [v|].
  2:{ right. split; [|reflexivity].
      intros w (v' & cs & Hv' & _). exact (R v' Hv'). }
  destruct (coefficients m) as [cs|] eqn:Hc.
  2:{ right. split; [|reflexivity].
      intros w (v' & cs & _ & Hc' & _). congruence. }
  destruct (Nat.leb_spec 2 (List.length cs)) as [L|L].
  2:{ right. split; [|reflexivity].
      intros w (v' & cs' & _ & Hc' & L' & _).
      assert (cs' = cs) by congruence. subst cs'. lia. }
  destruct (0.3 <? rSquared m)%float eqn:Q.
  - left. eexists. split; [|reflexivity].
    exists v, cs. auto.
  - right. split; [|reflexivity].
    intros w (v' & cs' & _ & _ & _ & Q' & _). congruence.
Qed.

Lemma predictStep_short_coefficients : forall predictions m,
  coefficients m = None
  \/ (exists cs, coefficients m = Some cs /\ List.length cs < 2) ->
  predictStep dims predictions m = predictions.
Proof.
  intros predictions m H.
  destruct (predictStep_cases predictions m) as [(w & U & _)|[_ E]]; [|exact E].
  destruct U as (v & cs & _ & Hc & L & _).
  destruct H as [H|(cs' & H & L')]; [congruence|].
  assert (cs' = cs) by congruence. subst cs'. lia.
Qed.

Lemma snoc_split : forall (A : Type) (ms : list A) (m : A) ms1 m1 ms2,
  ms ++ [m] = ms1 ++ m1 :: ms2 ->
  (ms2 = [] /\ ms = ms1 /\ m = m1)
  \/ (exists ms2', ms2 = ms2' ++ [m] /\ ms = ms1 ++ m1 :: ms2').
Proof.
  intros A ms m ms1 m1 ms2 H.
  destruct ms2 as [|a ms2 _] using rev_ind.
  - left. apply app_inj_tail in H. destruct H; auto.
  - right. exists ms2.
    change (ms1 ++ m1 :: ms2 ++ [a]) with (ms1 ++ (m1 :: ms2) ++ [a]) in H.
    rewrite app_assoc in H. apply app_inj_tail in H.
    destruct H as [H ->]. auto.
Qed.

(** The loop never makes an entry named [__proto__]. *)
Lemma predict_loop_no_proto : forall models,
  get (fold_left (predictStep dims) models []) "__proto__" = None.
Proof.
  induction models as [|m ms IH] using rev_ind; [reflexivity|].
  rewrite fold_left_app. cbn [fold_left].
  destruct (predictStep_cases (fold_left (predictStep dims) ms []) m)
    as [(w0 & U & ->)|[NU ->]]; [|exact IH].
  rewrite get_assign.
  destruct (String.eqb (outputParameter m) "__proto__") eqn:E; [exact IH|].
  rewrite String.eqb_sym, E. exact IH.
Qed.

(** The entry of a parameter after the loop: the value of the last
    usable model that targets it. *)
Lemma predict_loop_spec : forall models p w,
  get (fold_left (predictStep dims) models []) p = Some w <->
  p <> "__proto__" /\
  exists ms1 m ms2,
    models = ms1 ++ m :: ms2 /\
    outputParameter m = p /\
    usable dims m w /\
    forall m' w', In m' ms2 -> outputParameter m' = p -> ~ usable dims m' w'.
Proof.
  intros models p w.
  destruct (String.eqb_spec p "__proto__") as [->|NP].
  { rewrite predict_loop_no_proto. split; [discriminate | intros [H _]; congruence]. }
  assert (K : forall A : Prop, A <-> p <> "__proto__" /\ A) by (intros A; tauto).
  rewrite <- K. clear K.
  revert w. induction models as [|m ms IH] using rev_ind; intros w.
  - simpl. split; [discriminate|].
    intros (ms1 & m & ms2 & H & _). destruct ms1; discriminate.
  - rewrite fold_left_app. simpl.
    destruct (predictStep_cases (fold_left (predictStep dims) ms []) m)
      as [(w0 & U & ->)|[NU ->]].
    + rewrite get_assign.
      destruct (String.eqb_spec (outputParameter m) "__proto__") as [P|P].
      { (* the assignment is dropped, and [m] does not target [p] *)
        rewrite IH. split.
        - intros (ms1 & m1 & ms2 & -> & Hp & U1 & Last).
          exists ms1, m1, (ms2 ++ [m]). rewrite <- app_assoc. repeat split; auto.
          intros m' w' Hin Hp'. apply in_app_or in Hin. destruct Hin as [Hin|[<-|[]]].
          + apply Last; auto.
          + congruence.
        - intros (ms1 & m1 & ms2 & H & Hp & U1 & Last).
          apply snoc_split in H. destruct H as [(-> & -> & ->)|(ms2' & -> & ->)].
          + congruence.
          + exists ms1, m1, ms2'. repeat split; auto.
            intros m' w' Hin. apply Last. apply in_or_app. auto. }
      destruct (String.eqb p (outputParameter m)) eqn:E.
      * apply String.eqb_eq in E. subst p. split.
        -- intros [= <-]. exists ms, m, []. repeat split; auto.
        -- intros (ms1 & m1 & ms2 & H & Hp & U1 & Last).
           apply snoc_split in H. destruct H as [(-> & -> & ->)|(ms2' & -> & ->)].
           ++ f_equal. eapply usable_functional; eauto.
           ++ exfalso. apply (Last m w0); auto.
              apply in_or_app. right. left. reflexivity.
      * apply String.eqb_neq in E. rewrite IH. split.
        -- intros (ms1 & m1 & ms2 & -> & Hp & U1 & Last).
           exists ms1, m1, (ms2 ++ [m]). rewrite <- app_assoc. repeat split; auto.
           intros m' w' Hin Hp'. apply in_app_or in Hin. destruct Hin as [Hin|[<-|[]]].
           ++ apply Last; auto.
           ++ congruence.
        -- intros (ms1 & m1 & ms2 & H & Hp & U1 & Last).
           apply snoc_split in H. destruct H as [(-> & -> & ->)|(ms2' & -> & ->)].
           ++ congruence.
           ++ exists ms1, m1, ms2'. repeat split; auto.
              intros m' w' Hin. apply Last. apply in_or_app. auto.
    + rewrite IH. split.
      * intros (ms1 & m1 & ms2 & -> & Hp & U1 & Last).
        exists ms1, m1, (ms2 ++ [m]). rewrite <- app_assoc. repeat split; auto.
        intros m' w' Hin Hp'. apply in_app_or in Hin. destruct Hin as [Hin|[<-|[]]].
        -- apply Last; auto.
        -- apply NU.
      * intros (ms1 & m1 & ms2 & H & Hp & U1 & Last).
        apply snoc_split in H. destruct H as [(-> & -> & ->)|(ms2' & -> & ->)].
        -- exfalso. eapply NU; eauto.
        -- exists ms1, m1, ms2'. repeat split; auto.
           intros m' w' Hin. apply Last. apply in_or_app. auto.
Qed.

End Predictor.

(* ================================================================== *)
(** * Ranking *)
(* ================================================================== *)

Section Ranking.
Import JS Types CorrelationAnalyzer Spec.

(** [Array.prototype.sort] rearranges, whatever the comparator. *)
Lemma sort_insert_perm : forall (A : Type) (compare : A -> A -> number) v a,
  Permutation (sort_insert compare v a) (v :: a).
Proof.
  intros A compare v a. induction a as [|w rest IH]; simpl.
  - apply Permutation_refl.
  - destruct (0 <? compare v w)%float.
    + eapply Permutation_trans; [apply perm_skip, IH | apply perm_swap].
    + apply Permutation_refl.
Qed.

Lemma sort_perm : forall (A : Type) (compare : A -> A -> number) a,
  Permutation (sort compare a) a.
Proof.
  intros A compare a. induction a as [|v rest IH]; simpl.
  - apply perm_nil.
  - eapply Permutation_trans; [apply sort_insert_perm | apply perm_skip, IH].
Qed.

Lemma Permutation_in_iff' : forall (A : Type) (x : A) (l l' : list A),
  Permutation l l' -> (In x l <-> In x l').
Proof.
  intros A x l l' P. split; apply Permutation_in; [exact P|].
  apply Permutation_sym. exact P.
Qed.

(** The comparator of the ranking asks for a move exactly when the
    moved element is strictly weaker. *)
Lemma byStrength_positive : forall v w,
  (0 <? byStrength v w)%float = (strength v <? strength w)%float.
Proof. intros v w. apply sub_abs_positive. Qed.

Lemma sort_insert_descending : forall v a,
  ranked v -> Forall ranked a ->
  StronglySorted descending a ->
  StronglySorted descending (sort_insert byStrength v a).
Proof.
  intros v a Rv Ra S. induction S as [|w rest S IH Hw]; simpl.
  - constructor; constructor.
  - inversion Ra as [|? ? Rw Rrest]; subst.
    rewrite byStrength_positive.
    destruct (strength v <? strength w)%float eqn:C.
    + constructor; [apply IH; assumption|].
      eapply Permutation_Forall; [apply Permutation_sym, sort_insert_perm|].
      constructor; [|assumption].
      apply ltb_leb. exact C.
    + assert (D : descending v w) by (apply not_ltb_leb; assumption).
      constructor; [constructor; assumption|].
      constructor; [exact D|].
      eapply Forall_impl; [|exact Hw].
      intros z Hz. unfold descending in *. eapply leb_trans; eassumption.
Qed.

Lemma sort_descending : forall a,
  Forall ranked a -> StronglySorted descending (sort byStrength a).
Proof.
  intros a Ra. induction Ra as [|v rest Rv Rrest IH]; simpl.
  - constructor.
  - apply sort_insert_descending; [assumption| |assumption].
    eapply Permutation_Forall; [apply Permutation_sym, sort_perm | assumption].
Qed.

(** Results of one magnitude keep their order. *)
Lemma sort_insert_stable : forall s v a,
  filter (ofStrength s) (sort_insert byStrength v a) = filter (ofStrength s) (v :: a).
Proof.
  intros s v a. induction a as [|w rest IH]; [reflexivity|].
  cbn [sort_insert]. rewrite byStrength_positive.
  destruct (strength v <? strength w)%float eqn:C; [|reflexivity].
  cbn [filter] in *. rewrite IH.
  destruct (ofStrength s v) eqn:Pv; [|reflexivity].
  destruct (ofStrength s w) eqn:Pw; [|reflexivity].
  unfold ofStrength in Pv, Pw.
  rewrite (@eqb_not_ltb _ _ _ Pv Pw) in C. discriminate.
Qed.

Lemma sort_stable : forall s a,
  filter (ofStrength s) (sort byStrength a) = filter (ofStrength s) a.
Proof.
  intros s a. induction a as [|v rest IH]; [reflexivity|].
  cbn [sort]. rewrite sort_insert_stable. cbn [filter]. rewrite IH. reflexivity.
Qed.

(** The array [strong] before it is sorted. *)
Lemma strong_collected : forall (threshold : number) (matrix : Matrix) acc,
  fold_left (fun strong entry =>
    fold_left (fun strong inner =>
      let result := snd inner in
      if strongEnough threshold result then strong ++ [result] else strong)
      (snd entry) strong) matrix acc
  = acc ++ filter (strongEnough threshold) (storedResults matrix).
Proof.
  intros threshold.
  assert (Inner : forall (errorMap : Dict CorrelationResult) acc,
    fold_left (fun strong inner =>
      let result := snd inner in
      if strongEnough threshold result then strong ++ [result] else strong)
      errorMap acc
    = acc ++ filter (strongEnough threshold) (values errorMap)).
  { induction errorMap as [|[k r] rest IH]; intros acc; simpl.
    - rewrite app_nil_r. reflexivity.
    - rewrite IH. destruct (strongEnough threshold r); [|reflexivity].
      rewrite <- app_assoc. reflexivity. }
  induction matrix as [|[d errorMap] rest IH]; intros acc; simpl.
  - rewrite app_nil_r. reflexivity.
  - rewrite IH, Inner. unfold storedResults. simpl.
    rewrite filter_app, app_assoc. reflexivity.
Qed.

Lemma findStrongestCorrelations_sorted : forall matrix threshold,
  findStrongestCorrelations matrix threshold =
  sort byStrength
    (filter (strongEnough (nullish threshold 0.5%float)) (storedResults matrix)).
Proof.
  intros matrix threshold. unfold findStrongestCorrelations.
  cbv zeta. rewrite strong_collected. reflexivity.
Qed.

(** The test of the loop is the selection of the statement. *)
Lemma strongEnough_selected : forall threshold r,
  strongEnough (nullish threshold 0.5%float) r = selected threshold r.
Proof. intros [t|] r; reflexivity. Qed.

Lemma findStrongestCorrelations_selected : forall matrix threshold,
  findStrongestCorrelations matrix threshold =
  sort byStrength (filter (selected threshold) (storedResults matrix)).
Proof.
  intros matrix threshold. rewrite findStrongestCorrelations_sorted.
  f_equal. apply filter_ext. intros r. apply strongEnough_selected.
Qed.

(** C5.  [findStrongestCorrelations] returns exactly the stored results
    whose absolute coefficient is at least the threshold (0.5 when
    omitted) -- each as often as it is stored --, in descending order of
    absolute coefficient, results of equal magnitude keeping the order in
    which the matrix is traversed; with threshold 0.9 on a matrix whose
    coefficients are all 0.5 the result is empty. *)
Theorem findStrongestCorrelations_ranked :
  forall (matrix : Matrix) (threshold : option number),
    Permutation
      (findStrongestCorrelations matrix threshold)
      (filter (selected threshold) (storedResults matrix))
    /\ (forall r,
          In r (findStrongestCorrelations matrix threshold) <->
          In r (storedResults matrix)
          /\ (match threshold with Some t => t | None => 0.5%float end
                <=? PrimFloat.abs (coefficient r))%float = true)
    /\ StronglySorted descending (findStrongestCorrelations matrix threshold)
    /\ (forall s : number,
          filter (ofStrength s) (findStrongestCorrelations matrix threshold) =
          filter (ofStrength s)
            (filter (selected threshold) (storedResults matrix)))
    /\ ((forall r, In r (storedResults matrix) -> coefficient r = 0.5%float) ->
        findStrongestCorrelations matrix (Some 0.9%float) = []).
Proof.
  intros matrix threshold. rewrite findStrongestCorrelations_selected.
  split; [|split; [|split; [|split]]].
  - apply sort_perm.
  - intros r. rewrite (Permutation_in_iff' r (sort_perm byStrength _)).
    rewrite filter_In. destruct threshold as [t|]; reflexivity.
  - apply sort_descending. apply Forall_forall. intros r Hr.
    apply filter_In in Hr. destruct Hr as [_ Hr].
    unfold ranked. destruct threshold as [t|]; eapply leb_not_nan_r; exact Hr.
  - intros s. apply sort_stable.
  - intros Half. rewrite findStrongestCorrelations_selected.
    replace (filter (selected (Some 0.9%float)) (storedResults matrix))
      with (@nil CorrelationResult); [reflexivity|].
    symmetry. induction (storedResults matrix) as [|r rest IH]; [reflexivity|].
    cbn [filter]. unfold selected at 1, strength, Math_abs.
    rewrite (Half r) by (left; reflexivity).
    cbn. apply IH. intros r' Hr'. apply Half. right. exact Hr'.
Qed.

End Ranking.

(* ================================================================== *)
(** * Prediction *)
(* ================================================================== *)

Section Prediction.
Import JS Types CorrelationAnalyzer Spec Examples.

(** C3 (as the code has it).  The prediction holds the entry [p : w]
    exactly when [p] is not [__proto__] and some model targeting [p] is
    usable -- its rSquared is strictly above 0.3, its coefficients array
    is present with at least 2 entries (as in every model that
    [buildPredictionModel] builds), and its input dimension is a key of the
    extracted input vector or else the name of a member of
    [Object.prototype], for which the input value is no number and the
    entry is NaN -- and [w] is
    [coefficients[0] + coefficients[1] * inputValue] for the last such
    model of the sequence.  A model with rSquared <= 0.3 changes
    nothing. *)
Theorem predictParameters_entries :
  forall (gpsError : GPSErrorFile) (models : list PredictionModel),
    (forall p w,
       get (predictParameters gpsError models) p = Some w <->
       p <> "__proto__" /\
       exists ms1 m ms2,
         models = ms1 ++ m :: ms2 /\
         outputParameter m = p /\
         usable (FileParser.extractGPSErrorDimensions (Types.gpsError gpsError)) m w /\
         forall m' w',
           In m' ms2 -> outputParameter m' = p ->
           ~ usable (FileParser.extractGPSErrorDimensions (Types.gpsError gpsError)) m' w')
    /\ (forall ms1 m ms2,
          models = ms1 ++ m :: ms2 ->
          (rSquared m <=? 0.3)%float = true ->
          predictParameters gpsError models = predictParameters gpsError (ms1 ++ ms2)).
Proof.
  intros gpsError models. split.
  - intros p w. unfold predictParameters. apply predict_loop_spec.
  - intros ms1 m ms2 -> R. unfold predictParameters.
    rewrite !fold_left_app. cbn [fold_left]. f_equal.
    destruct (predictStep_cases
                (FileParser.extractGPSErrorDimensions (Types.gpsError gpsError))
                (fold_left
                   (predictStep (FileParser.extractGPSErrorDimensions (Types.gpsError gpsError)))
                   ms1 []) m) as [(w & U & _)|[_ E]]; [|exact E].
    destruct U as (v & cs & _ & _ & _ & G & _).
    apply leb_not_gtb in R. congruence.
Qed.

Lemma predictParameters_entries_witness :
  get (predictParameters gpsError_x3 [model_2x]) "rPosX" = Some 6%float.
Proof.
  apply (proj1 (predictParameters_entries gpsError_x3 [model_2x])).
  split; [discriminate|].
  exists [], model_2x, []. repeat split.
  - exists 3%float, [0%float; 2%float]. repeat split.
    + left. reflexivity.
    + simpl. lia.
  - intros m' w' [].
Defined.

(** C3 (as stated) fails on linear models with two coefficients and
    rSquared 0.9.  The input dimension [constructor] is not in the input
    vector, yet an entry is emitted for the output parameter, and it is
    NaN: [gpsErrorDims['constructor']] is the inherited function, not
    [undefined].  The input dimension [position.x] is in the input vector,
    yet no entry is emitted for the output parameter [__proto__]. *)
Lemma predictParameters_prototype_names :
  get (FileParser.extractGPSErrorDimensions (Types.gpsError blank_gpsError))
      (inputDimension model_constructor) = None
  /\ coefficients model_constructor = Some [0%float; 2%float]
  /\ (0.3 <? rSquared model_constructor)%float = true
  /\ option_map isNaN
       (get (predictParameters blank_gpsError [model_constructor])
            (outputParameter model_constructor)) = Some true
  /\ get (FileParser.extractGPSErrorDimensions (Types.gpsError blank_gpsError))
         (inputDimension model_proto) = Some 0%float
  /\ coefficients model_proto = Some [0%float; 2%float]
  /\ (0.3 <? rSquared model_proto)%float = true
  /\ predictParameters blank_gpsError [model_proto] = [].
Proof. repeat split. Qed.

(** C10.  A model whose coefficients array is absent or has fewer than 2
    entries contributes nothing to the prediction, whatever its rSquared
    and input dimension: the result is that of the sequence without it. *)
Theorem predictParameters_skips_short_coefficients :
  forall (gpsError : GPSErrorFile) (ms1 : list PredictionModel) (m : PredictionModel)
         (ms2 : list PredictionModel),
    coefficients m = None
    \/ (exists cs, coefficients m = Some cs /\ List.length cs < 2) ->
    predictParameters gpsError (ms1 ++ m :: ms2) = predictParameters gpsError (ms1 ++ ms2).
Proof.
  intros gpsError ms1 m ms2 H. unfold predictParameters.
  rewrite !fold_left_app. cbn [fold_left].
  rewrite predictStep_short_coefficients by exact H. reflexivity.
Qed.

Lemma predictParameters_skips_short_coefficients_witness :
  (0.3 <? rSquared model_one_coefficient)%float = true
  /\ predictParameters blank_gpsError ([model_2x] ++ model_one_coefficient :: [])
     = predictParameters blank_gpsError ([model_2x] ++ []).
Proof.
  split; [reflexivity|].
  apply predictParameters_skips_short_coefficients.
  right. exists [1%float]. split; [reflexivity | simpl; lia].
Defined.

End Prediction.

(* ================================================================== *)
(** * Linear regression: the formulas and division by zero *)
(* ================================================================== *)

Section Regression.
Import JS Types CorrelationAnalyzer Spec.

(** The values computed are those of the least-squares formulas. *)
Lemma linearRegression_formula : forall xValues yValues : list number,
  List.length xValues = List.length yValues ->
  2 <= List.length xValues ->
  linearRegression xValues yValues = leastSquares xValues yValues.
Proof.
  intros xValues yValues E L. unfold linearRegression.
  assert (N : length_number xValues = length_number yValues)
    by (unfold length_number; rewrite E; reflexivity).
  destruct (Nat.ltb_spec (List.length xValues) 2) as [L'|_]; [lia|].
  apply Nat.eqb_eq in E. rewrite E. cbn [negb orb]. cbv zeta.
  apply Nat.eqb_eq in E.
  rewrite !reduce_sum, !reduce_squares, (@reduce_products xValues yValues E).
  rewrite reduce_total, (@reduce_residuals xValues yValues _ _ E).
  unfold leastSquares, leastSquaresIntercept, leastSquaresSlope, slopeDivisor,
         pearsonNumerator, varianceTerm, totalSumOfSquares.
  cbv zeta. rewrite <- N. reflexivity.
Qed.

Lemma intercept_not_finite : forall xs ys,
  PrimFloat.is_finite (leastSquaresSlope xs ys) = false ->
  PrimFloat.is_finite (leastSquaresIntercept xs ys) = false.
Proof.
  intros xs ys S. unfold leastSquaresIntercept.
  apply div_not_finite_l, sub_not_finite_r, mul_not_finite_l. exact S.
Qed.

Lemma residual_not_finite : forall xs ys b a,
  List.length xs = List.length ys -> xs <> [] ->
  PrimFloat.is_finite a = false ->
  PrimFloat.is_finite (residualSumOfSquares xs ys b a) = false.
Proof.
  intros [|x xs] [|y ys] b a E N A; try contradiction; try discriminate.
  unfold residualSumOfSquares. apply sum_not_finite.
  cbn [combine map]. apply Exists_cons_hd.
  apply mul_not_finite_l, sub_not_finite_r, add_not_finite_r. exact A.
Qed.

Lemma rSquared_not_finite : forall xs ys,
  List.length xs = List.length ys -> xs <> [] ->
  PrimFloat.is_finite (leastSquaresIntercept xs ys) = false ->
  PrimFloat.is_finite (regression_rSquared (leastSquares xs ys)) = false.
Proof.
  intros xs ys E N A. cbn [leastSquares regression_rSquared].
  apply sub_not_finite_r, div_not_finite_l, residual_not_finite; assumption.
Qed.

(** C2 (as the code has it).  On sequences of equal length, at least 2,
    [linearRegression] returns the values of the least-squares formulas,
    computed without any guard.  The slope and the intercept are finite
    whenever rSquared is; but when the divisor of the slope,
    [n * sumX2 - sumX * sumX], is exactly 0, the slope, the intercept and
    rSquared are all not finite, and when the total sum of squares is
    exactly 0, rSquared is not finite. *)
Theorem linearRegression_least_squares :
  forall xValues yValues : list number,
    List.length xValues = List.length yValues ->
    2 <= List.length xValues ->
    linearRegression xValues yValues = leastSquares xValues yValues
    /\ (isFinite (regression_rSquared (linearRegression xValues yValues)) = true ->
        isFinite (slope (linearRegression xValues yValues)) = true
        /\ isFinite (intercept (linearRegression xValues yValues)) = true)
    /\ ((slopeDivisor xValues =? 0)%float = true ->
        isFinite (slope (linearRegression xValues yValues)) = false
        /\ isFinite (intercept (linearRegression xValues yValues)) = false
        /\ isFinite (regression_rSquared (linearRegression xValues yValues)) = false)
    /\ ((totalSumOfSquares yValues =? 0)%float = true ->
        isFinite (regression_rSquared (linearRegression xValues yValues)) = false).
Proof.
  intros xValues yValues E L.
  assert (N : xValues <> []) by (destruct xValues; [simpl in L; lia | discriminate]).
  rewrite (@linearRegression_formula xValues yValues E L). unfold isFinite.
  split; [reflexivity|]. split; [|split].
  - intros R. cbn [leastSquares slope intercept].
    destruct (PrimFloat.is_finite (leastSquaresIntercept xValues yValues)) eqn:A.
    + split; [|reflexivity].
      destruct (PrimFloat.is_finite (leastSquaresSlope xValues yValues)) eqn:S;
        [reflexivity|].
      apply intercept_not_finite in S. congruence.
    + apply (@rSquared_not_finite xValues yValues E N) in A. congruence.
  - intros D. cbn [leastSquares slope intercept].
    assert (S : PrimFloat.is_finite (leastSquaresSlope xValues yValues) = false)
      by (unfold leastSquaresSlope; apply div_by_zero_not_finite; exact D).
    split; [exact S|].
    pose proof (@intercept_not_finite xValues yValues S) as A.
    split; [exact A|]. apply rSquared_not_finite; assumption.
  - intros T. cbn [leastSquares regression_rSquared].
    apply sub_not_finite_r, div_by_zero_not_finite. exact T.
Qed.

Lemma linearRegression_least_squares_witness :
  linearRegression [1; 1]%float [1; 2]%float = leastSquares [1; 1]%float [1; 2]%float
  /\ isFinite (slope (linearRegression [1; 1] [1; 2]))%float = false
  /\ isFinite (intercept (linearRegression [1; 1] [1; 2]))%float = false
  /\ isFinite (regression_rSquared (linearRegression [1; 1] [1; 2]))%float = false.
Proof.
  destruct (@linearRegression_least_squares [1; 1]%float [1; 2]%float
              eq_refl (le_n 2)) as (F & _ & Z & _).
  split; [exact F|]. apply Z. vm_compute. reflexivity.
Defined.

(** C2 (as stated) fails: two points with the same x.  The lengths are
    equal and 2, the slope and the intercept are NaN, and rSquared is not
    finite although the total sum of squares is 0.5. *)
Lemma linearRegression_constant_x :
  (List.length [1; 1]%float =? List.length [1; 2]%float)%nat = true
  /\ (2 <=? List.length [1; 1]%float)%nat = true
  /\ isNaN (slope (linearRegression [1; 1] [1; 2]))%float = true
  /\ isNaN (intercept (linearRegression [1; 1] [1; 2]))%float = true
  /\ (totalSumOfSquares [1; 2] =? 0.5)%float = true
  /\ isFinite (regression_rSquared (linearRegression [1; 1] [1; 2]))%float = false.
Proof. repeat split. Qed.

End Regression.

(* ================================================================== *)
(** * Correlation matrix *)
(* ================================================================== *)

Section MatrixFacts.
Import JS Types CorrelationAnalyzer Spec.

Variable V : Type.
Variable F : string -> V.

(** A [forEach] over keys that [set]s one entry per key. *)
Lemma get_fold_set : forall (ks : list string) (d0 : Dict V) (k : string),
  get (fold_left (fun d k' => set d k' (F k')) ks d0) k =
  if existsb (String.eqb k) ks then Some (F k) else get d0 k.
Proof.
  induction ks as [|k0 ks IH]; intros d0 k; simpl.
  - reflexivity.
  - rewrite IH, get_set.
    destruct (String.eqb k k0) eqn:E; simpl.
    + apply String.eqb_eq in E. subst k0.
      destruct (existsb (String.eqb k) ks); reflexivity.
    + reflexivity.
Qed.

Lemma keys_fold_set : forall (ks : list string) (k : string),
  In k (keys (fold_left (fun d k' => set d k' (F k')) ks [])) <-> In k ks.
Proof.
  intros ks k. rewrite get_in_keys, get_fold_set. simpl.
  destruct (existsb (String.eqb k) ks) eqn:E.
  - apply existsb_exists in E. destruct E as (k' & Hin & E).
    apply String.eqb_eq in E. subst k'. split; eauto.
  - split.
    + intros [v H]. discriminate.
    + intros Hin. exfalso.
      assert (existsb (String.eqb k) ks = true); [|congruence].
      apply existsb_exists. exists k. split; [exact Hin | apply String.eqb_refl].
Qed.

End MatrixFacts.

Section Matrix.
Import JS Types CorrelationAnalyzer Spec Examples.

Lemma validPair_pointOf : forall errorDim param run,
  match validPair (get (Run.gpsErrors run) errorDim) (get (Run.finalParams run) param) with
  | Some (xv, yv) => Some (DataPoint.mk xv yv (Run.label run))
  | None => None
  end = pointOf errorDim param run.
Proof.
  intros errorDim param run. unfold validPair, pointOf.
  destruct (get (Run.gpsErrors run) errorDim) as [xv|]; [|reflexivity].
  destruct (get (Run.finalParams run) param) as [yv|]; [|reflexivity].
  unfold isNaN, isFinite.
  destruct (PrimFloat.is_finite xv) eqn:Fx.
  - destruct (PrimFloat.is_finite yv) eqn:Fy.
    + rewrite (is_finite_not_nan _ Fx), (is_finite_not_nan _ Fy). reflexivity.
    + rewrite andb_false_r. reflexivity.
  - rewrite andb_false_r. reflexivity.
Qed.

(** The three arrays filled by the inner loop. *)
Lemma pairValues_spec : forall allRuns errorDim param,
  pairValues allRuns errorDim param =
  (map DataPoint.x (filter_map (pointOf errorDim param) allRuns),
   map DataPoint.y (filter_map (pointOf errorDim param) allRuns),
   filter_map (pointOf errorDim param) allRuns).
Proof.
  intros allRuns errorDim param. unfold pairValues.
  assert (G : forall runs xs ys ps,
    fold_left (fun '(xValues, yValues, dataPoints) run =>
      match validPair (get (Run.gpsErrors run) errorDim)
                      (get (Run.finalParams run) param) with
      | Some (xv, yv) =>
          (xValues ++ [xv], yValues ++ [yv],
           dataPoints ++ [DataPoint.mk xv yv (Run.label run)])
      | None => (xValues, yValues, dataPoints)
      end) runs (xs, ys, ps)
    = (xs ++ map DataPoint.x (filter_map (pointOf errorDim param) runs),
       ys ++ map DataPoint.y (filter_map (pointOf errorDim param) runs),
       ps ++ filter_map (pointOf errorDim param) runs)).
  { induction runs as [|run runs IH]; intros xs ys ps; cbn [fold_left filter_map].
    - simpl. rewrite !app_nil_r. reflexivity.
    - rewrite <- (validPair_pointOf errorDim param run).
      destruct (validPair (get (Run.gpsErrors run) errorDim)
                          (get (Run.finalParams run) param)) as [[xv yv]|].
      + rewrite IH. cbn [map DataPoint.x DataPoint.y].
        rewrite <- !app_assoc. reflexivity.
      + apply IH. }
  apply (G allRuns [] [] []).
Qed.

Lemma correlationResult_spec : forall allRuns errorDim param,
  correlationResult allRuns errorDim param =
  {| xLabel := errorDim;
     yLabel := param;
     coefficient :=
       calculateCorrelation
         (map DataPoint.x (filter_map (pointOf errorDim param) allRuns))
         (map DataPoint.y (filter_map (pointOf errorDim param) allRuns));
     dataPoints := filter_map (pointOf errorDim param) allRuns |}.
Proof.
  intros allRuns errorDim param. unfold correlationResult.
  rewrite pairValues_spec. reflexivity.
Qed.

(** Reading the matrix built from a non-empty run list. *)
Lemma get_correlateRuns : forall first rest errorDim,
  get (correlateRuns (first :: rest)) errorDim =
  if existsb (String.eqb errorDim) (keys (Run.gpsErrors first))
  then Some (fold_left (fun errorMap param =>
               set errorMap param (correlationResult (first :: rest) errorDim param))
               (keys (Run.finalParams first)) [])
  else None.
Proof.
  intros first rest errorDim. unfold correlateRuns.
  apply (get_fold_set
           (fun errorDim => fold_left (fun errorMap param =>
              set errorMap param (correlationResult (first :: rest) errorDim param))
              (keys (Run.finalParams first)) [])).
Qed.

(** C6.  In the matrix built from a non-empty observation sequence, the
    input dimensions are the keys of the first observation's input
    vector, and every input dimension maps to the same set of output
    parameters: the keys of the first observation's output vector. *)
Theorem correlateRuns_keys :
  forall (first : Run.t) (rest : list Run.t),
    (forall errorDim,
       In errorDim (keys (correlateRuns (first :: rest))) <->
       In errorDim (keys (Run.gpsErrors first)))
    /\ (forall errorDim errorMap,
          get (correlateRuns (first :: rest)) errorDim = Some errorMap ->
          forall param,
            In param (keys errorMap) <-> In param (keys (Run.finalParams first))).
Proof.
  intros first rest. split.
  - intros errorDim. unfold correlateRuns.
    apply (keys_fold_set
             (fun errorDim => fold_left (fun errorMap param =>
                set errorMap param (correlationResult (first :: rest) errorDim param))
                (keys (Run.finalParams first)) [])).
  - intros errorDim errorMap H param. rewrite get_correlateRuns in H.
    destruct (existsb (String.eqb errorDim) (keys (Run.gpsErrors first)));
      [|discriminate].
    injection H as <-.
    apply (keys_fold_set (correlationResult (first :: rest) errorDim)).
Qed.

Lemma correlateRuns_keys_witness :
  In "rPosX" (keys [("rPosX", correlationResult two_runs "position.x" "rPosX")]) <->
  In "rPosX" (keys (FileParser.extractFinalParameters (only_rPosX 1.1%float))).
Proof.
  apply (proj2 (correlateRuns_keys
                  (Run.mk (FileParser.extractGPSErrorDimensions
                             (GPSErrorData.mk
                                (Some (Vector3D.mk (Some 0.1%float) None None))
                                None None None))
                          (FileParser.extractFinalParameters (only_rPosX 1.1%float))
                          "sections.json - a")
                  (tl two_runs)) "position.x").
  reflexivity.
Defined.




End Matrix.

(* ================================================================== *)
(** * Exceptions in matrix construction *)
(* ================================================================== *)

Section Exceptions.
Import JS Types CorrelationAnalyzer Spec Examples.

Lemma forEach_push_nothing : forall (A B : Type) (body : A -> result (list B)) a acc,
  (forall v, In v a -> body v = Ok []) -> forEach_push body a acc = Ok acc.
Proof.
  intros A B body a. induction a as [|v rest IH]; intros acc H; simpl.
  - reflexivity.
  - rewrite (H v) by (left; reflexivity). simpl. rewrite app_nil_r.
    apply IH. intros w Hw. apply H. right. exact Hw.
Qed.

Lemma forEach_push_ok : forall (A B : Type) (body : A -> result (list B)) a acc,
  (forall v, In v a -> exists pushed, body v = Ok pushed) ->
  exists all, forEach_push body a acc = Ok all.
Proof.
  intros A B body a. induction a as [|v rest IH]; intros acc H; simpl.
  - eauto.
  - destruct (H v) as [pushed E]; [left; reflexivity|].
    rewrite E. simpl. apply IH. intros w Hw. apply H. right. exact Hw.
Qed.

Lemma collectRuns_nothing : forall Number_toString sweepFiles,
  Forall file_without_runs sweepFiles ->
  collectRuns Number_toString sweepFiles = Ok [].
Proof.
  intros Number_toString sweepFiles H. unfold collectRuns.
  apply forEach_push_nothing. intros file Hin.
  rewrite Forall_forall in H. specialize (H file Hin).
  unfold file_without_runs in H.
  destruct (LoadedFile.data file) as [sweep|sectionSweep|t].
  - destruct H as [G R]. rewrite R.
    destruct (SweepSummary.gpsError sweep); [reflexivity | contradiction].
  - rewrite H. reflexivity.
  - reflexivity.
Qed.

Lemma collectRuns_typed : forall Number_toString sweepFiles,
  Forall file_typed sweepFiles ->
  exists allRuns, collectRuns Number_toString sweepFiles = Ok allRuns.
Proof.
  intros Number_toString sweepFiles H. unfold collectRuns.
  apply forEach_push_ok. intros file Hin.
  rewrite Forall_forall in H. specialize (H file Hin).
  unfold file_typed in H.
  destruct (LoadedFile.data file) as [sweep|sectionSweep|t].
  - destruct H as [G R].
    destruct (SweepSummary.gpsError sweep) as [g|]; [|contradiction].
    cbn [FileParser.extractGPSErrorDimensions_any deref bind].
    apply forEach_push_ok. intros result Hr.
    rewrite Forall_forall in R. specialize (R result Hr).
    unfold sweepResult_typed in R.
    destruct (SweepResult.finalParams result) as [params|]; [|contradiction].
    cbn [FileParser.extractFinalParameters_any deref bind]. eauto.
  - apply forEach_push_ok. intros sec Hs.
    rewrite Forall_forall in H. specialize (H sec Hs).
    destruct H as (S & G & b & B & P).
    unfold FileParser.extractGPSErrorDimensions_any,
           FileParser.extractFinalParameters_any.
    destruct (SectionSweepResult.gpsErrorProfile sec) as [g|]; [|contradiction].
    rewrite B. cbn [deref bind].
    destruct (SectionSweepResult.finalParameters b) as [params|]; [|contradiction].
    destruct (SectionSweepResult.section sec) as [info|]; [|contradiction].
    cbn [deref bind]. eauto.
  - eauto.
Qed.

(** C9 (as the code has it).  Files that contribute no run give the empty
    matrix, and files whose [gpsError], run parameters and section fields
    are present, as the interfaces declare, give a matrix: in both cases
    no exception arises. *)
Theorem buildCorrelationMatrix_returns :
  forall (Number_toString : number -> string) (sweepFiles : list LoadedFile.t),
    (Forall file_without_runs sweepFiles ->
       buildCorrelationMatrix Number_toString sweepFiles = Ok [])
    /\ (Forall file_typed sweepFiles ->
         exists matrix, buildCorrelationMatrix Number_toString sweepFiles = Ok matrix).
Proof.
  intros Number_toString sweepFiles. unfold buildCorrelationMatrix. split.
  - intros H. rewrite collectRuns_nothing by exact H. reflexivity.
  - intros H. destruct (collectRuns_typed Number_toString H) as [allRuns ->].
    simpl. eauto.
Qed.

Lemma buildCorrelationMatrix_returns_witness :
  buildCorrelationMatrix no_text [csv_file] = Ok [].
Proof.
  apply (proj1 (buildCorrelationMatrix_returns no_text [csv_file])).
  constructor; [exact I | constructor].
Defined.

(** C9 (as stated) fails: a sweep summary without [gpsError] makes
    [extractGPSErrorDimensions] read a property of [undefined]. *)
Lemma buildCorrelationMatrix_throws :
  buildCorrelationMatrix no_text [summary_without_gpsError] = Throw TypeError.
Proof. reflexivity. Qed.

End Exceptions.

(* ================================================================== *)
(** * The embedding on concrete inputs *)
(* ================================================================== *)

Section Checks.
Import JS Types CorrelationAnalyzer Spec Examples.

(** The input vector always has the same 18 dimensions. *)
Lemma extractGPSErrorDimensions_keys : forall gpsError : GPSErrorData.t,
  keys (FileParser.extractGPSErrorDimensions gpsError) =
  [ "position.x"; "position.y"; "position.z";
    "velocity.x"; "velocity.y"; "velocity.z";
    "acceleration.x"; "acceleration.y"; "acceleration.z";
    "fuzziness.position.x"; "fuzziness.position.y"; "fuzziness.position.z";
    "fuzziness.velocity.x"; "fuzziness.velocity.y"; "fuzziness.velocity.z";
    "fuzziness.acceleration.x"; "fuzziness.acceleration.y"; "fuzziness.acceleration.z" ].
Proof. intros gpsError. reflexivity. Qed.

Example calculateCorrelation_line :
  calculateCorrelation [1; 2; 3]%float [2; 4; 6]%float = 1%float.
Proof. vm_compute. reflexivity. Qed.

Example calculateCorrelation_empty :
  calculateCorrelation [] [] = 0%float
  /\ calculateCorrelation [1%float] [2; 3]%float = 0%float.
Proof. split; reflexivity. Qed.

Example linearRegression_identity :
  linearRegression [0; 1; 2]%float [0; 1; 2]%float =
  {| slope := 1%float; intercept := 0%float; regression_rSquared := 1%float |}.
Proof. vm_compute. reflexivity. Qed.

Example findStrongestCorrelations_small_matrix :
  map coefficient (findStrongestCorrelations small_matrix None)
    = [(-0.9)%float; 0.9%float; 0.5%float]
  /\ findStrongestCorrelations small_matrix (Some 0.95%float) = [].
Proof. split; vm_compute; reflexivity. Qed.

(** End to end: correlation 1, slope 2, intercept 0, rSquared 1, and the
    prediction 6 for position.x = 3. *)
Example doubling_end_to_end :
  match buildCorrelationMatrix no_text [doubling_sections] with
  | Ok matrix =>
      match matrix_get matrix "position.x" "rPosX" with
      | Some r =>
          coefficient r = 1%float
          /\ coefficients (buildPredictionModel r) = Some [0%float; 2%float]
          /\ rSquared (buildPredictionModel r) = 1%float
          /\ predictParameters gpsError_x3 [buildPredictionModel r]
               = [("rPosX", 6%float)]
      | None => False
      end
  | Throw _ => False
  end.
Proof. vm_compute. repeat split. Qed.

End Checks.

(* ================================================================== *)
(** * More on insertion-ordered dictionaries *)
(* ================================================================== *)

Section DictInvariants.
Import JS.
Variable V : Type.
Implicit Types (d : Dict V) (k : string) (v : V).

Lemma set_entry : forall d k v k' v',
  In (k', v') (set d k v) -> (k' = k /\ v' = v) \/ In (k', v') d.
Proof.
  induction d as [|[k0 v0] d IH]; intros k v k' v' H; simpl in H.
  - destruct H as [[= <- <-]|[]]. auto.
  - destruct (String.eqb k k0) eqn:E.
    + apply String.eqb_eq in E. subst k0.
      destruct H as [[= <- <-]|H]; [auto | right; right; exact H].
    + destruct H as [H|H]; [right; left; exact H|].
      apply IH in H. destruct H; [auto | right; right; assumption].
Qed.

(** Assigning keeps the keys distinct. *)
Lemma set_NoDup : forall d k v, NoDup (keys d) -> NoDup (keys (set d k v)).
Proof.
  unfold keys.
  induction d as [|[k0 v0] d IH]; intros k v H; simpl.
  - constructor; [intros [] | constructor].
  - inversion H as [|? ? Hin Hnd]; subst.
    destruct (String.eqb k k0) eqn:E; simpl.
    + constructor; assumption.
    + constructor; [|apply IH; assumption].
      intros Hk. apply (keys_set d k v k0) in Hk. destruct Hk as [->|Hk].
      * rewrite String.eqb_refl in E. discriminate.
      * contradiction.
Qed.

Lemma set_new_key : forall d k v, ~ In k (keys d) -> set d k v = d ++ [(k, v)].
Proof.
  unfold keys.
  induction d as [|[k0 v0] d IH]; intros k v H; simpl.
  - reflexivity.
  - destruct (String.eqb k k0) eqn:E.
    + apply String.eqb_eq in E. subst k0. exfalso. apply H. left. reflexivity.
    + rewrite IH; [reflexivity|]. intros Hk. apply H. right. exact Hk.
Qed.

Lemma get_in_keys_none : forall d k, get d k = None -> ~ In k (keys d).
Proof.
  intros d k N Hin. apply get_in_keys in Hin. destruct Hin as [v Hv]. congruence.
Qed.

Variable F : string -> V.

(** A loop that sets [F k] for each key [k] of a duplicate-free list
    builds the entries in the order of the list. *)
Lemma fold_set_fresh : forall (ks : list string) d0,
  NoDup (keys d0 ++ ks) ->
  fold_left (fun d k => set d k (F k)) ks d0 = d0 ++ map (fun k => (k, F k)) ks.
Proof.
  induction ks as [|k ks IH]; intros d0 H; simpl.
  - rewrite app_nil_r. reflexivity.
  - assert (Hk : ~ In k (keys d0)).
    { apply NoDup_remove_2 in H. intros Hk. apply H. apply in_or_app. auto. }
    rewrite (@set_new_key d0 k (F k) Hk). rewrite IH.
    + rewrite <- app_assoc. reflexivity.
    + unfold keys in *. rewrite map_app. simpl. rewrite <- app_assoc. exact H.
Qed.

(** Whatever the keys, every entry the loop leaves holds [F] of its key. *)
Lemma fold_set_entry : forall (ks : list string) d0 k v,
  In (k, v) (fold_left (fun d k => set d k (F k)) ks d0) ->
  In (k, v) d0 \/ (In k ks /\ v = F k).
Proof.
  induction ks as [|k0 ks IH]; intros d0 k v H; simpl in H.
  - auto.
  - apply IH in H. destruct H as [H|[H ->]].
    + apply set_entry in H. destruct H as [[-> ->]|H]; [|auto].
      right. split; [left; reflexivity | reflexivity].
    + right. split; [right; exact H | reflexivity].
Qed.

End DictInvariants.

(* ================================================================== *)
(** * The aggregated runs *)
(* ================================================================== *)

Section Aggregated.
Import JS Types CorrelationAnalyzer Spec Spec2 App.

Variable Number_toString : number -> string.

Lemma forEach_push_invariant :
  forall (A B : Type) (P : B -> Prop) (count : A -> nat)
         (body : A -> result (list B)),
    (forall v pushed, body v = Ok pushed ->
       Forall P pushed /\ List.length pushed = count v) ->
    forall a acc all,
      forEach_push body a acc = Ok all ->
      Forall P acc ->
      Forall P all
      /\ List.length all = fold_left (fun n v => n + count v) a (List.length acc).
Proof.
  intros A B P count body Hbody.
  induction a as [|v rest IH]; intros acc all H Hacc; simpl in H |- *.
  - injection H as <-. auto.
  - destruct (body v) as [pushed|e] eqn:E; [|discriminate].
    simpl in H. destruct (Hbody v pushed E) as [Hp Hl].
    apply IH in H.
    + rewrite length_app, Hl in H. exact H.
    + apply Forall_app. auto.
Qed.

Lemma count_each_once : forall (A : Type) (a : list A),
  fold_left (fun n (_ : A) => n + 1) a 0 = List.length a.
Proof.
  intros A a.
  assert (G : forall n, fold_left (fun n (_ : A) => n + 1) a n = n + List.length a).
  { induction a as [|v rest IH]; intros n; simpl; [lia|]. rewrite IH. lia. }
  apply (G 0).
Qed.

(** What one file contributes, when reading it does not throw. *)
Lemma collectRuns_file : forall (file : LoadedFile.t) pushed,
  match LoadedFile.data file with
  | sweep_summary sweep =>
      let* gpsErrors :=
        FileParser.extractGPSErrorDimensions_any (SweepSummary.gpsError sweep) in
      forEach_push (fun result =>
        let* finalParams :=
          FileParser.extractFinalParameters_any (SweepResult.finalParams result) in
        Ok [Run.mk gpsErrors finalParams
              (LoadedFile.name file ++ " - Run "
                 ++ Number_toString (SweepResult.runIndex result))])
        (SweepSummary.allResults sweep) []
  | section_sweep sectionSweep =>
      forEach_push (fun section =>
        let* gpsErrors :=
          FileParser.extractGPSErrorDimensions_any
            (SectionSweepResult.gpsErrorProfile section) in
        let* bestResult := deref (SectionSweepResult.bestResult section) in
        let* finalParams :=
          FileParser.extractFinalParameters_any
            (SectionSweepResult.finalParameters bestResult) in
        let* info := deref (SectionSweepResult.section section) in
        Ok [Run.mk gpsErrors finalParams
              (LoadedFile.name file ++ " - " ++ SectionSweepResult.name info)])
        (SectionSweep.sections sectionSweep) []
  | other _ => Ok []
  end = Ok pushed ->
  Forall extracted_run pushed /\ List.length pushed = runsOf file.
Proof.
  intros file pushed. unfold runsOf.
  destruct (LoadedFile.data file) as [sweep|sectionSweep|t].
  - unfold FileParser.extractGPSErrorDimensions_any.
    destruct (SweepSummary.gpsError sweep) as [g|]; [|discriminate].
    cbn [deref bind]. intros H.
    apply (@forEach_push_invariant _ _ extracted_run (fun _ => 1)) in H.
    + destruct H as [HP HL]. split; [exact HP|]. rewrite HL.
      apply count_each_once.
    + intros result one. unfold FileParser.extractFinalParameters_any.
      destruct (SweepResult.finalParams result) as [p|]; [|discriminate].
      cbn [deref bind]. intros [= <-]. split; [|reflexivity].
      constructor; [|constructor]. exists g, p. split; reflexivity.
    + constructor.
  - intros H.
    apply (@forEach_push_invariant _ _ extracted_run (fun _ => 1)) in H.
    + destruct H as [HP HL]. split; [exact HP|]. rewrite HL.
      apply count_each_once.
    + intros sec one.
      unfold FileParser.extractGPSErrorDimensions_any,
             FileParser.extractFinalParameters_any.
      destruct (SectionSweepResult.gpsErrorProfile sec) as [g|]; [|discriminate].
      cbn [deref bind].
      destruct (SectionSweepResult.bestResult sec) as [b|]; [|discriminate].
      cbn [deref bind].
      destruct (SectionSweepResult.finalParameters b) as [p|]; [|discriminate].
      cbn [deref bind].
      destruct (SectionSweepResult.section sec) as [info|]; [|discriminate].
      cbn [deref bind]. intros [= <-]. split; [|reflexivity].
      constructor; [|constructor]. exists g, p. split; reflexivity.
    + constructor.
  - intros [= <-]. split; [constructor | reflexivity].
Qed.

Lemma totalRuns_sum : forall sweepFiles n,
  fold_left (fun n file => n + runsOf file) sweepFiles n
  = n + totalRuns sweepFiles.
Proof.
  unfold totalRuns. intros sweepFiles.
  assert (G : forall files n m,
    fold_left (fun n file => n + runsOf file) files (n + m)
    = n + fold_left (fun totalRuns file =>
        match LoadedFile.data file with
        | sweep_summary sweep => totalRuns + List.length (SweepSummary.allResults sweep)
        | section_sweep sectionSweep =>
            totalRuns + List.length (SectionSweep.sections sectionSweep)
        | other _ => totalRuns
        end) files m).
  { induction files as [|f fs IH]; intros n m; simpl; [reflexivity|].
    unfold runsOf at 2.
    destruct (LoadedFile.data f); rewrite <- IH; f_equal; lia. }
  intros n. rewrite <- (G sweepFiles n 0). f_equal. lia.
Qed.

Lemma collectRuns_runs : forall sweepFiles allRuns,
  collectRuns Number_toString sweepFiles = Ok allRuns ->
  Forall extracted_run allRuns /\ List.length allRuns = totalRuns sweepFiles.
Proof.
  intros sweepFiles allRuns H. unfold collectRuns in H.
  apply (@forEach_push_invariant _ _ extracted_run runsOf) in H.
  - destruct H as [HP HL]. split; [exact HP|].
    rewrite HL. simpl. apply (totalRuns_sum sweepFiles 0).
  - intros file pushed. apply collectRuns_file.
  - constructor.
Qed.

End Aggregated.

(* ================================================================== *)
(** * The keys of the extracted vectors *)
(* ================================================================== *)

Section ExtractedKeys.
Import JS Types FileParser Spec2.

(** X1.  The input vector has the same 18 keys, in the same order,
    whatever the GPS error object holds; a dimension is never undefined;
    and without a [fuzziness] object the nine fuzziness dimensions are
    0. *)
Theorem extractGPSErrorDimensions_vector :
  forall gpsError : GPSErrorData.t,
    keys (extractGPSErrorDimensions gpsError) = dimensionNames
    /\ (forall d, In d dimensionNames ->
          exists v, get (extractGPSErrorDimensions gpsError) d = Some v)
    /\ (GPSErrorData.fuzziness gpsError = None ->
        forall d, In d (skipn 9 dimensionNames) ->
          get (extractGPSErrorDimensions gpsError) d = Some 0%float).
Proof.
  intros gpsError. split; [reflexivity|]. split.
  - intros d Hd. apply get_in_keys. exact Hd.
  - intros Hf d Hd. unfold extractGPSErrorDimensions. rewrite Hf.
    simpl in Hd.
    repeat (destruct Hd as [<-|Hd]; [reflexivity|]). contradiction.
Qed.

Lemma extractGPSErrorDimensions_vector_witness :
  get (extractGPSErrorDimensions (GPSErrorData.mk None None None None))
      "fuzziness.velocity.y" = Some 0%float.
Proof.
  apply (proj2 (proj2 (extractGPSErrorDimensions_vector
                         (GPSErrorData.mk None None None None)))).
  - reflexivity.
  - simpl. tauto.
Defined.

Lemma keys_copy_if_defined : forall extracted k v k',
  In k' (keys (copy_if_defined extracted k v)) -> k' = k \/ In k' (keys extracted).
Proof.
  intros extracted k [n|] k' H; simpl in H.
  - apply keys_set in H. exact H.
  - auto.
Qed.

Lemma keys_split_if_defined : forall extracted kX kZ v k',
  In k' (keys (split_if_defined extracted kX kZ v)) ->
  k' = kX \/ k' = kZ \/ In k' (keys extracted).
Proof.
  intros extracted kX kZ [n|] k' H; simpl in H.
  - apply keys_set in H. destruct H as [H|H]; [auto|].
    apply keys_set in H. destruct H; auto.
  - auto.
Qed.

Lemma copy_if_defined_NoDup : forall extracted k v,
  NoDup (keys extracted) -> NoDup (keys (copy_if_defined extracted k v)).
Proof.
  intros extracted k [n|] H; simpl; [apply set_NoDup|]; exact H.
Qed.

Lemma split_if_defined_NoDup : forall extracted kX kZ v,
  NoDup (keys extracted) -> NoDup (keys (split_if_defined extracted kX kZ v)).
Proof.
  intros extracted kX kZ [n|] H; simpl; [apply set_NoDup, set_NoDup|]; exact H.
Qed.

Lemma extractFinalParameters_NoDup : forall params,
  NoDup (keys (extractFinalParameters params)).
Proof.
  intros params. unfold extractFinalParameters. cbv zeta.
  repeat first [ apply copy_if_defined_NoDup | apply split_if_defined_NoDup ].
  constructor.
Qed.

Lemma extractFinalParameters_incl : forall params,
  incl (keys (extractFinalParameters params)) parameterNames.
Proof.
  intros params k H. unfold extractFinalParameters in H. cbv zeta in H.
  repeat first
    [ apply keys_copy_if_defined in H; destruct H as [->|H]; [simpl; tauto|]
    | apply keys_split_if_defined in H;
      destruct H as [->|[->|H]]; [simpl; tauto | simpl; tauto |] ].
  destruct H.
Qed.

Ltac read_key :=
  first [ rewrite get_copy_if_defined | rewrite get_split_if_defined ];
  match goal with
  | |- context [if ?b then _ else _] =>
      let b' := eval vm_compute in b in change b with b'
  end;
  cbv iota.

(** X2.  The output vector has distinct keys, all among the 15 per-axis
    names (a legacy XZ key never appears); the X and the Z key of a family
    are present exactly when the per-axis or the legacy value is, the Y key
    exactly when the per-axis value is. *)
Theorem extractFinalParameters_keys :
  forall params : KalmanParameters,
    NoDup (keys (extractFinalParameters params))
    /\ incl (keys (extractFinalParameters params)) parameterNames
    /\ (forall f : family,
          (In (keyX f) (keys (extractFinalParameters params)) <->
             fieldX f params <> None \/ fieldXZ f params <> None)
          /\ (In (keyZ f) (keys (extractFinalParameters params)) <->
             fieldZ f params <> None \/ fieldXZ f params <> None)
          /\ (In (keyY f) (keys (extractFinalParameters params)) <->
             fieldY f params <> None)).
Proof.
  intros params. split; [apply extractFinalParameters_NoDup|].
  split; [apply extractFinalParameters_incl|].
  intros f. rewrite !get_in_keys.
  destruct f; cbn [keyX keyY keyZ family_name fieldX fieldY fieldZ fieldXZ append];
    (split; [|split]);
    cbv beta zeta delta [extractFinalParameters];
    repeat read_key; cbn [get];
    repeat match goal with
           | |- context [match ?o with Some _ => _ | None => _ end] => destruct o
           end;
    (split; [intros [v H]; try discriminate; try (left; discriminate);
             try (right; discriminate); try discriminate
            | intros H; try (eexists; reflexivity);
              try (destruct H as [H|H]; exfalso; apply H; reflexivity);
              try (exfalso; apply H; reflexivity) ]).
Qed.

End ExtractedKeys.

(* ================================================================== *)
(** * The shape of a built matrix *)
(* ================================================================== *)

Section BuiltMatrix.
Import JS Types CorrelationAnalyzer Spec Spec2 App Analyzer Examples Examples2.

Lemma matrix_get_built : forall allRuns errorDim param r,
  matrix_get (correlateRuns allRuns) errorDim param = Some r ->
  r = correlationResult allRuns errorDim param.
Proof.
  intros allRuns errorDim param r H. unfold matrix_get in H.
  destruct allRuns as [|first rest]; [discriminate|].
  rewrite get_correlateRuns in H.
  destruct (existsb (String.eqb errorDim) (keys (Run.gpsErrors first)));
    [|discriminate].
  cbn [opt_chain] in H.
  rewrite (get_fold_set (correlationResult (first :: rest) errorDim)) in H.
  destruct (existsb (String.eqb param) (keys (Run.finalParams first)));
    [|discriminate].
  injection H as <-. reflexivity.
Qed.

Lemma filter_map_length : forall (A B : Type) (f : A -> option B) (l : list A),
  List.length (filter_map f l) <= List.length l.
Proof.
  intros A B f l. induction l as [|a rest IH]; simpl; [lia|].
  destruct (f a); simpl; lia.
Qed.

(** X3.  The aggregation yields one run per result of a sweep summary and
    per section of a section sweep -- the count the application shows as
    [runCount] -- and no stored correlation has more data points than
    that. *)
Theorem collectRuns_count :
  forall (Number_toString : number -> string) (sweepFiles : list LoadedFile.t)
         (allRuns : list Run.t),
    collectRuns Number_toString sweepFiles = Ok allRuns ->
    List.length allRuns = totalRuns sweepFiles
    /\ (forall errorDim param r,
          matrix_get (correlateRuns allRuns) errorDim param = Some r ->
          List.length (dataPoints r) <= totalRuns sweepFiles).
Proof.
  intros Number_toString sweepFiles allRuns H.
  destruct (collectRuns_runs _ _ H) as [_ L]. split; [exact L|].
  intros errorDim param r G. apply matrix_get_built in G. subst r.
  rewrite correlationResult_spec. cbn [dataPoints]. rewrite <- L.
  apply filter_map_length.
Qed.

Lemma collectRuns_count_witness :
  List.length two_runs = totalRuns [two_sections]
  /\ (forall errorDim param r,
        matrix_get (correlateRuns two_runs) errorDim param = Some r ->
        List.length (dataPoints r) <= totalRuns [two_sections]).
Proof.
  apply (@collectRuns_count no_text [two_sections] two_runs).
  reflexivity.
Defined.

(** The matrix as a list, when the first run has distinct keys. *)
Lemma correlateRuns_entries : forall first rest,
  NoDup (keys (Run.gpsErrors first)) ->
  NoDup (keys (Run.finalParams first)) ->
  correlateRuns (first :: rest) =
  map (fun errorDim =>
         (errorDim,
          map (fun param => (param, correlationResult (first :: rest) errorDim param))
              (keys (Run.finalParams first))))
      (keys (Run.gpsErrors first)).
Proof.
  intros first rest Hd Hp. unfold correlateRuns.
  rewrite (@fold_set_fresh _
             (fun errorDim => fold_left (fun errorMap param =>
                set errorMap param (correlationResult (first :: rest) errorDim param))
                (keys (Run.finalParams first)) [])
             (keys (Run.gpsErrors first)) []) by exact Hd.
  cbn [app]. apply map_ext. intros errorDim. f_equal.
  apply (@fold_set_fresh _ (correlationResult (first :: rest) errorDim)
           (keys (Run.finalParams first)) []). exact Hp.
Qed.

(** X4.  A matrix built from files is empty when the files hold no run;
    otherwise its keys are the 18 dimensions in their fixed order, and
    every dimension maps to distinct parameter keys taken from the 15
    per-axis names. *)
Theorem buildCorrelationMatrix_shape :
  forall (Number_toString : number -> string) (sweepFiles : list LoadedFile.t)
         (matrix : Matrix),
    buildCorrelationMatrix Number_toString sweepFiles = Ok matrix ->
    (totalRuns sweepFiles = 0 -> matrix = [])
    /\ (0 < totalRuns sweepFiles ->
        keys matrix = dimensionNames
        /\ forall errorDim errorMap,
             get matrix errorDim = Some errorMap ->
             NoDup (keys errorMap) /\ incl (keys errorMap) parameterNames).
Proof.
  intros Number_toString sweepFiles matrix H. unfold buildCorrelationMatrix in H.
  destruct (collectRuns Number_toString sweepFiles) as [allRuns|e] eqn:C;
    [|discriminate].
  cbn [bind] in H. injection H as <-.
  destruct (collectRuns_runs _ _ C) as [S L]. split.
  - intros Z. rewrite Z in L. destruct allRuns; [reflexivity | discriminate].
  - intros P. destruct allRuns as [|first rest]; [simpl in L; lia|].
    inversion S as [|? ? (g & p & Hg & Hp) _]; subst.
    assert (Dd : NoDup (keys (Run.gpsErrors first))).
    { rewrite Hg. change (NoDup dimensionNames).
      repeat (constructor; [simpl; intuition discriminate|]). constructor. }
    assert (Dp : NoDup (keys (Run.finalParams first)))
      by (rewrite Hp; apply extractFinalParameters_NoDup).
    rewrite (@correlateRuns_entries first rest Dd Dp). split.
    + unfold keys at 1. rewrite map_map. cbn [fst]. rewrite map_id.
      rewrite Hg. reflexivity.
    + intros errorDim errorMap G.
      assert (In (errorDim, errorMap)
                (map (fun errorDim =>
                   (errorDim,
                    map (fun param =>
                           (param, correlationResult (first :: rest) errorDim param))
                        (keys (Run.finalParams first))))
                   (keys (Run.gpsErrors first)))) as Hin.
      { clear - G.
        induction (keys (Run.gpsErrors first)) as [|k ks IH]; [discriminate|].
        simpl in G |- *. destruct (String.eqb errorDim k) eqn:E.
        - apply String.eqb_eq in E. subst k. injection G as <-. left. reflexivity.
        - right. apply IH. exact G. }
      apply in_map_iff in Hin. destruct Hin as (d & [= <- <-] & _).
      unfold keys at 1 3. rewrite !map_map. cbn [fst]. rewrite !map_id.
      split; [exact Dp|]. rewrite Hp. apply extractFinalParameters_incl.
Qed.

Lemma buildCorrelationMatrix_shape_witness :
  keys (correlateRuns two_runs) = dimensionNames
  /\ forall errorDim errorMap,
       get (correlateRuns two_runs) errorDim = Some errorMap ->
       NoDup (keys errorMap) /\ incl (keys errorMap) parameterNames.
Proof.
  apply (proj2 (@buildCorrelationMatrix_shape no_text [two_sections]
                  (correlateRuns two_runs) eq_refl)).
  vm_compute. repeat constructor.
Defined.

End BuiltMatrix.

(* ================================================================== *)
(** * Top prediction models *)
(* ================================================================== *)

Section TopModels.
Import JS Types CorrelationAnalyzer Spec Spec2 App Analyzer Examples Examples2.

Lemma allCorrelations_collected : forall (matrix : Matrix) acc,
  fold_left (fun allCorrelations (entry : string * Dict CorrelationResult) =>
    fold_left (fun allCorrelations (inner : string * CorrelationResult) =>
                 allCorrelations ++ [snd inner])
      (snd entry) allCorrelations) matrix acc
  = acc ++ storedResults matrix.
Proof.
  assert (Inner : forall (errorMap : Dict CorrelationResult) acc,
    fold_left (fun allCorrelations (inner : string * CorrelationResult) =>
                 allCorrelations ++ [snd inner]) errorMap acc
    = acc ++ values errorMap).
  { induction errorMap as [|[k r] rest IH]; intros acc; simpl.
    - rewrite app_nil_r. reflexivity.
    - rewrite IH, <- app_assoc. reflexivity. }
  induction matrix as [|[d errorMap] rest IH]; intros acc; simpl.
  - rewrite app_nil_r. reflexivity.
  - rewrite IH, Inner. unfold storedResults. simpl.
    rewrite app_assoc. reflexivity.
Qed.

Lemma getTopPredictionModels_sorted : forall matrix topN,
  getTopPredictionModels matrix topN =
  map buildPredictionModel
    (slice_0 (sort byStrength (storedResults matrix)) (nullish topN 10%float)).
Proof.
  intros matrix topN. unfold getTopPredictionModels. cbv zeta.
  rewrite allCorrelations_collected. reflexivity.
Qed.

Lemma slice_0_firstn : forall (A : Type) (a : list A) (final : number),
  exists n, slice_0 a final = firstn n a.
Proof. intros A a final. unfold slice_0. eauto. Qed.

Lemma slice_0_length : forall (A : Type) (a : list A) (final : number) (k : Z),
  ToIntegerOrInfinity final = Integer k ->
  List.length (slice_0 a final) =
  if (k <? 0)%Z then List.length a - Z.to_nat (- k)
  else Nat.min (Z.to_nat k) (List.length a).
Proof.
  intros A a final k H. unfold slice_0. rewrite H, length_firstn.
  destruct (Z.ltb_spec k 0); lia.
Qed.

(** X5.  [getTopPredictionModels] returns at most [topN] models and never
    more than the matrix stores: with [topN] omitted, min(10, stored); with
    a non-negative [topN], min(trunc(topN), stored); with a negative one,
    that many fewer than stored (none when NaN). *)
Theorem getTopPredictionModels_length :
  forall (matrix : Matrix),
    List.length (getTopPredictionModels matrix None)
      = Nat.min 10 (List.length (storedResults matrix))
    /\ (forall (topN : number) (k : Z),
          ToIntegerOrInfinity topN = Integer k ->
          List.length (getTopPredictionModels matrix (Some topN)) =
          if (k <? 0)%Z
          then List.length (storedResults matrix) - Z.to_nat (- k)
          else Nat.min (Z.to_nat k) (List.length (storedResults matrix)))
    /\ List.length (getTopPredictionModels matrix (Some PrimFloat.nan)) = 0.
Proof.
  intros matrix.
  assert (P : Permutation (sort byStrength (storedResults matrix)) (storedResults matrix))
    by apply sort_perm.
  apply Permutation_length in P.
  split; [|split].
  - rewrite getTopPredictionModels_sorted, length_map.
    rewrite (@slice_0_length _ _ (nullish None 10%float) 10); [|vm_compute; reflexivity].
    rewrite P. reflexivity.
  - intros topN k H.
    rewrite getTopPredictionModels_sorted, length_map.
    cbn [nullish]. rewrite (@slice_0_length _ _ topN k H), P. reflexivity.
  - rewrite getTopPredictionModels_sorted, length_map.
    rewrite (@slice_0_length _ _ (nullish (Some PrimFloat.nan) 10%float) 0);
      [|vm_compute; reflexivity].
    reflexivity.
Qed.

Lemma getTopPredictionModels_length_witness :
  List.length (getTopPredictionModels small_matrix (Some 2.5%float)) =
  if (2 <? 0)%Z
  then List.length (storedResults small_matrix) - Z.to_nat (- 2)
  else Nat.min (Z.to_nat 2) (List.length (storedResults small_matrix)).
Proof.
  apply (proj1 (proj2 (getTopPredictionModels_length small_matrix))).
  vm_compute. reflexivity.
Defined.

Lemma StronglySorted_split : forall (A : Type) (R : A -> A -> Prop) (l1 l2 : list A),
  StronglySorted R (l1 ++ l2) ->
  StronglySorted R l1 /\ (forall a b, In a l1 -> In b l2 -> R a b).
Proof.
  intros A R l1 l2. induction l1 as [|x l1 IH]; simpl; intros H.
  - split; [constructor | intros a b []].
  - inversion H as [|? ? S F]; subst. destruct (IH S) as [S1 C].
    apply Forall_app in F. destruct F as [F1 F2]. split.
    + constructor; assumption.
    + intros a b [<-|Ha] Hb.
      * rewrite Forall_forall in F2. apply F2. exact Hb.
      * apply C; assumption.
Qed.

(** X6.  When no stored coefficient is NaN, the models are those of the
    strongest correlations, strongest first: the stored results split into
    the chosen ones, in descending order of |coefficient|, and the rest,
    none of which is stronger than a chosen one. *)
Theorem getTopPredictionModels_strongest :
  forall (matrix : Matrix) (topN : option number),
    Forall ranked (storedResults matrix) ->
    exists top rest,
      Permutation (top ++ rest) (storedResults matrix)
      /\ getTopPredictionModels matrix topN = map buildPredictionModel top
      /\ StronglySorted descending top
      /\ (forall a b, In a top -> In b rest -> descending a b).
Proof.
  intros matrix topN R. rewrite getTopPredictionModels_sorted.
  destruct (slice_0_firstn (sort byStrength (storedResults matrix))
              (nullish topN 10%float)) as [n ->].
  exists (firstn n (sort byStrength (storedResults matrix))),
         (skipn n (sort byStrength (storedResults matrix))).
  pose proof (sort_descending R) as S.
  rewrite <- (firstn_skipn n (sort byStrength (storedResults matrix))) in S.
  apply StronglySorted_split in S. destruct S as [S C].
  split; [|split; [reflexivity | split; assumption]].
  rewrite firstn_skipn. apply sort_perm.
Qed.

Lemma getTopPredictionModels_strongest_witness :
  exists top rest,
    Permutation (top ++ rest) (storedResults small_matrix)
    /\ getTopPredictionModels small_matrix (Some 2%float) = map buildPredictionModel top
    /\ StronglySorted descending top
    /\ (forall a b, In a top -> In b rest -> descending a b).
Proof.
  apply getTopPredictionModels_strongest.
  repeat constructor.
Defined.

(** Every model comes from a stored result. *)
Lemma getTopPredictionModels_built : forall matrix topN m,
  In m (getTopPredictionModels matrix topN) ->
  exists r, In r (storedResults matrix) /\ m = buildPredictionModel r.
Proof.
  intros matrix topN m H. rewrite getTopPredictionModels_sorted in H.
  apply in_map_iff in H. destruct H as (r & <- & Hr).
  exists r. split; [|reflexivity].
  destruct (slice_0_firstn (sort byStrength (storedResults matrix))
              (nullish topN 10%float)) as [n E].
  rewrite E in Hr.
  eapply Permutation_in; [apply sort_perm|].
  rewrite <- (firstn_skipn n (sort byStrength (storedResults matrix))).
  apply in_or_app. left. exact Hr.
Qed.

End TopModels.

Section NoRuns.
Import JS Types CorrelationAnalyzer Spec.

Lemma buildCorrelationMatrix_nothing : forall Number_toString sweepFiles,
  Forall file_without_runs sweepFiles ->
  buildCorrelationMatrix Number_toString sweepFiles = Ok [].
Proof.
  intros Number_toString sweepFiles H. unfold buildCorrelationMatrix.
  rewrite collectRuns_nothing by exact H. reflexivity.
Qed.

End NoRuns.

(* ================================================================== *)
(** * From files to predictions *)
(* ================================================================== *)

Section Pipeline.
Import JS Types CorrelationAnalyzer Spec Spec2 App Analyzer Selectors Examples Examples2.

Lemma stored_in_built : forall allRuns r,
  In r (storedResults (correlateRuns allRuns)) ->
  exists first rest errorDim param,
    allRuns = first :: rest
    /\ In errorDim (keys (Run.gpsErrors first))
    /\ In param (keys (Run.finalParams first))
    /\ r = correlationResult allRuns errorDim param.
Proof.
  intros allRuns r H. destruct allRuns as [|first rest]; [destruct H|].
  unfold storedResults in H. apply in_flat_map in H.
  destruct H as ([d errorMap] & Hd & Hr). cbn [snd] in Hr.
  unfold correlateRuns in Hd.
  apply (@fold_set_entry _
           (fun errorDim => fold_left (fun errorMap param =>
              set errorMap param (correlationResult (first :: rest) errorDim param))
              (keys (Run.finalParams first)) [])) in Hd.
  destruct Hd as [[]|[Hd ->]].
  unfold values in Hr. apply in_map_iff in Hr.
  destruct Hr as ([p r'] & E & Hp). cbn [snd] in E. subst r'.
  apply (@fold_set_entry _ (correlationResult (first :: rest) d)) in Hp.
  destruct Hp as [[]|[Hp ->]].
  exists first, rest, d, p. auto.
Qed.

Lemma correlationResult_labels : forall allRuns errorDim param,
  xLabel (correlationResult allRuns errorDim param) = errorDim
  /\ yLabel (correlationResult allRuns errorDim param) = param.
Proof.
  intros allRuns errorDim param. rewrite correlationResult_spec. split; reflexivity.
Qed.

(** Whether the loop of [predictParameters] leaves an entry. *)
Lemma predict_loop_has : forall dims models p,
  (exists w, get (fold_left (predictStep dims) models []) p = Some w) <->
  p <> "__proto__" /\
  (exists m w, In m models /\ outputParameter m = p /\ usable dims m w).
Proof.
  intros dims models p.
  destruct (String.eqb_spec p "__proto__") as [->|NP].
  { rewrite predict_loop_no_proto. split; [intros [w H]; discriminate|].
    intros [H _]. congruence. }
  assert (K : forall A : Prop, A <-> p <> "__proto__" /\ A) by (intros A; tauto).
  rewrite <- K. clear K.
  induction models as [|m ms IH] using rev_ind.
  - simpl. split; [intros [w H]; discriminate | intros (m & w & [] & _)].
  - rewrite fold_left_app. cbn [fold_left].
    destruct (predictStep_cases dims (fold_left (predictStep dims) ms []) m)
      as [(w0 & U & ->)|[NU ->]].
    + rewrite get_assign.
      destruct (String.eqb_spec (outputParameter m) "__proto__") as [P|P].
      { rewrite IH. split.
        - intros (m' & w & Hin & Hp & Hu). exists m', w.
          split; [apply in_or_app; left; exact Hin | auto].
        - intros (m' & w & Hin & Hp & Hu). apply in_app_or in Hin.
          destruct Hin as [Hin|[<-|[]]]; [eauto | congruence]. }
      destruct (String.eqb p (outputParameter m)) eqn:E.
      * apply String.eqb_eq in E. split.
        -- intros _. exists m, w0. split; [apply in_or_app; right; left; reflexivity|].
           auto.
        -- intros _. eauto.
      * apply String.eqb_neq in E. rewrite IH. split.
        -- intros (m' & w & Hin & Hp & Hu). exists m', w.
           split; [apply in_or_app; left; exact Hin | auto].
        -- intros (m' & w & Hin & Hp & Hu). apply in_app_or in Hin.
           destruct Hin as [Hin|[<-|[]]]; [eauto | congruence].
    + rewrite IH. split.
      * intros (m' & w & Hin & Hp & Hu). exists m', w.
        split; [apply in_or_app; left; exact Hin | auto].
      * intros (m' & w & Hin & Hp & Hu). apply in_app_or in Hin.
        destruct Hin as [Hin|[<-|[]]]; [eauto | exfalso; eapply NU; eauto].
Qed.

(** None of the 15 parameter names is [__proto__]. *)
Lemma parameterNames_plain : forall q, In q parameterNames -> q <> "__proto__".
Proof.
  intros q H ->. unfold parameterNames in H.
  repeat (destruct H as [H|H]; [discriminate H|]). destruct H.
Qed.

(** X7.  On the application's path -- matrix built from files, models
    taken from [getTopPredictionModels] -- a parameter is predicted exactly
    when one of the models that target it has rSquared above 0.3: such
    models always have their two coefficients and an input dimension that
    the input vector holds. *)
Theorem pipeline_prediction :
  forall (Number_toString : number -> string) (sweepFiles : list LoadedFile.t)
         (matrix : Matrix) (topN : option number) (gpsError : GPSErrorFile)
         (p : string),
    buildCorrelationMatrix Number_toString sweepFiles = Ok matrix ->
    ((exists w,
        get (predictParameters gpsError (getTopPredictionModels matrix topN)) p = Some w)
     <->
     (exists m,
        In m (getTopPredictionModels matrix topN)
        /\ outputParameter m = p
        /\ (0.3 <? rSquared m)%float = true)).
Proof.
  intros Number_toString sweepFiles matrix topN gpsError p H.
  unfold buildCorrelationMatrix in H.
  destruct (collectRuns Number_toString sweepFiles) as [allRuns|e] eqn:C;
    [|discriminate].
  cbn [bind] in H. injection H as <-.
  destruct (collectRuns_runs _ _ C) as [S _].
  unfold predictParameters. rewrite predict_loop_has. split.
  - intros (_ & m & w & Hin & Hp & (v & cs & _ & _ & _ & R & _)). eauto.
  - intros (m & Hin & Hp & R).
    destruct (getTopPredictionModels_built _ _ _ Hin) as (r & Hr & ->).
    apply stored_in_built in Hr.
    destruct Hr as (first & rest & d & q & -> & Hd & Hq & ->).
    destruct (Forall_inv S) as (g & params & Hg & Hf).
    rewrite Hg in Hd. rewrite Hf in Hq.
    change (keys (FileParser.extractGPSErrorDimensions g))
      with (keys (FileParser.extractGPSErrorDimensions (Types.gpsError gpsError))) in Hd.
    apply get_in_keys in Hd. destruct Hd as [v Hv].
    split.
    { rewrite <- Hp. cbn [buildPredictionModel outputParameter].
      rewrite (proj2 (correlationResult_labels _ _ _)).
      apply parameterNames_plain. apply (@extractFinalParameters_incl params). exact Hq. }
    eexists. eexists. split; [exact Hin|]. split; [exact Hp|].
    exists v. eexists. split.
    + left. cbn [buildPredictionModel inputDimension].
      rewrite (proj1 (correlationResult_labels _ _ _)). exact Hv.
    + split; [reflexivity|]. split; [simpl; lia|]. split; [exact R | reflexivity].
Qed.

Lemma pipeline_prediction_witness :
  (exists w,
     get (predictParameters gpsError_x3
            (getTopPredictionModels (correlateRuns two_runs) None)) "rPosX" = Some w)
  <->
  (exists m,
     In m (getTopPredictionModels (correlateRuns two_runs) None)
     /\ outputParameter m = "rPosX"
     /\ (0.3 <? rSquared m)%float = true).
Proof.
  apply (@pipeline_prediction no_text [two_sections]).
  reflexivity.
Defined.

Lemma forEach_push_filter :
  forall (A B : Type) (keep : A -> bool) (body : A -> result (list B)),
    (forall v, keep v = false -> body v = Ok []) ->
    forall a acc, forEach_push body (filter keep a) acc = forEach_push body a acc.
Proof.
  intros A B keep body Hskip.
  induction a as [|v rest IH]; intros acc; simpl; [reflexivity|].
  destruct (keep v) eqn:K; simpl.
  - destruct (body v); simpl; [apply IH | reflexivity].
  - rewrite (Hskip v K). simpl. rewrite app_nil_r. apply IH.
Qed.

(** X8.  Selecting the sweep files first, as the application does, changes
    nothing: [buildCorrelationMatrix] gives the same matrix, or throws the
    same exception, on [getSweepSummaries(files)] as on [files], and the run
    count is the same. *)
Theorem getSweepSummaries_transparent :
  forall (Number_toString : number -> string) (files : list LoadedFile.t),
    buildCorrelationMatrix Number_toString (getSweepSummaries files)
      = buildCorrelationMatrix Number_toString files
    /\ totalRuns (getSweepSummaries files) = totalRuns files
    /\ buildCorrelationMatrix Number_toString (getGPSErrorFiles files) = Ok []
    /\ buildCorrelationMatrix Number_toString (getRunMetadata files) = Ok [].
Proof.
  intros Number_toString files. split; [|split; [|split]].
  - unfold buildCorrelationMatrix, collectRuns, getSweepSummaries.
    rewrite forEach_push_filter; [reflexivity|].
    intros file K. unfold type_of in K.
    destruct (LoadedFile.data file) as [s|s|[]]; try discriminate; reflexivity.
  - unfold totalRuns, getSweepSummaries. generalize 0.
    induction files as [|file rest IH]; intros n; simpl; [reflexivity|].
    unfold type_of at 1 2.
    destruct (LoadedFile.data file) as [s|s|[]] eqn:D; simpl; rewrite ?D; apply IH.
  - apply buildCorrelationMatrix_nothing. unfold getGPSErrorFiles.
    apply Forall_forall. intros file Hin. apply filter_In in Hin.
    destruct Hin as [_ K]. unfold type_of in K. unfold file_without_runs.
    destruct (LoadedFile.data file) as [s|s|[]]; try discriminate; exact I.
  - apply buildCorrelationMatrix_nothing. unfold getRunMetadata.
    apply Forall_forall. intros file Hin. apply filter_In in Hin.
    destruct Hin as [_ K]. unfold type_of in K. unfold file_without_runs.
    destruct (LoadedFile.data file) as [s|s|[]]; try discriminate; exact I.
Qed.

End Pipeline.

(* ================================================================== *)
(** * The text export *)
(* ================================================================== *)

Section ExportText.
Import JS Types CorrelationAnalyzer Spec Spec2 Analyzer Examples Examples2.

Variable Number_toFixed : number -> nat -> string.

Lemma exportLines_rows : forall (matrix : Matrix),
  exportLines Number_toFixed matrix =
  "GPS Error Dimension,Parameter,Correlation Coefficient"
  :: flat_map (fun entry : string * Dict CorrelationResult =>
       map (fun inner : string * CorrelationResult =>
              (fst entry ++ "," ++ fst inner ++ ","
                 ++ Number_toFixed (coefficient (snd inner)) 4)%string)
           (snd entry)) matrix.
Proof.
  intros matrix. unfold exportLines. cbv zeta.
  assert (Inner : forall (errorDim : string) (errorMap : Dict CorrelationResult) acc,
    fold_left (fun lines (inner : string * CorrelationResult) =>
      lines ++ [(errorDim ++ "," ++ fst inner ++ ","
                   ++ Number_toFixed (coefficient (snd inner)) 4)%string])
      errorMap acc
    = acc ++ map (fun inner : string * CorrelationResult =>
                    (errorDim ++ "," ++ fst inner ++ ","
                       ++ Number_toFixed (coefficient (snd inner)) 4)%string) errorMap).
  { intros errorDim. induction errorMap as [|inner rest IH]; intros acc; simpl.
    - rewrite app_nil_r. reflexivity.
    - rewrite IH, <- app_assoc. reflexivity. }
  assert (Outer : forall (m : Matrix) acc,
    fold_left (fun lines (entry : string * Dict CorrelationResult) =>
      fold_left (fun lines (inner : string * CorrelationResult) =>
        lines ++ [(fst entry ++ "," ++ fst inner ++ ","
                     ++ Number_toFixed (coefficient (snd inner)) 4)%string])
        (snd entry) lines) m acc
    = acc ++ flat_map (fun entry : string * Dict CorrelationResult =>
        map (fun inner : string * CorrelationResult =>
               (fst entry ++ "," ++ fst inner ++ ","
                  ++ Number_toFixed (coefficient (snd inner)) 4)%string)
            (snd entry)) m).
  { induction m as [|entry rest IH]; intros acc; simpl.
    - rewrite app_nil_r. reflexivity.
    - rewrite IH, Inner, <- app_assoc. reflexivity. }
  rewrite Outer. reflexivity.
Qed.

(** X9.  The export is the header line followed by one line per stored
    pair, in the order of the matrix, joined by newlines (no newline at the
    end); for a matrix built from runs each line is made of the result's
    own xLabel, yLabel and coefficient. *)
Theorem exportCorrelationSummary_rows :
  forall (matrix : Matrix) (allRuns : list Run.t),
    List.length (exportLines Number_toFixed matrix)
      = S (List.length (storedResults matrix))
    /\ exportCorrelationSummary Number_toFixed []
       = "GPS Error Dimension,Parameter,Correlation Coefficient"
    /\ exportCorrelationSummary Number_toFixed (correlateRuns allRuns) =
       String.concat (String (Ascii.ascii_of_nat 10) "")
         ("GPS Error Dimension,Parameter,Correlation Coefficient"
          :: map (exportRow Number_toFixed) (storedResults (correlateRuns allRuns))).
Proof.
  intros matrix allRuns. split; [|split].
  - rewrite exportLines_rows. cbn [List.length]. f_equal.
    unfold storedResults, values.
    induction matrix as [|entry rest IH]; cbn [flat_map]; [reflexivity|].
    rewrite !length_app, !length_map, IH. reflexivity.
  - reflexivity.
  - unfold exportCorrelationSummary. rewrite exportLines_rows. do 2 f_equal.
    destruct allRuns as [|first rest]; [reflexivity|].
    unfold storedResults, correlateRuns.
    assert (G : forall m : Matrix,
      (forall d errorMap p r, In (d, errorMap) m -> In (p, r) errorMap ->
         xLabel r = d /\ yLabel r = p) ->
      flat_map (fun entry : string * Dict CorrelationResult =>
        map (fun inner : string * CorrelationResult =>
               (fst entry ++ "," ++ fst inner ++ ","
                  ++ Number_toFixed (coefficient (snd inner)) 4)%string)
            (snd entry)) m
      = map (exportRow Number_toFixed)
          (flat_map (fun entry : string * Dict CorrelationResult => values (snd entry)) m)).
    { induction m as [|[d errorMap] m IH]; intros Hm; cbn [flat_map]; [reflexivity|].
      rewrite map_app, IH.
      - f_equal. unfold values. rewrite map_map. apply map_ext_in.
        intros [p r] Hin. cbn [fst snd]. unfold exportRow.
        destruct (Hm d errorMap p r) as [-> ->]; [left; reflexivity | exact Hin |].
        reflexivity.
      - intros d' em' p r Hd Hp. apply (Hm d' em' p r); [right; exact Hd | exact Hp]. }
    apply G. intros d errorMap p r Hd Hp.
    apply (@fold_set_entry _
             (fun errorDim => fold_left (fun errorMap param =>
                set errorMap param (correlationResult (first :: rest) errorDim param))
                (keys (Run.finalParams first)) [])) in Hd.
    destruct Hd as [[]|[_ ->]].
    apply (@fold_set_entry _ (correlationResult (first :: rest) d)) in Hp.
    destruct Hp as [[]|[_ ->]].
    apply correlationResult_labels.
Qed.

End ExportText.

(* ================================================================== *)
(** * More on the statistics and the ranking *)
(* ================================================================== *)

Section MoreStatistics.
Import JS Types CorrelationAnalyzer Spec Spec2 Analyzer App Examples Examples2.

Lemma SFmul_comm : forall x y, SF64mul x y = SF64mul y x.
Proof.
  intros [sx|sx| |sx mx ex] [sy|sy| |sy my ey]; unfold SF64mul; simpl;
    try reflexivity; try (rewrite xorb_comm; reflexivity).
  rewrite xorb_comm, Pos.mul_comm, Z.add_comm. reflexivity.
Qed.

(** IEEE multiplication commutes. *)
Lemma mul_comm : forall a b : float, (a * b = b * a)%float.
Proof.
  intros a b. apply Prim2SF_inj. rewrite !FloatAxioms.mul_spec. apply SFmul_comm.
Qed.

Lemma sumXY_comm : forall xs ys px py acc,
  List.length xs = List.length ys ->
  List.length px = List.length py ->
  reduce_from (fun sum x i => sum + x * Array_get (py ++ ys) i)%float xs
    (List.length px) acc
  = reduce_from (fun sum y i => sum + y * Array_get (px ++ xs) i)%float ys
    (List.length py) acc.
Proof.
  induction xs as [|x xs IH]; intros [|y ys] px py acc L P; try discriminate.
  - reflexivity.
  - cbn [reduce_from].
    assert (Hy : Array_get (py ++ y :: ys) (List.length px) = y)
      by (unfold Array_get; rewrite P; apply nth_middle).
    assert (Hx : Array_get (px ++ x :: xs) (List.length py) = x)
      by (unfold Array_get; rewrite <- P; apply nth_middle).
    rewrite Hy, Hx, (mul_comm y x).
    replace (py ++ y :: ys) with ((py ++ [y]) ++ ys) by (rewrite <- app_assoc; reflexivity).
    replace (px ++ x :: xs) with ((px ++ [x]) ++ xs) by (rewrite <- app_assoc; reflexivity).
    replace (S (List.length px)) with (List.length (px ++ [x]))
      by (rewrite length_app; simpl; lia).
    replace (S (List.length py)) with (List.length (py ++ [y]))
      by (rewrite length_app; simpl; lia).
    apply IH.
    + simpl in L. lia.
    + rewrite !length_app. simpl. lia.
Qed.

(** X10.  The Pearson coefficient is symmetric bit for bit:
    [calculateCorrelation(x, y)] and [calculateCorrelation(y, x)] are the
    same number, for all sequences. *)
Theorem calculateCorrelation_symmetric :
  forall xValues yValues : list number,
    calculateCorrelation xValues yValues = calculateCorrelation yValues xValues.
Proof.
  intros xValues yValues. unfold calculateCorrelation.
  destruct (Nat.eqb_spec (List.length xValues) (List.length yValues)) as [E|E].
  - rewrite <- E, Nat.eqb_refl. cbn [negb orb].
    destruct (List.length xValues =? 0)%nat; [reflexivity|].
    cbv zeta. unfold length_number. rewrite <- E. unfold reduce.
    pose proof (@sumXY_comm xValues yValues [] [] 0%float E eq_refl) as C.
    cbn [app List.length] in C. rewrite C.
    rewrite (mul_comm (reduce_from (fun a b _ => a + b) yValues 0 0)
                      (reduce_from (fun a b _ => a + b) xValues 0 0))%float.
    rewrite (mul_comm
      (PrimFloat.of_uint63 (of_Z (Z.of_nat (List.length xValues)))
         * reduce_from (fun sum y _ => sum + y * y) yValues 0 0
       - reduce_from (fun a b _ => a + b) yValues 0 0
         * reduce_from (fun a b _ => a + b) yValues 0 0)%float).
    reflexivity.
  - destruct (Nat.eqb_spec (List.length yValues) (List.length xValues)) as [E'|_];
      [congruence | reflexivity].
Qed.

Lemma is_nan_abs : forall v : float, PrimFloat.is_nan (abs v) = PrimFloat.is_nan v.
Proof.
  intros v. rewrite !is_nan_spec, FloatAxioms.abs_spec.
  destruct (Prim2SF v); reflexivity.
Qed.

Lemma leb_nan_l : forall a b : float,
  PrimFloat.is_nan a = true -> (a <=? b)%float = false.
Proof.
  intros a b. rewrite is_nan_spec, FloatAxioms.leb_spec. unfold SFleb.
  destruct (Prim2SF a); simpl; try discriminate. reflexivity.
Qed.

(** X11.  [findStrongestCorrelations] never returns a result whose
    coefficient is NaN, whatever the threshold, and returns nothing when
    the threshold itself is NaN. *)
Theorem findStrongestCorrelations_no_nan :
  forall (matrix : Matrix) (threshold : option number),
    (forall r, In r (findStrongestCorrelations matrix threshold) ->
       isNaN (coefficient r) = false)
    /\ (isNaN (nullish threshold 0.5%float) = true ->
        findStrongestCorrelations matrix threshold = []).
Proof.
  intros matrix threshold. rewrite findStrongestCorrelations_sorted. split.
  - intros r H.
    apply (Permutation_in _ (sort_perm byStrength _)) in H.
    apply filter_In in H. destruct H as [_ H]. unfold strongEnough in H.
    apply leb_not_nan_r in H. unfold Math_abs in H. rewrite is_nan_abs in H. exact H.
  - intros N.
    replace (filter (strongEnough (nullish threshold 0.5%float)) (storedResults matrix))
      with (@nil CorrelationResult); [reflexivity|].
    symmetry. induction (storedResults matrix) as [|r rest IH]; [reflexivity|].
    cbn [filter]. unfold strongEnough at 1. rewrite (@leb_nan_l _ _ N). exact IH.
Qed.

Lemma linearRegression_few_points : forall xValues yValues,
  List.length xValues < 2 ->
  regression_rSquared (linearRegression xValues yValues) = 0%float.
Proof.
  intros xValues yValues L. unfold linearRegression.
  destruct (Nat.ltb_spec (List.length xValues) 2) as [_|G]; [|lia].
  rewrite orb_true_r. reflexivity.
Qed.

(** X12.  A correlation with fewer than two data points never yields a
    prediction: [predictParameters] gives the same result with or without
    the model built from it, wherever the model stands in the list. *)
Theorem buildPredictionModel_few_points :
  forall (gpsError : GPSErrorFile) (correlation : CorrelationResult)
         (ms1 ms2 : list PredictionModel),
    List.length (dataPoints correlation) < 2 ->
    predictParameters gpsError (ms1 ++ buildPredictionModel correlation :: ms2)
    = predictParameters gpsError (ms1 ++ ms2).
Proof.
  intros gpsError correlation ms1 ms2 L. unfold predictParameters.
  rewrite !fold_left_app. cbn [fold_left]. f_equal.
  unfold predictStep at 1. cbn [buildPredictionModel coefficients rSquared].
  rewrite linearRegression_few_points by (rewrite length_map; exact L).
  destruct (read _ _); reflexivity.
Qed.

Lemma buildPredictionModel_few_points_witness :
  predictParameters gpsError_x3
    ([model_2x] ++ buildPredictionModel (result_of "position.x" "rPosY" 1%float) :: [])
  = predictParameters gpsError_x3 ([model_2x] ++ []).
Proof.
  apply buildPredictionModel_few_points. simpl. lia.
Defined.

(** [find] returns the first element that passes the test. *)
Lemma find_first : forall (A : Type) (f : A -> bool) (l : list A) (x : A),
  find f l = Some x ->
  exists before after,
    l = before ++ x :: after
    /\ Forall (fun y => f y = false) before
    /\ f x = true.
Proof.
  intros A f l x. induction l as [|y rest IH]; intros H; [discriminate|].
  cbn [find] in H. destruct (f y) eqn:E.
  - injection H as <-. exists [], rest. repeat split; [constructor | exact E].
  - destruct (IH H) as (before & after & -> & B & T).
    exists (y :: before), after. repeat split; [constructor; assumption | exact T].
Qed.

(** X13.  Every predicted parameter has a model for [displayPredictions]
    to show, and it is the first model of the list that targets the
    parameter: no model before it does.  When only one model targets the
    parameter, that is the model whose prediction is shown. *)
Theorem displayedModel_found :
  forall (gpsError : GPSErrorFile) (models : list PredictionModel)
         (param : string) (value : number),
    get (predictParameters gpsError models) param = Some value ->
    exists m before after,
      displayedModel models param = Some m
      /\ models = before ++ m :: after
      /\ Forall (fun m' => outputParameter m' <> param) before
      /\ In m models
      /\ outputParameter m = param
      /\ ((forall m', In m' models -> outputParameter m' = param -> m' = m) ->
          usable (FileParser.extractGPSErrorDimensions (Types.gpsError gpsError))
                 m value).
Proof.
  intros gpsError models param value H. unfold predictParameters in H.
  apply predict_loop_spec in H.
  destruct H as (_ & ms1 & m0 & ms2 & E0 & Hp & U & _).
  unfold displayedModel.
  destruct (find (fun m => String.eqb (outputParameter m) param) models)
    as [m|] eqn:F.
  - destruct (find_first _ _ F) as (before & after & E & B & T).
    apply String.eqb_eq in T.
    assert (Hin : In m models)
      by (rewrite E; apply in_or_app; right; left; reflexivity).
    exists m, before, after. repeat split; auto.
    + eapply Forall_impl; [|exact B]. cbv beta.
      intros m' N. apply String.eqb_neq. exact N.
    + intros Uniq. rewrite <- (Uniq m0); [exact U | | exact Hp].
      rewrite E0. apply in_or_app. right. left. reflexivity.
  - exfalso.
    assert (Hin : In m0 models)
      by (rewrite E0; apply in_or_app; right; left; reflexivity).
    pose proof (find_none _ _ F m0 Hin) as N. cbv beta in N.
    rewrite Hp, String.eqb_refl in N. discriminate.
Qed.

Lemma displayedModel_found_witness :
  exists m before after,
    displayedModel [model_constructor; model_2x] "rPosX" = Some m
    /\ [model_constructor; model_2x] = before ++ m :: after
    /\ Forall (fun m' => outputParameter m' <> "rPosX") before
    /\ In m [model_constructor; model_2x]
    /\ outputParameter m = "rPosX"
    /\ ((forall m', In m' [model_constructor; model_2x] ->
                    outputParameter m' = "rPosX" -> m' = m) ->
        usable (FileParser.extractGPSErrorDimensions (Types.gpsError gpsError_x3))
               m 6%float).
Proof.
  apply (@displayedModel_found gpsError_x3 [model_constructor; model_2x]
           "rPosX" 6%float).
  reflexivity.
Defined.

End MoreStatistics.

(* ================================================================== *)
(** * Detecting the type of a JSON file *)
(* ================================================================== *)

Section Detection.
Import JS Detect Spec2 Examples2.

Lemma index_below_plain : forall key len,
  plain key = true -> index_below key len = false.
Proof.
  intros key len P. unfold plain in P. apply andb_true_iff in P.
  destruct P as [_ P]. unfold index_below.
  destruct key as [|c rest]; [reflexivity|].
  destruct ((Ascii.nat_of_ascii c =? 48)%nat && negb (String.eqb rest ""));
    [reflexivity|].
  destruct (digits_value (String c rest) 0); [discriminate | reflexivity].
Qed.

(** Only an object owns a property of a plain name. *)
Lemma hasOwnProperty_plain : forall v key,
  plain key = true ->
  match v with
  | JObject _ | JNull => True
  | _ => hasOwnProperty v key = Ok false
  end.
Proof.
  intros v key P. assert (L : String.eqb key "length" = false).
  { unfold plain in P. apply andb_true_iff in P. destruct P as [P _].
    apply negb_true_iff in P. exact P. }
  destruct v as [|b|n|s|items|members]; try exact I; try reflexivity;
    unfold hasOwnProperty; rewrite L, (@index_below_plain key _ P); reflexivity.
Qed.

Lemma hasOwnProperty_own : forall v key,
  plain key = true ->
  hasOwnProperty v key = Ok true ->
  exists members,
    v = JObject members
    /\ get members "hasOwnProperty" = None
    /\ In key (keys members).
Proof.
  intros v key P H. pose proof (@hasOwnProperty_plain v key P) as Q.
  destruct v as [|b|n|s|items|members]; try (rewrite Q in H; discriminate).
  - discriminate.
  - exists members. unfold hasOwnProperty in H.
    destruct (get members "hasOwnProperty") eqn:N; [discriminate|].
    injection H as H. apply existsb_exists in H. destruct H as (k & Hin & E).
    apply String.eqb_eq in E. subst k. auto.
Qed.

(** An own property with one of the names the parser asks for is a member
    of an object that has no member [hasOwnProperty]. *)
Ltac own H members N :=
  apply hasOwnProperty_own in H; [|vm_compute; reflexivity];
  destruct H as (members & -> & N & H).

Ltac detect_step H :=
  match type of H with
  | context [if_detected ?t _ _] =>
      destruct t as [[|]|?] eqn:?; cbn [if_detected] in H
  end.

Lemma hasOwnProperty_shadowed : forall members v key,
  get members "hasOwnProperty" = Some v ->
  hasOwnProperty (JObject members) key = Throw TypeError.
Proof. intros members v key N. unfold hasOwnProperty. rewrite N. reflexivity. Qed.

Lemma detectType_not_object : forall v,
  (forall key, plain key = true -> hasOwnProperty v key = Ok false) ->
  detectType v = Raises unknown_format.
Proof.
  intros v H.
  unfold detectType, isSectionSweep, isGPSError, isSweepSummary, isRunMetadata,
         isOptimizerMetadata, isParameterExport.
  rewrite !H by (vm_compute; reflexivity). reflexivity.
Qed.

Lemma and_then_true : forall a b, and_then a b = Ok true -> a = Ok true /\ b = Ok true.
Proof. intros [[|]|e] b H; simpl in H; try discriminate; auto. Qed.

Lemma hasOwnProperty_object : forall members key,
  get members "hasOwnProperty" = None ->
  hasOwnProperty (JObject members) key = Ok (existsb (String.eqb key) (keys members)).
Proof. intros members key N. simpl. rewrite N. reflexivity. Qed.

Lemma existsb_keys : forall (members : Dict json) key,
  existsb (String.eqb key) (keys members) = true <-> In key (keys members).
Proof.
  intros members key. rewrite existsb_exists. split.
  - intros (k & Hin & E). apply String.eqb_eq in E. subst k. exact Hin.
  - intros Hin. exists key. split; [exact Hin | apply String.eqb_refl].
Qed.

Lemma Ok_existsb : forall (members : Dict json) key,
  Ok (existsb (String.eqb key) (keys members)) = Ok true ->
  In key (keys members).
Proof.
  intros members key H. apply existsb_keys.
  destruct (existsb (String.eqb key) (keys members)); [reflexivity | discriminate].
Qed.

Lemma Ok_not_existsb : forall (members : Dict json) key,
  Ok (negb (existsb (String.eqb key) (keys members))) = Ok true ->
  ~ In key (keys members).
Proof.
  intros members key H Hin. apply existsb_keys in Hin. rewrite Hin in H.
  discriminate.
Qed.

(** X14.  Only a JSON object is ever given a type, it has no member named
    [hasOwnProperty], and the type is one of the six JSON types; [null], and
    any object with a member [hasOwnProperty], make the detection throw a
    TypeError; every other non-object value is an unknown format. *)
Theorem detectType_objects_only :
  (forall json type,
     detectType json = Type_ type ->
     exists members,
       json = JObject members
       /\ get members "hasOwnProperty" = None
       /\ In type ["section-sweep"; "gps-error"; "sweep-summary";
                   "run-metadata"; "optimizer"; "params"])
  /\ detectType JNull = Raises type_error
  /\ (forall members v,
        get members "hasOwnProperty" = Some v ->
        detectType (JObject members) = Raises type_error)
  /\ (forall b n s items,
        detectType (JBool b) = Raises unknown_format
        /\ detectType (JNumber n) = Raises unknown_format
        /\ detectType (JString s) = Raises unknown_format
        /\ detectType (JArray items) = Raises unknown_format).
Proof.
  split; [|split; [reflexivity | split]].
  - intros json type H.
    destruct json as [|b|n|s|items|members].
    + discriminate.
    + rewrite detectType_not_object in H; [discriminate|].
      intros key P. apply (@hasOwnProperty_plain (JBool b) key P).
    + rewrite detectType_not_object in H; [discriminate|].
      intros key P. apply (@hasOwnProperty_plain (JNumber n) key P).
    + rewrite detectType_not_object in H; [discriminate|].
      intros key P. apply (@hasOwnProperty_plain (JString s) key P).
    + rewrite detectType_not_object in H; [discriminate|].
      intros key P. apply (@hasOwnProperty_plain (JArray items) key P).
    + destruct (get members "hasOwnProperty") eqn:N.
      * unfold detectType, isSectionSweep in H.
        rewrite (@hasOwnProperty_shadowed members _ _ N) in H. discriminate.
      * exists members. split; [reflexivity|]. split; [exact N|].
        unfold detectType in H.
        repeat detect_step H; try discriminate;
          injection H as <-; simpl; tauto.
  - intros members v N. unfold detectType, isSectionSweep.
    rewrite (@hasOwnProperty_shadowed members _ _ N). reflexivity.
  - intros b n s items.
    split; [|split; [|split]]; apply detectType_not_object; intros key P.
    + apply (@hasOwnProperty_plain (JBool b) key P).
    + apply (@hasOwnProperty_plain (JNumber n) key P).
    + apply (@hasOwnProperty_plain (JString s) key P).
    + apply (@hasOwnProperty_plain (JArray items) key P).
Qed.

(** X15.  A file typed 'gps-error' has a [gpsError] member that is an
    object with [position], [velocity] and [acceleration], and has no
    [allResults]. *)
Theorem detectType_gps_error :
  forall json,
    detectType json = Type_ "gps-error" ->
    exists members gpsError,
      json = JObject members
      /\ get members "gpsError" = Some (JObject gpsError)
      /\ In "position" (keys gpsError)
      /\ In "velocity" (keys gpsError)
      /\ In "acceleration" (keys gpsError)
      /\ ~ In "allResults" (keys members).
Proof.
  intros json H. unfold detectType in H.
  repeat detect_step H; try discriminate.
  match goal with G0 : isGPSError json = Ok true |- _ => rename G0 into G end.
  unfold isGPSError in G. apply and_then_true in G. destruct G as [G1 G2].
  own G1 members Hno. cbn [member] in G2.
  destruct (get members "gpsError") as [g|] eqn:Eg; [|discriminate].
  apply and_then_true in G2. destruct G2 as [P G2].
  apply and_then_true in G2. destruct G2 as [V G2].
  apply and_then_true in G2. destruct G2 as [A G2].
  unfold not_ in G2. rewrite (@hasOwnProperty_object _ _ Hno) in G2. cbn [bind] in G2.
  apply Ok_not_existsb in G2.
  own P members0 Hno0.
  rewrite hasOwnProperty_object in V by exact Hno0.
  rewrite hasOwnProperty_object in A by exact Hno0.
  apply Ok_existsb in V, A.
  exists members, members0. repeat split; auto.
Qed.

(** X16.  A file typed 'section-sweep' has [summary] and a non-empty
    [sections] array whose first element is an object with
    [gpsErrorProfile] and [bestResult]; nothing is required of the other
    sections. *)
Theorem detectType_section_sweep :
  forall json,
    detectType json = Type_ "section-sweep" ->
    exists members first rest section,
      json = JObject members
      /\ In "summary" (keys members)
      /\ get members "sections" = Some (JArray (first :: rest))
      /\ first = JObject section
      /\ In "gpsErrorProfile" (keys section)
      /\ In "bestResult" (keys section).
Proof.
  intros json H. unfold detectType in H.
  repeat detect_step H; try discriminate.
  match goal with G0 : isSectionSweep json = Ok true |- _ => rename G0 into G end.
  unfold isSectionSweep in G. apply and_then_true in G. destruct G as [G1 G2].
  apply and_then_true in G2. destruct G2 as [_ G2].
  own G1 members Hno. cbn [member] in G2.
  destruct (get members "sections") as [[| | | |[|first rest]|]|] eqn:Es;
    try discriminate.
  apply and_then_true in G2. destruct G2 as [P B].
  own P members0 Hno0.
  rewrite (@hasOwnProperty_object _ _ Hno0) in B.
  apply Ok_existsb in B.
  exists members, (JObject members0), rest, members0. repeat split; auto.
Qed.

(** X17.  An object with [sweepName], [allResults] and [bestResult] and
    without [summary] is typed 'sweep-summary' whether it has a [gpsError]
    object or none at all -- the type does not promise [gpsError]; with
    [gpsError: null] the detection throws a TypeError instead. *)
Theorem detectType_sweep_summary :
  forall members,
    get members "hasOwnProperty" = None ->
    ~ In "summary" (keys members) ->
    In "sweepName" (keys members) ->
    In "allResults" (keys members) ->
    In "bestResult" (keys members) ->
    (get members "gpsError" = None
       \/ (exists g, get members "gpsError" = Some (JObject g)
                     /\ get g "hasOwnProperty" = None) ->
     detectType (JObject members) = Type_ "sweep-summary")
    /\ (get members "gpsError" = Some JNull ->
        detectType (JObject members) = Raises type_error).
Proof.
  intros members N S Hn Ha Hb.
  assert (Sf : existsb (String.eqb "summary") (keys members) = false).
  { destruct (existsb (String.eqb "summary") (keys members)) eqn:E; [|reflexivity].
    apply existsb_keys in E. contradiction. }
  apply existsb_keys in Hn, Ha, Hb.
  assert (Section : isSectionSweep (JObject members) = Ok false).
  { unfold isSectionSweep. rewrite !hasOwnProperty_object by exact N. rewrite Sf. reflexivity. }
  assert (Sweep : isSweepSummary (JObject members) = Ok true).
  { unfold isSweepSummary. rewrite !hasOwnProperty_object by exact N. rewrite Hn, Ha, Hb.
    reflexivity. }
  split.
  - intros G. unfold detectType. rewrite Section. cbn [if_detected].
    assert (GPS : isGPSError (JObject members) = Ok false).
    { unfold isGPSError. rewrite !hasOwnProperty_object by exact N. rewrite Ha.
      destruct G as [G|(g & G & Ng)].
      - apply get_in_keys_none in G.
        destruct (existsb (String.eqb "gpsError") (keys members)) eqn:E;
          [|reflexivity].
        apply existsb_keys in E. contradiction.
      - cbn [member]. rewrite G. rewrite !hasOwnProperty_object by exact Ng.
        destruct (existsb (String.eqb "gpsError") (keys members));
          [|reflexivity].
        cbn [and_then].
        destruct (existsb (String.eqb "position") (keys g)); [|reflexivity].
        destruct (existsb (String.eqb "velocity") (keys g)); [|reflexivity].
        destruct (existsb (String.eqb "acceleration") (keys g)); reflexivity. }
    rewrite GPS. cbn [if_detected]. rewrite Sweep. reflexivity.
  - intros G. unfold detectType. rewrite Section. cbn [if_detected].
    unfold isGPSError. rewrite !hasOwnProperty_object by exact N.
    assert (E : existsb (String.eqb "gpsError") (keys members) = true).
    { apply existsb_keys. apply get_in_keys. eauto. }
    rewrite E. cbn [member and_then]. rewrite G. reflexivity.
Qed.

Lemma detectType_gps_error_witness :
  exists members gpsError,
    gps_error_json = JObject members
    /\ get members "gpsError" = Some (JObject gpsError)
    /\ In "position" (keys gpsError)
    /\ In "velocity" (keys gpsError)
    /\ In "acceleration" (keys gpsError)
    /\ ~ In "allResults" (keys members).
Proof. apply detectType_gps_error. reflexivity. Defined.

Lemma detectType_section_sweep_witness :
  exists members first rest section,
    section_sweep_json = JObject members
    /\ In "summary" (keys members)
    /\ get members "sections" = Some (JArray (first :: rest))
    /\ first = JObject section
    /\ In "gpsErrorProfile" (keys section)
    /\ In "bestResult" (keys section).
Proof. apply detectType_section_sweep. reflexivity. Defined.

Lemma detectType_sweep_summary_witness :
  (get bare_summary "gpsError" = None
     \/ (exists g, get bare_summary "gpsError" = Some (JObject g)
                   /\ get g "hasOwnProperty" = None) ->
   detectType (JObject bare_summary) = Type_ "sweep-summary")
  /\ (get bare_summary "gpsError" = Some JNull ->
      detectType (JObject bare_summary) = Raises type_error).
Proof.
  apply detectType_sweep_summary.
  - reflexivity.
  - simpl. intuition discriminate.
  - simpl. tauto.
  - simpl. tauto.
  - simpl. tauto.
Defined.

(** The extension of a file name. *)
Lemma last_segment_dotless : forall ext segment,
  dotless ext = true -> last_segment ext segment = (segment ++ ext)%string.
Proof.
  induction ext as [|c ext IH]; intros segment D; simpl.
  - induction segment as [|a segment IHs]; simpl; congruence.
  - simpl in D. apply andb_true_iff in D. destruct D as [C D].
    apply negb_true_iff in C. rewrite C. rewrite IH by exact D.
    clear. induction segment as [|a segment IHs]; simpl; congruence.
Qed.

Lemma last_segment_after_dot : forall prefix ext segment,
  last_segment (prefix ++ String (Ascii.ascii_of_nat 46) ext) segment
  = last_segment ext "".
Proof.
  induction prefix as [|c prefix IH]; intros ext segment.
  - reflexivity.
  - cbn [append last_segment].
    destruct (Ascii.nat_of_ascii c =? 46)%nat; apply IH.
Qed.

Lemma lower_not_dot : forall c,
  (Ascii.nat_of_ascii (lower c) =? 46)%nat = (Ascii.nat_of_ascii c =? 46)%nat.
Proof.
  intros c. unfold lower.
  destruct ((65 <=? Ascii.nat_of_ascii c)%nat && (Ascii.nat_of_ascii c <=? 90)%nat) eqn:U;
    [|reflexivity].
  apply andb_true_iff in U. destruct U as [L H].
  apply Nat.leb_le in L, H.
  rewrite Ascii.nat_ascii_embedding by lia.
  destruct (Nat.eqb_spec (Ascii.nat_of_ascii c + 32) 46),
           (Nat.eqb_spec (Ascii.nat_of_ascii c) 46); try reflexivity; lia.
Qed.

Lemma lower_idempotent : forall c, lower (lower c) = lower c.
Proof.
  intros c.
  destruct ((65 <=? Ascii.nat_of_ascii c)%nat && (Ascii.nat_of_ascii c <=? 90)%nat) eqn:U.
  - assert (E : lower c = Ascii.ascii_of_nat (Ascii.nat_of_ascii c + 32)).
    { unfold lower. rewrite U. reflexivity. }
    apply andb_true_iff in U. destruct U as [L H].
    apply Nat.leb_le in L, H. rewrite E. unfold lower.
    rewrite Ascii.nat_ascii_embedding by lia.
    destruct (Nat.leb_spec (Ascii.nat_of_ascii c + 32) 90); [lia|].
    rewrite andb_false_r. reflexivity.
  - assert (E : lower c = c).
    { unfold lower. rewrite U. reflexivity. }
    rewrite !E. reflexivity.
Qed.

Lemma toLowerCase_dotless : forall s, dotless (toLowerCase s) = dotless s.
Proof.
  induction s as [|c s IH]; simpl; [reflexivity|].
  rewrite lower_not_dot, IH. reflexivity.
Qed.

Lemma toLowerCase_idempotent : forall s, toLowerCase (toLowerCase s) = toLowerCase s.
Proof.
  induction s as [|c s IH]; simpl; [reflexivity|].
  rewrite lower_idempotent, IH. reflexivity.
Qed.

(** X18.  [parseFile] looks only at the text after the last dot of the
    file name, without regard to the case of its letters. *)
Theorem parseFile_route_extension :
  forall prefix ext : string,
    dotless ext = true ->
    parseFile_route (prefix ++ String (Ascii.ascii_of_nat 46) ext) = parseFile_route ext
    /\ parseFile_route ext = parseFile_route (toLowerCase ext).
Proof.
  intros prefix ext D. unfold parseFile_route. cbv zeta.
  rewrite last_segment_after_dot.
  rewrite !last_segment_dotless by (rewrite ?toLowerCase_dotless; exact D).
  cbn [append]. rewrite toLowerCase_idempotent. split; reflexivity.
Qed.

Lemma parseFile_route_extension_witness :
  parseFile_route ("sweep.2025" ++ String (Ascii.ascii_of_nat 46) "JSON")
    = parseFile_route "JSON"
  /\ parseFile_route "JSON" = parseFile_route (toLowerCase "JSON").
Proof. apply parseFile_route_extension. reflexivity. Defined.

End Detection.

(* ================================================================== *)
(** * What the plot controls offer *)
(* ================================================================== *)

Section PlotControls.
Import JS Plot Spec2 Examples2.

(** The default order of [sort()] on strings. *)
Lemma defaultCompare_positive : forall a b,
  (0 <? defaultCompare a b)%float =
  match String.compare a b with Gt => true | _ => false end.
Proof. intros a b. unfold defaultCompare. destruct (String.compare a b); reflexivity. Qed.

Lemma compare_lt_trans : forall a b c,
  String.compare a b = Lt -> String.compare b c = Lt -> String.compare a c = Lt.
Proof.
  intros a b c H1 H2.
  apply OrderedTypeEx.String_as_OT.cmp_lt in H1, H2.
  apply OrderedTypeEx.String_as_OT.cmp_lt.
  eapply OrderedTypeEx.String_as_OT.lt_trans; eassumption.
Qed.

Lemma compare_le_trans : forall a b c,
  String.compare a b <> Gt -> String.compare b c <> Gt -> String.compare a c <> Gt.
Proof.
  intros a b c H1 H2.
  destruct (String.compare a b) eqn:E1; [| |congruence];
    destruct (String.compare b c) eqn:E2; try congruence.
  - apply String.compare_eq_iff in E1, E2. subst.
    assert (E : String.compare c c = Eq) by (apply OrderedTypeEx.String_as_OT.cmp_eq; reflexivity).
    rewrite E. discriminate.
  - apply String.compare_eq_iff in E1. subst. congruence.
  - apply String.compare_eq_iff in E2. subst. congruence.
  - rewrite (compare_lt_trans _ _ _ E1 E2). discriminate.
Qed.

Lemma sort_insert_default : forall v a,
  StronglySorted (fun x y => String.compare x y <> Gt) a ->
  StronglySorted (fun x y => String.compare x y <> Gt) (sort_insert defaultCompare v a).
Proof.
  intros v a S. induction S as [|w rest S IH Hw]; simpl.
  - constructor; constructor.
  - rewrite defaultCompare_positive.
    destruct (String.compare v w) eqn:C.
    + constructor; [constructor; assumption|].
      constructor; [congruence|].
      eapply Forall_impl; [|exact Hw]. intros z Hz.
      apply (@compare_le_trans v w z); congruence.
    + constructor; [constructor; assumption|].
      constructor; [congruence|].
      eapply Forall_impl; [|exact Hw]. intros z Hz.
      apply (@compare_le_trans v w z); congruence.
    + constructor; [exact IH|].
      eapply Permutation_Forall; [apply Permutation_sym, sort_insert_perm|].
      constructor; [|exact Hw].
      rewrite String.compare_antisym, C. discriminate.
Qed.

Lemma sort_default_increasing : forall a,
  NoDup a -> increasing (sort defaultCompare a).
Proof.
  intros a N.
  assert (S : StronglySorted (fun x y => String.compare x y <> Gt) (sort defaultCompare a)).
  { clear N. induction a as [|v rest IH]; simpl; [constructor|].
    apply sort_insert_default. exact IH. }
  assert (N' : NoDup (sort defaultCompare a)).
  { eapply Permutation_NoDup; [apply Permutation_sym, sort_perm | exact N]. }
  unfold increasing. revert N'. induction S as [|x l S IH Hx]; intros N'.
  - constructor.
  - inversion N' as [|? ? Hin Hnd]; subst. constructor; [apply IH; exact Hnd|].
    rewrite Forall_forall in Hx |- *. intros y Hy.
    specialize (Hx y Hy).
    destruct (String.compare x y) eqn:C; [|reflexivity|congruence].
    apply String.compare_eq_iff in C. subst. contradiction.
Qed.

Lemma sort_In : forall (A : Type) (compare : A -> A -> number) a k,
  In k (sort compare a) <-> In k a.
Proof.
  intros A compare a k. split; apply Permutation_in.
  - apply sort_perm.
  - apply Permutation_sym, sort_perm.
Qed.

(** Sets. *)
Lemma Set_add_In : forall set value k,
  In k (Set_add set value) <-> In k set \/ k = value.
Proof.
  intros set value k. unfold Set_add.
  destruct (existsb (String.eqb value) set) eqn:E.
  - split; [auto|]. intros [H| ->]; [exact H|].
    apply existsb_exists in E. destruct E as (x & Hin & Ex).
    apply String.eqb_eq in Ex. subst x. exact Hin.
  - rewrite in_app_iff. simpl. intuition.
Qed.

Lemma Set_add_NoDup : forall set value, NoDup set -> NoDup (Set_add set value).
Proof.
  intros set value N. unfold Set_add.
  destruct (existsb (String.eqb value) set) eqn:E; [exact N|].
  apply NoDup_app; [exact N | constructor; [intros [] | constructor] |].
  intros x Hin [Ex|[]]. subst x.
  assert (existsb (String.eqb value) set = true); [|congruence].
  apply existsb_exists. exists value. split; [exact Hin | apply String.eqb_refl].
Qed.

Lemma Set_add_all_In : forall added set k,
  In k (fold_left Set_add added set) <-> In k set \/ In k added.
Proof.
  induction added as [|v rest IH]; intros set k; simpl.
  - intuition.
  - rewrite IH, Set_add_In. intuition.
Qed.

Lemma Set_add_all_NoDup : forall added set,
  NoDup set -> NoDup (fold_left Set_add added set).
Proof.
  induction added as [|v rest IH]; intros set N; simpl; [exact N|].
  apply IH, Set_add_NoDup, N.
Qed.

(** A loop over the files that adds to a set what each file offers. *)
Lemma collect_In :
  forall (A : Type) (step : list string -> A -> list string)
         (offer : A -> string -> Prop),
    (forall set a k, In k (step set a) <-> In k set \/ offer a k) ->
    forall files set k,
      In k (fold_left step files set) <->
      In k set \/ exists a, In a files /\ offer a k.
Proof.
  intros A step offer Hstep.
  induction files as [|a rest IH]; intros set k; simpl.
  - split; [auto | intros [H|(a & [] & _)]; exact H].
  - rewrite IH, Hstep. split.
    + intros [[H|H]|(b & Hb & Ho)]; eauto 6.
    + intros [H|(b & [<-|Hb] & Ho)]; eauto 6.
Qed.

Lemma collect_NoDup :
  forall (A : Type) (step : list string -> A -> list string),
    (forall set a, NoDup set -> NoDup (step set a)) ->
    forall files set, NoDup set -> NoDup (fold_left step files set).
Proof.
  intros A step Hstep.
  induction files as [|a rest IH]; intros set N; simpl; [exact N|].
  apply IH, Hstep, N.
Qed.

Ltac set_cases :=
  repeat match goal with
         | |- context [if ?b then _ else _] => destruct b eqn:?
         | |- context [match ?o with Some _ => _ | None => _ end] => destruct o eqn:?
         end.

Lemma paramSet_step_In : forall (paramSet : list string) (file : File.t) (k : string),
  In k (match File.data file with
        | optimizer data =>
            let paramSet :=
              fold_left Set_add (keys (OptimizerMetadata.finalParams data)) paramSet in
            let paramSet :=
              if truthy (OptimizerMetadata.timestamp data)
              then Set_add paramSet "timestamp" else paramSet in
            let paramSet :=
              match OptimizerMetadata.bestScore data with
              | Some _ => Set_add paramSet "bestScore"
              | None => paramSet
              end in
            match OptimizerMetadata.iteration data with
            | Some _ => Set_add paramSet "iteration"
            | None => paramSet
            end
        | params data =>
            let paramSet :=
              fold_left Set_add (keys (ParameterExport.params data)) paramSet in
            if truthy (ParameterExport.timestamp data)
            then Set_add paramSet "timestamp" else paramSet
        | _ => paramSet
        end)
  <-> In k paramSet \/ offers file k.
Proof.
  intros paramSet file k. unfold offers.
  destruct (File.data file) as [data|data|data|]; cbv zeta.
  - set_cases; rewrite ?Set_add_In, ?Set_add_all_In;
      intuition (try congruence; try discriminate).
  - set_cases; rewrite ?Set_add_In, ?Set_add_all_In;
      intuition (try congruence; try discriminate).
  - tauto.
  - tauto.
Qed.

Lemma paramSet_step_NoDup : forall (paramSet : list string) (file : File.t),
  NoDup paramSet ->
  NoDup (match File.data file with
        | optimizer data =>
            let paramSet :=
              fold_left Set_add (keys (OptimizerMetadata.finalParams data)) paramSet in
            let paramSet :=
              if truthy (OptimizerMetadata.timestamp data)
              then Set_add paramSet "timestamp" else paramSet in
            let paramSet :=
              match OptimizerMetadata.bestScore data with
              | Some _ => Set_add paramSet "bestScore"
              | None => paramSet
              end in
            match OptimizerMetadata.iteration data with
            | Some _ => Set_add paramSet "iteration"
            | None => paramSet
            end
        | params data =>
            let paramSet :=
              fold_left Set_add (keys (ParameterExport.params data)) paramSet in
            if truthy (ParameterExport.timestamp data)
            then Set_add paramSet "timestamp" else paramSet
        | _ => paramSet
        end).
Proof.
  intros paramSet file N.
  destruct (File.data file) as [data|data|data|]; cbv zeta; try exact N;
    set_cases; repeat apply Set_add_NoDup; apply Set_add_all_NoDup; exact N.
Qed.

Lemma extractParameters_In : forall files k,
  In k (extractParameters files) <-> exists file, In file files /\ offers file k.
Proof.
  intros files k. unfold extractParameters. cbv zeta.
  rewrite sort_In.
  rewrite (collect_In _ offers paramSet_step_In). simpl. tauto.
Qed.

Lemma dataTypes_rows_In : forall (rows : list (Dict cell)) set k,
  In k (fold_left (fun dataTypeSet row =>
          match get row "data_type" with
          | Some (CString dataType) =>
              if negb (String.eqb dataType "")
              then Set_add dataTypeSet dataType
              else dataTypeSet
          | _ => dataTypeSet
          end) rows set)
  <-> In k set
      \/ (exists row, In row rows /\ get row "data_type" = Some (CString k) /\ k <> "").
Proof.
  induction rows as [|row rest IH]; intros set k; simpl.
  - split; [auto | intros [H|(r & [] & _)]; exact H].
  - rewrite IH. clear IH.
    destruct (get row "data_type") as [[n|dataType]|] eqn:G.
    + split.
      * intros [H|(r & Hr & Hg)]; eauto 6.
      * intros [H|(r & [<-|Hr] & Hg & Hk)]; [auto | congruence | eauto 6].
    + destruct (String.eqb_spec dataType ""); simpl.
      * split.
        -- intros [H|(r & Hr & Hg)]; eauto 6.
        -- intros [H|(r & [<-|Hr] & Hg & Hk)]; [auto | congruence | eauto 6].
      * rewrite Set_add_In. split.
        -- intros [[H| ->]|(r & Hr & Hg)]; eauto 7.
        -- intros [H|(r & [<-|Hr] & Hg & Hk)]; [auto | | eauto 6].
           left. right. congruence.
    + split.
      * intros [H|(r & Hr & Hg)]; eauto 6.
      * intros [H|(r & [<-|Hr] & Hg & Hk)]; [auto | congruence | eauto 6].
Qed.

Lemma dataTypes_rows_NoDup : forall (rows : list (Dict cell)) set,
  NoDup set ->
  NoDup (fold_left (fun dataTypeSet row =>
          match get row "data_type" with
          | Some (CString dataType) =>
              if negb (String.eqb dataType "")
              then Set_add dataTypeSet dataType
              else dataTypeSet
          | _ => dataTypeSet
          end) rows set).
Proof.
  induction rows as [|row rest IH]; intros set N; simpl; [exact N|].
  apply IH. destruct (get row "data_type") as [[n|dataType]|]; try exact N.
  destruct (negb (String.eqb dataType "")); [apply Set_add_NoDup|]; exact N.
Qed.

(** X19.  The three lists that fill the plot controls -- parameters, CSV
    columns and data types -- are strictly increasing in the order of the
    default sort, so they hold no duplicate. *)
Theorem plot_lists_increasing :
  forall files : list File.t,
    increasing (extractParameters files)
    /\ increasing (extractCSVColumns files)
    /\ increasing (extractDataTypes files).
Proof.
  intros files. split; [|split]; apply sort_default_increasing.
  - apply (collect_NoDup _ paramSet_step_NoDup). constructor.
  - apply collect_NoDup; [|constructor].
    intros set file N. destruct (File.data file); try exact N.
    apply Set_add_all_NoDup. exact N.
  - apply collect_NoDup; [|constructor].
    intros set file N. destruct (File.data file) as [d|d|d|]; try exact N.
    destruct (existsb (String.eqb "data_type") (CSVData.headers d)); [|exact N].
    apply dataTypes_rows_NoDup. exact N.
Qed.

(** X20.  [extractParameters] offers exactly the keys that some optimizer
    or params file offers: the keys of its parameters, 'timestamp' when the
    file has a non-empty timestamp, and for an optimizer file 'bestScore'
    and 'iteration' when defined.  Other files offer nothing. *)
Theorem extractParameters_offers :
  forall (files : list File.t) (k : string),
    In k (extractParameters files) <-> exists file, In file files /\ offers file k.
Proof. exact extractParameters_In. Qed.

(** X21.  [extractCSVColumns] lists exactly the headers of the CSV files;
    [extractDataTypes] lists exactly the non-empty strings found in the
    [data_type] cell of a row of a CSV file that has a [data_type] header. *)
Theorem csv_lists_members :
  forall (files : list File.t) (k : string),
    (In k (extractCSVColumns files) <->
       exists file data,
         In file files /\ File.data file = csv data /\ In k (CSVData.headers data))
    /\ (In k (extractDataTypes files) <->
       exists file data row,
         In file files /\ File.data file = csv data
         /\ In "data_type" (CSVData.headers data)
         /\ In row (CSVData.rows data)
         /\ get row "data_type" = Some (CString k) /\ k <> "").
Proof.
  intros files k. split.
  - unfold extractCSVColumns. cbv zeta.
    rewrite sort_In.
    rewrite (collect_In _
      (fun file k => exists data, File.data file = csv data /\ In k (CSVData.headers data))).
    + simpl. split.
      * intros [[]|(file & Hf & data & Hd & Hk)]. eauto.
      * intros (file & data & Hf & Hd & Hk). right. eauto.
    + intros set file k'. destruct (File.data file) as [d|d|d|].
      * split; [auto | intros [H|(data & E & _)]; [exact H | discriminate]].
      * split; [auto | intros [H|(data & E & _)]; [exact H | discriminate]].
      * rewrite Set_add_all_In. split.
        -- intros [H|H]; eauto.
        -- intros [H|(data & [= <-] & H)]; auto.
      * split; [auto | intros [H|(data & E & _)]; [exact H | discriminate]].
  - unfold extractDataTypes. cbv zeta.
    rewrite sort_In.
    rewrite (collect_In _
      (fun file k => exists data row,
         File.data file = csv data
         /\ In "data_type" (CSVData.headers data)
         /\ In row (CSVData.rows data)
         /\ get row "data_type" = Some (CString k) /\ k <> "")).
    + simpl. split.
      * intros [[]|(file & Hf & data & row & H)]. exists file, data, row. tauto.
      * intros (file & data & row & Hf & H). right. exists file. split; [exact Hf|].
        exists data, row. exact H.
    + intros set file k'. destruct (File.data file) as [d|d|d|].
      * split; [auto | intros [H|(data & row & E & _)]; [exact H | discriminate]].
      * split; [auto | intros [H|(data & row & E & _)]; [exact H | discriminate]].
      * destruct (existsb (String.eqb "data_type") (CSVData.headers d)) eqn:E.
        -- apply existsb_exists in E. destruct E as (h & Hh & Eh).
           apply String.eqb_eq in Eh. subst h.
           rewrite dataTypes_rows_In. split.
           ++ intros [H|(row & Hr & Hg & Hk)]; [auto|]. right. exists d, row. auto.
           ++ intros [H|(data & row & [= <-] & _ & Hr & Hg & Hk)]; [auto|]. eauto.
        -- split; [auto|]. intros [H|(data & row & [= <-] & Hh & _)]; [exact H|].
           exfalso. assert (existsb (String.eqb "data_type") (CSVData.headers d) = true);
             [|congruence].
           apply existsb_exists. exists "data_type". split; [exact Hh | reflexivity].
      * split; [auto | intros [H|(data & row & E & _)]; [exact H | discriminate]].
Qed.

(** X22.  Whatever [getValue] can plot for a loaded file -- a number or a
    non-empty string -- is under a key that [extractParameters] offers; for
    a file that is neither optimizer nor params [getValue] is always
    null. *)
Theorem getValue_offered :
  forall (files : list File.t) (file : File.t) (key : string),
    In file files ->
    (plottable (getValue file key) = true -> In key (extractParameters files))
    /\ (File.data file = other_type \/ (exists d, File.data file = csv d) ->
        getValue file key = VNull).
Proof.
  intros files file key Hin. split.
  - intros P. apply extractParameters_In. exists file. split; [exact Hin|].
    unfold getValue in P. unfold offers.
    destruct (File.data file) as [data|data|data|]; try discriminate.
    + destruct (String.eqb_spec key "timestamp") as [->|_].
      { right. left. split; [reflexivity|].
        destruct (OptimizerMetadata.timestamp data); [exact P | discriminate]. }
      destruct (String.eqb_spec key "bestScore") as [->|_].
      { right. right. left. split; [reflexivity|].
        destruct (OptimizerMetadata.bestScore data); [discriminate | discriminate]. }
      destruct (String.eqb_spec key "iteration") as [->|_].
      { right. right. right. split; [reflexivity|].
        destruct (OptimizerMetadata.iteration data); [discriminate | discriminate]. }
      left. apply get_in_keys. unfold or_null in P.
      destruct (get (OptimizerMetadata.finalParams data) key); [eauto|].
      destruct (inherited key); discriminate.
    + destruct (String.eqb_spec key "timestamp") as [->|_].
      { right. split; [reflexivity|].
        destruct (ParameterExport.timestamp data); [exact P | discriminate]. }
      left. apply get_in_keys. unfold or_null in P.
      destruct (get (ParameterExport.params data) key); [eauto|].
      destruct (inherited key); discriminate.
  - intros [E|[d E]]; unfold getValue; rewrite E; reflexivity.
Qed.

Lemma getValue_offered_witness :
  (plottable (getValue optimizer_file "rPosY") = true ->
     In "rPosY" (extractParameters [optimizer_file]))
  /\ (File.data optimizer_file = other_type
      \/ (exists d, File.data optimizer_file = csv d) ->
      getValue optimizer_file "rPosY" = VNull).
Proof.
  apply getValue_offered. left. reflexivity.
Defined.

(** X23.  For an optimizer file a key of [finalParams] reads as that
    parameter's number, except under the three metadata names, which hide
    a parameter of the same name: a parameter named 'bestScore' or
    'iteration' is offered as an axis but reads as null when the file has
    no such metadata field. *)
Theorem getValue_parameter :
  forall (file : File.t) (data : OptimizerMetadata.t) (key : string),
    File.data file = optimizer data ->
    In key (keys (OptimizerMetadata.finalParams data)) ->
    (~ In key ["timestamp"; "bestScore"; "iteration"] ->
       exists n, get (OptimizerMetadata.finalParams data) key = Some n
                 /\ getValue file key = VNumber n)
    /\ (key = "bestScore" -> OptimizerMetadata.bestScore data = None ->
        In key (extractParameters [file]) /\ getValue file key = VNull)
    /\ (key = "iteration" -> OptimizerMetadata.iteration data = None ->
        In key (extractParameters [file]) /\ getValue file key = VNull).
Proof.
  intros file data key E Hin.
  assert (O : In key (extractParameters [file])).
  { apply extractParameters_In. exists file. split; [left; reflexivity|].
    unfold offers. rewrite E. left. exact Hin. }
  split; [|split].
  - intros M. apply get_in_keys in Hin. destruct Hin as [n G].
    exists n. split; [exact G|]. unfold getValue. rewrite E.
    destruct (String.eqb_spec key "timestamp") as [T|_].
    { exfalso. apply M. subst key. left. reflexivity. }
    destruct (String.eqb_spec key "bestScore") as [T|_].
    { exfalso. apply M. subst key. right. left. reflexivity. }
    destruct (String.eqb_spec key "iteration") as [T|_].
    { exfalso. apply M. subst key. right. right. left. reflexivity. }
    unfold or_null. rewrite G. reflexivity.
  - intros K B. split; [exact O|]. subst key. unfold getValue. rewrite E, B.
    reflexivity.
  - intros K I. split; [exact O|]. subst key. unfold getValue. rewrite E, I.
    reflexivity.
Qed.

Lemma getValue_parameter_witness :
  (~ In "bestScore" ["timestamp"; "bestScore"; "iteration"] ->
     exists n, get [("rPosY", 1%float); ("bestScore", 2%float)] "bestScore" = Some n
               /\ getValue optimizer_file "bestScore" = VNumber n)
  /\ ("bestScore" = "bestScore" -> @None number = None ->
      In "bestScore" (extractParameters [optimizer_file])
      /\ getValue optimizer_file "bestScore" = VNull)
  /\ ("bestScore" = "iteration" -> Some 3%float = None ->
      In "bestScore" (extractParameters [optimizer_file])
      /\ getValue optimizer_file "bestScore" = VNull).
Proof.
  apply (@getValue_parameter optimizer_file
           (OptimizerMetadata.mk (Some "2025-12-22")
              [("rPosY", 1%float); ("bestScore", 2%float)] None (Some 3%float))
           "bestScore").
  - reflexivity.
  - right. left. reflexivity.
Defined.

End PlotControls.
